(** * efactura-sdk: tax identifiers, address sanitizer, invoice validation

    A shallow embedding of the pure core of the SDK:
    - [src/utils/validators.ts]   (CNP / CIF validation, VAT number normalisation)
    - [src/ubl/address-sanitizer.ts] (county, Bucharest sector and country helpers)
    - the structural validator and the tax aggregator of the invoice builder,
      whose observable behaviour is pinned by [tests/invoiceBuilder.unit.test.ts].

    ECMAScript strings are sequences of UTF-16 code units; they are modelled
    as lists of [N].  Regular expression literals of the sources are
    translated one to one into a small abstract syntax and run by a
    backtracking matcher with the ECMAScript priorities (ordered
    alternation, greedy quantifiers). *)

From Stdlib Require Import List Bool Arith NArith ZArith QArith Qround Lia.
From Stdlib Require Import Strings.String Strings.Ascii.
From Stdlib Require Import Numbers.DecimalString Numbers.DecimalNat.
Import ListNotations.

Set Implicit Arguments.
Close Scope Q_scope.
Open Scope list_scope.

(* ================================================================== *)
(** ** ECMAScript strings *)
(* ================================================================== *)

Module JS.

(** A string value: the list of its UTF-16 code units. *)
Definition jsstring := list N.

(** Literal of the source text (Basic Latin only), as code units. *)
Definition str (s : string) : jsstring :=
  List.map N_of_ascii (list_ascii_of_string s).

Fixpoint eqb (a b : jsstring) : bool :=
  match a, b with
  | [], [] => true
  | x :: a', y :: b' => N.eqb x y && eqb a' b'
  | _, _ => false
  end.

Definition inRange (lo hi c : N) : bool := N.leb lo c && N.leb c hi.

(** [\d] *)
Definition isDigit (c : N) : bool := inRange 48 57 c.

(** [\w] (no [u], no [i] flag): [[A-Za-z0-9_]] *)
Definition isWordChar (c : N) : bool :=
  inRange 97 122 c || inRange 65 90 c || inRange 48 57 c || N.eqb c 95.

(** [\s], [String.prototype.trim] and the StrWhiteSpaceChar of [Number]:
    WhiteSpace and LineTerminator code points. *)
Definition isSpace (c : N) : bool :=
  inRange 9 13 c || N.eqb c 32 || N.eqb c 160 || N.eqb c 5760
  || inRange 8192 8202 c || N.eqb c 8232 || N.eqb c 8233 || N.eqb c 8239
  || N.eqb c 8287 || N.eqb c 12288 || N.eqb c 65279.

(** A class that lists its members, such as [[._,-]]. *)
Definition oneOf (s : string) (c : N) : bool := existsb (N.eqb c) (str s).

Fixpoint trimStart (s : jsstring) : jsstring :=
  match s with
  | c :: s' => if isSpace c then trimStart s' else s
  | [] => []
  end.

Definition trimEnd (s : jsstring) : jsstring := rev (trimStart (rev s)).

Definition trim (s : jsstring) : jsstring := trimEnd (trimStart s).

(** Numbers as far as the validators use them: small integers and NaN. *)
Inductive num : Type :=
| NaN
| Int (z : Z).

Definition add (a b : num) : num :=
  match a, b with Int x, Int y => Int (x + y) | _, _ => NaN end.

Definition mul (a b : num) : num :=
  match a, b with Int x, Int y => Int (x * y) | _, _ => NaN end.

(** [a % b]: the remainder has the sign of the dividend; [x % 0] is NaN. *)
Definition rem (a b : num) : num :=
  match a, b with
  | Int x, Int y => if Z.eqb y 0 then NaN else Int (Z.rem x y)
  | _, _ => NaN
  end.

(** [a === b] on numbers: NaN is different from everything. *)
Definition strictEq (a b : num) : bool :=
  match a, b with Int x, Int y => Z.eqb x y | _, _ => false end.

(** [parseInt(s[i])]: the argument is one code unit, or [undefined] when the
    index is out of range. *)
Definition parseIntAt (s : jsstring) (i : nat) : num :=
  match nth_error s i with
  | Some c => if isDigit c then Int (Z.of_N c - 48) else NaN
  | None => NaN
  end.

(** [s.slice(-1)] *)
Definition sliceLast (s : jsstring) : jsstring :=
  match rev s with
  | c :: _ => [c]
  | [] => []
  end.

(** [s.slice(0, -1)] *)
Definition sliceInit (s : jsstring) : jsstring := removelast s.

(** [Number(s)] for a string of at most one code unit (the result of
    [slice(-1)]): the empty string and white space convert to 0, a digit to
    its value, anything else to NaN. *)
Definition numberOfUnit (s : jsstring) : num :=
  match s with
  | [] => Int 0
  | [c] => if isDigit c then Int (Z.of_N c - 48)
           else if isSpace c then Int 0 else NaN
  | _ => NaN
  end.

(** The two kinds of exception the sources raise. *)
Inductive errorKind : Type :=
| Error                  (* new Error(message) *)
| AnafValidationError.   (* new AnafValidationError(message) *)

(** Results of functions that may throw.  [Diverge] stands for a loop that
    does not end. *)
Inductive result (A : Type) : Type :=
| Ok (a : A)
| Throw (kind : errorKind) (message : string)
| Diverge.
Arguments Ok {A} a.
Arguments Throw {A} kind message.
Arguments Diverge {A}.

Definition bind {A B} (r : result A) (f : A -> result B) : result B :=
  match r with
  | Ok a => f a
  | Throw k m => Throw k m
  | Diverge => Diverge
  end.

End JS.

Notation "x <- c1 ;; c2" := (JS.bind c1 (fun x => c2))
  (at level 61, c1 at next level, right associativity).

(* ================================================================== *)
(** ** Regular expressions *)
(* ================================================================== *)

Module Regex.
Import JS.

Inductive regex : Type :=
| Empty                          (* the empty pattern *)
| Class (p : N -> bool)          (* a character, an escape or a class *)
| Seq (r1 r2 : regex)
| Alt (r1 r2 : regex)            (* r1|r2, left first *)
| Opt (r : regex)                (* r?  greedy *)
| Star (p : N -> bool)           (* [class]* greedy *)
| WordBoundary                   (* \b *)
| Start                          (* ^ *)
| End_                           (* $ *)
| Group (r : regex).             (* ( r ), capturing *)

Definition Chr (c : N) : regex := Class (N.eqb c).

(** [[class]+] *)
Definition Plus (p : N -> bool) : regex := Seq (Class p) (Star p).

(** [r{n}] *)
Fixpoint Times (n : nat) (r : regex) : regex :=
  match n with
  | O => Empty
  | S n' => Seq r (Times n' r)
  end.

(** A literal word. *)
Fixpoint Lit (s : jsstring) : regex :=
  match s with
  | [] => Empty
  | c :: s' => Seq (Chr c) (Lit s')
  end.

(** A literal word under the [i] flag, for Basic Latin letters. *)
Definition ChrI (c : N) : regex :=
  Class (fun x => N.eqb x c || (inRange 97 122 c && N.eqb x (c - 32))
                  || (inRange 65 90 c && N.eqb x (c + 32))).

Fixpoint LitI (s : jsstring) : regex :=
  match s with
  | [] => Empty
  | c :: s' => Seq (ChrI c) (LitI s')
  end.

Definition isWordOpt (c : option N) : bool :=
  match c with Some x => isWordChar x | None => false end.

(** The matcher state is the code unit before the current position (none
    at index 0), the rest of the input, the number of code units consumed
    since the start of the match and the captures closed so far.  The
    continuation is what remains to be matched; [None] makes the caller
    backtrack. *)
Section Run.
Variable R : Type.

Definition cont := option N -> jsstring -> nat -> list jsstring -> option R.

Fixpoint star (p : N -> bool) (k : cont)
    (prev : option N) (s : jsstring) (n : nat) (caps : list jsstring) : option R :=
  match s with
  | c :: s' =>
      if p c then
        match star p k (Some c) s' (S n) caps with
        | Some x => Some x
        | None => k prev s n caps
        end
      else k prev s n caps
  | [] => k prev s n caps
  end.

Fixpoint run (r : regex) (k : cont)
    (prev : option N) (s : jsstring) (n : nat) (caps : list jsstring) : option R :=
  match r with
  | Empty => k prev s n caps
  | Class p =>
      match s with
      | c :: s' => if p c then k (Some c) s' (S n) caps else None
      | [] => None
      end
  | Seq r1 r2 => run r1 (run r2 k) prev s n caps
  | Alt r1 r2 =>
      match run r1 k prev s n caps with
      | Some x => Some x
      | None => run r2 k prev s n caps
      end
  | Opt r1 =>
      match run r1 k prev s n caps with
      | Some x => Some x
      | None => k prev s n caps
      end
  | Star p => star p k prev s n caps
  | WordBoundary =>
      if xorb (isWordOpt prev) (isWordOpt (hd_error s))
      then k prev s n caps else None
  | Start => match prev with None => k prev s n caps | Some _ => None end
  | End_ => match s with [] => k prev s n caps | _ :: _ => None end
  | Group r1 =>
      run r1 (fun prev' s' n' caps' =>
                k prev' s' n' (caps' ++ [firstn (n' - n) s]))
          prev s n caps
  end.
End Run.

(** One attempt at the current position: the length of the match and its
    captures. *)
Definition matchHere (r : regex) (prev : option N) (s : jsstring)
  : option (nat * list jsstring) :=
  run r (fun _ _ n caps => Some (n, caps)) prev s 0%nat [].

(** [RegExp.prototype.exec] without the [g] flag: the leftmost position at
    which an attempt succeeds; the result is the text before the match, the
    match length and the captures. *)
Fixpoint execFrom (r : regex) (prev : option N) (s : jsstring)
  : option (jsstring * nat * list jsstring) :=
  match matchHere r prev s with
  | Some (n, caps) => Some ([], n, caps)
  | None =>
      match s with
      | c :: s' =>
          match execFrom r (Some c) s' with
          | Some (pre, n, caps) => Some (c :: pre, n, caps)
          | None => None
          end
      | [] => None
      end
  end.

Definition exec (r : regex) (s : jsstring) := execFrom r None s.

(** [r.test(s)] *)
Definition test (r : regex) (s : jsstring) : bool :=
  match exec r s with Some _ => true | None => false end.

(** [s.replace(r, repl)] without the [g] flag: the first match only. *)
Definition replaceFirst (r : regex) (repl : jsstring) (s : jsstring) : jsstring :=
  match exec r s with
  | Some (pre, n, _) => pre ++ repl ++ skipn (List.length pre + n) s
  | None => s
  end.

(** [s.replace(r, repl)] with the [g] flag.  [skip] counts the code units of
    the current match that are still to be dropped.  After an empty match
    the scan moves on by one code unit, which is copied. *)
Fixpoint replaceAllFrom (r : regex) (repl : jsstring)
    (prev : option N) (s : jsstring) (skip : nat) : jsstring :=
  match s with
  | c :: s' =>
      match skip with
      | S k => replaceAllFrom r repl (Some c) s' k
      | O =>
          match matchHere r prev s with
          | Some (S k, _) => repl ++ replaceAllFrom r repl (Some c) s' k
          | Some (O, _) => repl ++ c :: replaceAllFrom r repl (Some c) s' 0
          | None => c :: replaceAllFrom r repl (Some c) s' 0
          end
      end
  | [] =>
      match skip, matchHere r prev [] with
      | O, Some _ => repl
      | _, _ => []
      end
  end.

Definition replaceAll (r : regex) (repl : jsstring) (s : jsstring) : jsstring :=
  replaceAllFrom r repl None s 0.

End Regex.

(* ================================================================== *)
(** ** src/utils/validators.ts *)
(* ================================================================== *)

Module Validators.
Import JS Regex.

(** [/^\d{13}$/] *)
Definition re_cnp : regex := Seq Start (Seq (Times 13 (Class isDigit)) End_).

(** [/ro/i] *)
Definition re_ro : regex := LitI (str "ro").

(** The StringNumericLiteral grammar of [Number(string)]: optional white
    space around an optional numeric literal, which is a signed decimal
    literal ([Infinity], digits with an optional fraction and exponent, or a
    fraction alone) or an unsigned binary, octal or hexadecimal integer. *)
Definition isHexDigit (c : N) : bool :=
  isDigit c || inRange 97 102 c || inRange 65 70 c.

Definition re_exponent : regex :=
  Seq (Class (oneOf "eE")) (Seq (Opt (Class (oneOf "+-"))) (Plus isDigit)).

Definition re_unsignedDecimal : regex :=
  Alt (Lit (str "Infinity"))
 (Alt (Seq (Plus isDigit)
        (Seq (Opt (Seq (Chr 46) (Star isDigit))) (Opt re_exponent)))
      (Seq (Chr 46) (Seq (Plus isDigit) (Opt re_exponent)))).

Definition re_nonDecimal : regex :=
  Seq (Chr 48)
    (Alt (Seq (Class (oneOf "xX")) (Plus isHexDigit))
    (Alt (Seq (Class (oneOf "oO")) (Plus (inRange 48 55)))
         (Seq (Class (oneOf "bB")) (Plus (inRange 48 49))))).

Definition re_stringNumericLiteral : regex :=
  Seq Start
    (Seq (Star isSpace)
      (Seq (Opt (Alt re_nonDecimal
                     (Seq (Opt (Class (oneOf "+-"))) re_unsignedDecimal)))
        (Seq (Star isSpace) End_))).

(** [isNaN(Number(code))] for a string [code] *)
Definition isNaN_Number (code : jsstring) : bool :=
  negb (test re_stringNumericLiteral code).

Definition controlKey : jsstring := str "279146358279".

(** The loop [for (let i = 0; i < 12; i++) sum += parseInt(code[i]) * parseInt(controlKey[i])] *)
Definition cnpSum (code : jsstring) : num :=
  fold_left (fun sum i => add sum (mul (parseIntAt code i) (parseIntAt controlKey i)))
            (seq 0 12) (Int 0).

Definition isValidCNP (code : jsstring) : bool :=
  if negb (test re_cnp code) then false
  else if JS.eqb code (str "0000000000000") then true
  else
    let sum := cnpSum code in
    let remainder := rem sum (Int 11) in
    let controlDigit := if strictEq remainder (Int 10) then Int 1 else remainder in
    if negb (strictEq (parseIntAt code 12) controlDigit) then false
    else
      let sex := parseIntAt code 0 in
      if negb (existsb (strictEq sex)
                 [Int 1; Int 2; Int 3; Int 4; Int 5; Int 6; Int 7; Int 8; Int 9])
      then false
      else true.

Definition missingVat : string := "Company VAT number is missing.".

Definition stripTaxIdPrefix (value : jsstring) : result jsstring :=
  match value with
  | [] => Throw Error missingVat
  | _ => Ok (replaceFirst re_ro [] value)
  end.

(** The loop [while (code.length != 9) code = '0' + code].  It is entered
    with at most nine code units, so nine rounds are enough; the bound only
    makes the recursion structural. *)
Fixpoint padTo9 (fuel : nat) (code : jsstring) : option jsstring :=
  if Nat.eqb (List.length code) 9 then Some code
  else match fuel with
       | O => None
       | S fuel' => padTo9 fuel' (48%N :: code)
       end.

Definition cifWeights : list Z := [7; 5; 3; 2; 1; 7; 5; 3; 2]%Z.

(** [parseInt(code[0]) * 7 + ... + parseInt(code[8]) * 2] *)
Definition cifSum (code : jsstring) : num :=
  match
    List.map (fun iw => mul (parseIntAt code (fst iw)) (Int (snd iw)))
             (combine (seq 0 9) cifWeights)
  with
  | t :: ts => fold_left add ts t
  | [] => NaN
  end.

(** The body of [isValidCIF] once the prefix has been stripped. *)
Definition cifCheck (code : jsstring) : result bool :=
  if isNaN_Number code then Ok false
  else if Nat.ltb 10 (List.length code) then Ok false
  else
    let controlDigit := numberOfUnit (sliceLast code) in
    match padTo9 9 (sliceInit code) with
    | None => Diverge
    | Some code' =>
        let sum := mul (cifSum code') (Int 10) in
        let rest := rem sum (Int 11) in
        let rest := if strictEq rest (Int 10) then Int 0 else rest in
        Ok (strictEq rest controlDigit)
    end.

Definition isValidCIF (code : jsstring) : result bool :=
  code' <- stripTaxIdPrefix code ;;
  cifCheck code'.

Definition normalizeVatNumber (value : jsstring) : result jsstring :=
  match value with
  | [] => Throw Error missingVat
  | _ =>
      if isValidCNP value then Ok value
      else
        valid <- isValidCIF value ;;
        if (valid : bool) then
          stripped <- stripTaxIdPrefix value ;;
          Ok (str "RO" ++ stripped)
        else Ok value
  end.

End Validators.

(* ================================================================== *)
(** ** src/ubl/address-sanitizer.ts *)
(* ================================================================== *)

Module Address.
Import JS Regex.
Local Open Scope N_scope.

(** [String.prototype.toLowerCase], code unit by code unit, for text
    written in Basic Latin, the Latin-1 Supplement and the Romanian
    letters of Latin Extended-A and B: there it is the mapping of
    ECMAScript.  Other code units are passed through, which ECMAScript
    does not do for the cased letters of other blocks; what is proved of
    arbitrary text does not open this table. *)
Definition lowerUnit (c : N) : N :=
  if inRange 65 90 c then c + 32                               (* A-Z *)
  else if inRange 192 222 c && negb (N.eqb c 215) then c + 32  (* U+00C0-U+00DE but U+00D7 *)
  else if N.eqb c 258 || N.eqb c 350 || N.eqb c 354            (* U+0102 U+015E U+0162 *)
          || N.eqb c 536 || N.eqb c 538 then c + 1             (* U+0218 U+021A *)
  else c.

Definition toLowerCase (s : jsstring) : jsstring := List.map lowerUnit s.

(** Canonical decompositions used by [normalize('NFD')]: precomposed
    letter, base letter, combining mark.  Same coverage as [lowerUnit],
    for the lower case letters and their capitals; precomposed letters
    of other blocks are not decomposed here. *)
Definition nfdLower : list (N * (N * N)) :=
  [ (224, (97, 768)); (225, (97, 769)); (226, (97, 770)); (227, (97, 771));
    (228, (97, 776)); (229, (97, 778)); (231, (99, 807));
    (232, (101, 768)); (233, (101, 769)); (234, (101, 770)); (235, (101, 776));
    (236, (105, 768)); (237, (105, 769)); (238, (105, 770)); (239, (105, 776));
    (241, (110, 771));
    (242, (111, 768)); (243, (111, 769)); (244, (111, 770)); (245, (111, 771));
    (246, (111, 776));
    (249, (117, 768)); (250, (117, 769)); (251, (117, 770)); (252, (117, 776));
    (253, (121, 769)); (255, (121, 776));
    (259, (97, 774));                       (* a breve *)
    (351, (115, 807)); (355, (116, 807));   (* s, t cedilla *)
    (537, (115, 806)); (539, (116, 806)) ]%N. (* s, t comma below *)

Definition nfdUpper : list (N * (N * N)) :=
  List.map (fun e => (if N.ltb (fst e) 256 then fst e - 32 else fst e - 1,
                      (fst (snd e) - 32, snd (snd e))))
           (filter (fun e => negb (N.eqb (fst e) 255)) nfdLower).

Fixpoint assoc {V} (k : N) (l : list (N * V)) : option V :=
  match l with
  | (k', v) :: l' => if N.eqb k k' then Some v else assoc k l'
  | [] => None
  end.

Definition nfdUnit (c : N) : jsstring :=
  match assoc c (nfdLower ++ nfdUpper) with
  | Some (b, m) => [b; m]
  | None => [c]
  end.

Definition normalizeNFD (s : jsstring) : jsstring := flat_map nfdUnit s.

(** [/[\u0300-\u036f]/g] *)
Definition re_combining : regex := Class (inRange 768 879).
(** [/ş/g] and [/ţ/g] (U+015F, U+0163) *)
Definition re_s_cedilla : regex := Chr 351.
Definition re_t_cedilla : regex := Chr 355.
(** [/[._,-]+/g] *)
Definition re_separators : regex := Plus (oneOf "._,-").
(** [/\s+/g] *)
Definition re_spaces : regex := Plus isSpace.
(** [/\bmun\b/g] *)
Definition re_mun : regex := Seq WordBoundary (Seq (Lit (str "mun")) WordBoundary).
(** [/\bjude?t(ul)?\b/g] *)
Definition re_judet : regex :=
  Seq WordBoundary
   (Seq (Lit (str "jud"))
    (Seq (Opt (Chr 101))
     (Seq (Chr 116)
      (Seq (Opt (Group (Lit (str "ul")))) WordBoundary)))).
(** [/\bsect(or(ul)?)?\b/g] *)
Definition re_sect : regex :=
  Seq WordBoundary
   (Seq (Lit (str "sect"))
    (Seq (Opt (Group (Seq (Lit (str "or")) (Opt (Group (Lit (str "ul")))))))
         WordBoundary)).

(** The chain of calls on the trimmed, non-empty input. *)
Definition normalizeChain (s : jsstring) : jsstring :=
  trim
   (replaceAll re_sect (str "sectorul")
   (replaceAll re_judet (str "judetul")
   (replaceAll re_mun (str "municipiul")
   (replaceAll re_spaces (str " ")
   (replaceAll re_separators (str " ")
   (replaceAll re_t_cedilla (str "t")
   (replaceAll re_s_cedilla (str "s")
   (replaceAll re_combining []
   (normalizeNFD (toLowerCase s)))))))))).

(** [normalizeInput]; [None] is both [null] and a value that is not a
    string on the input side, and [null] on the output side. *)
Definition normalizeInput (input : option jsstring) : option jsstring :=
  match input with
  | None => None
  | Some input' =>
      let s := trim input' in
      match s with
      | [] => None
      | _ => Some (normalizeChain s)
      end
  end.

Definition word (w : string) : regex :=
  Seq WordBoundary (Seq (Lit (str w)) WordBoundary).

Definition stripAdministrativeWords (s : jsstring) : jsstring :=
  trim
   (replaceAll re_spaces (str " ")
   (replaceAll (word "sectorul") []
   (replaceAll (Seq WordBoundary
                 (Seq (Lit (str "oras"))
                   (Seq (Opt (Group (Lit (str "ul")))) WordBoundary))) []
   (replaceAll (word "comuna") []
   (replaceAll (word "municipiul") []
   (replaceAll (word "judetul") [] s)))))).

(** [/\b(?:sectorul|sector|s)\s*[:.-]?\s*0?([1-6])\b/] *)
Definition re_sector : regex :=
  Seq WordBoundary
   (Seq (Alt (Lit (str "sectorul")) (Alt (Lit (str "sector")) (Lit (str "s"))))
    (Seq (Star isSpace)
     (Seq (Opt (Class (oneOf ":.-")))
      (Seq (Star isSpace)
       (Seq (Opt (Chr 48))
        (Seq (Group (Class (inRange 49 54))) WordBoundary)))))).

(** [extractSectorNumber]: [Number(m[1])] of the first match, kept when it
    lies between 1 and 6. *)
Definition extractSectorNumber (normalized : jsstring) : option N :=
  match exec re_sector normalized with
  | None => None
  | Some (_, _, caps) =>
      match numberOfUnit (nth 0%nat caps []) with
      | Int n => if Z.leb 1 n && Z.leb n 6 then Some (Z.to_N n) else None
      | NaN => None
      end
  end.

(** [RO_ISO_3166_2_RO_MAP], in the order of the source. *)
Definition RO_ISO_3166_2_RO_MAP : list (string * string) :=
  [ ("bucuresti", "RO-B"); ("buc", "RO-B");
    ("alba", "RO-AB"); ("arges", "RO-AG"); ("arad", "RO-AR");
    ("bacau", "RO-BC"); ("bihor", "RO-BH");
    ("bistrita nasaud", "RO-BN"); ("bistrita-nasaud", "RO-BN");
    ("botosani", "RO-BT"); ("brasov", "RO-BV"); ("braila", "RO-BR");
    ("buzau", "RO-BZ");
    ("caras severin", "RO-CS"); ("carasseverin", "RO-CS"); ("caras-severin", "RO-CS");
    ("calaras", "RO-CL"); ("cluj", "RO-CJ"); ("constanta", "RO-CT");
    ("covasna", "RO-CV"); ("dambovita", "RO-DB"); ("dimbovita", "RO-DB");
    ("dolj", "RO-DJ"); ("galati", "RO-GL"); ("giurgiu", "RO-GR");
    ("gorj", "RO-GJ"); ("harghita", "RO-HR"); ("hunedoara", "RO-HD");
    ("ialomita", "RO-IL"); ("iasi", "RO-IS"); ("ilfov", "RO-IF");
    ("maramures", "RO-MM"); ("mehedinti", "RO-MH"); ("mures", "RO-MS");
    ("neamt", "RO-NT"); ("olt", "RO-OT"); ("prahova", "RO-PH");
    ("satu mare", "RO-SM"); ("satu-mare", "RO-SM"); ("salaj", "RO-SJ");
    ("sibiu", "RO-SB"); ("suceava", "RO-SV"); ("teleorman", "RO-TR");
    ("timis", "RO-TM"); ("tulcea", "RO-TL"); ("valcea", "RO-VL");
    ("vilcea", "RO-VL"); ("vaslui", "RO-VS"); ("vrancea", "RO-VN") ]%string.

(** [Map.prototype.get] *)
Fixpoint mapGet (m : list (string * string)) (key : jsstring) : option jsstring :=
  match m with
  | (k, v) :: m' => if JS.eqb key (str k) then Some (str v) else mapGet m' key
  | [] => None
  end.

Definition sanitizeCounty (input : option jsstring) : option jsstring :=
  match normalizeInput input with
  | None | Some [] => None
  | Some normalized =>
      match mapGet RO_ISO_3166_2_RO_MAP normalized with
      | Some direct => Some direct
      | None =>
          let stripped := stripAdministrativeWords normalized in
          match stripped with
          | [] => None
          | _ =>
              if negb (JS.eqb stripped normalized) then
                mapGet RO_ISO_3166_2_RO_MAP stripped
              else None
          end
      end
  end.

(** The decimal digit of a sector number. *)
Definition sectorDigit (n : N) : N := 48 + n.

Definition sanitizeBucharestSector (cityInput : option jsstring) : option jsstring :=
  match normalizeInput cityInput with
  | None | Some [] => None
  | Some normalized =>
      match extractSectorNumber normalized with
      | Some sector => Some (str "SECTOR" ++ [sectorDigit sector])
      | None => None
      end
  end.

(** [a === b] on values that are a string or [null]. *)
Definition strictEqOpt (a b : option jsstring) : bool :=
  match a, b with
  | None, None => true
  | Some x, Some y => JS.eqb x y
  | _, _ => false
  end.

Section DefaultCountry.
(** [DEFAULT_COUNTRY] is imported from [../constants]; the constant is
    not among the sources, so it is a parameter here. *)
Variable DEFAULT_COUNTRY : jsstring.

Definition isInternalInvoice (countryName : jsstring) : bool :=
  strictEqOpt (normalizeInput (Some countryName))
              (normalizeInput (Some DEFAULT_COUNTRY)).
End DefaultCountry.

End Address.

(* ================================================================== *)
(** ** The invoice builder: input, structural validator, tax aggregator *)
(* ================================================================== *)

Module Invoice.
Import JS.

(** The input objects, with the fields of [createBaseInvoice] in
    [tests/invoiceBuilder.unit.test.ts].  A field is [None] when it is
    [undefined].  A numeric field holds [None] when its value is not a
    number. *)
Record Address : Type := mkAddress {
  street : option jsstring;
  city : option jsstring;
  county : option jsstring;
  postalZone : option jsstring;
  country : option jsstring
}.

Record Party : Type := mkParty {
  registrationName : option jsstring;
  companyId : option jsstring;
  isVatPayer : bool;
  address : option Address
}.

Record InvoiceLine : Type := mkLine {
  name : option jsstring;
  description : option jsstring;
  quantity : option Q;
  unitCode : option jsstring;
  unitPrice : option Q;
  taxPercent : option Q
}.

Record InvoiceInput : Type := mkInvoice {
  invoiceNumber : option jsstring;
  issueDate : option jsstring;
  supplier : option Party;
  customer : option Party;
  lines : option (list InvoiceLine)
}.

(** *** Structural validator *)

Definition nonBlank (v : option jsstring) : bool :=
  match v with
  | Some s => match trim s with [] => false | _ => true end
  | None => false
  end.

Definition isNumber (v : option Q) : bool :=
  match v with Some _ => true | None => false end.

Definition nonNegative (v : option Q) : bool :=
  match v with Some p => Qle_bool 0 p | None => false end.

Definition percentInRange (v : option Q) : bool :=
  match v with
  | Some p => Qle_bool 0 p && Qle_bool p 100
  | None => true
  end.

Definition require (ok : bool) (message : string) : result unit :=
  if ok then Ok tt else Throw AnafValidationError message.

Definition present {A} (v : option A) (message : string) : result A :=
  match v with
  | Some a => Ok a
  | None => Throw AnafValidationError message
  end.

(** The message of a line check, with the line number counted from 1. *)
Definition lineMessage (index : nat) (text : string) : string :=
  ("Line " ++ NilEmpty.string_of_uint (Nat.to_uint (S index)) ++ ": " ++ text)%string.

Fixpoint validateLines (index : nat) (ls : list InvoiceLine) : result unit :=
  match ls with
  | [] => Ok tt
  | line :: rest =>
      _ <- require (nonBlank (name line)) (lineMessage index "Name is required") ;;
      _ <- require (isNumber (quantity line))
             (lineMessage index "Quantity must be a number") ;;
      _ <- require (nonNegative (unitPrice line))
             (lineMessage index "Unit price must be a non-negative number") ;;
      _ <- require (percentInRange (taxPercent line))
             (lineMessage index "Tax percent must be between 0 and 100") ;;
      validateLines (S index) rest
  end.

(** Modelled from the spec: the structural validator of the invoice
    builder ([src/ubl/InvoiceBuilder.ts] is not among the sources).  The
    order of the checks is the one of section 4.1; the messages are those
    of the table of the unit test. *)
Definition validate (input : InvoiceInput) : result unit :=
  _ <- require (nonBlank (invoiceNumber input)) "Invoice number is required" ;;
  _ <- present (issueDate input) "Issue date is required" ;;
  sup <- present (supplier input) "Supplier information is required" ;;
  _ <- require (nonBlank (registrationName sup))
         "Supplier registration name is required" ;;
  _ <- require (nonBlank (companyId sup)) "Supplier company ID is required" ;;
  addr <- present (address sup) "Supplier address is required" ;;
  _ <- require (nonBlank (street addr)) "Supplier street address is required" ;;
  _ <- require (nonBlank (city addr)) "Supplier city is required" ;;
  _ <- require (nonBlank (postalZone addr)) "Supplier postal zone is required" ;;
  cust <- present (customer input) "Customer information is required" ;;
  _ <- require (nonBlank (registrationName cust))
         "Customer registration name is required" ;;
  ls <- present (lines input) "Invoice lines array is required" ;;
  validateLines 0 ls.

Section Builder.
(** The document assembler, which runs on validated input only. *)
Variable Xml : Type.
Variable assemble : InvoiceInput -> Xml.

Definition buildInvoiceXml (input : InvoiceInput) : result Xml :=
  _ <- validate input ;;
  Ok (assemble input).
End Builder.

(** The documented checks, one by one, each read on the whole input. *)
Inductive LineCheck : Type := LName | LQuantity | LUnitPrice | LTaxPercent.

Inductive Check : Type :=
| CInvoiceNumber | CIssueDate | CSupplier | CSupplierName | CSupplierCompanyId
| CSupplierAddress | CSupplierStreet | CSupplierCity | CSupplierPostalZone
| CCustomer | CCustomerName | CLines
| CLine (index : nat) (c : LineCheck).

Definition opt {A B} (v : option A) (f : A -> option B) : option B :=
  match v with Some a => f a | None => None end.

Definition isSome {A} (v : option A) : bool :=
  match v with Some _ => true | None => false end.

Definition lineHolds (c : LineCheck) (line : InvoiceLine) : bool :=
  match c with
  | LName => nonBlank (name line)
  | LQuantity => isNumber (quantity line)
  | LUnitPrice => nonNegative (unitPrice line)
  | LTaxPercent => percentInRange (taxPercent line)
  end.

Definition holds (c : Check) (input : InvoiceInput) : bool :=
  match c with
  | CInvoiceNumber => nonBlank (invoiceNumber input)
  | CIssueDate => isSome (issueDate input)
  | CSupplier => isSome (supplier input)
  | CSupplierName => nonBlank (opt (supplier input) registrationName)
  | CSupplierCompanyId => nonBlank (opt (supplier input) companyId)
  | CSupplierAddress => isSome (opt (supplier input) address)
  | CSupplierStreet => nonBlank (opt (opt (supplier input) address) street)
  | CSupplierCity => nonBlank (opt (opt (supplier input) address) city)
  | CSupplierPostalZone => nonBlank (opt (opt (supplier input) address) postalZone)
  | CCustomer => isSome (customer input)
  | CCustomerName => nonBlank (opt (customer input) registrationName)
  | CLines => isSome (lines input)
  | CLine index c =>
      match opt (lines input) (fun ls => nth_error ls index) with
      | Some line => lineHolds c line
      | None => false
      end
  end.

Definition lineText (c : LineCheck) : string :=
  match c with
  | LName => "Name is required"
  | LQuantity => "Quantity must be a number"
  | LUnitPrice => "Unit price must be a non-negative number"
  | LTaxPercent => "Tax percent must be between 0 and 100"
  end.

Definition messageOf (c : Check) : string :=
  match c with
  | CInvoiceNumber => "Invoice number is required"
  | CIssueDate => "Issue date is required"
  | CSupplier => "Supplier information is required"
  | CSupplierName => "Supplier registration name is required"
  | CSupplierCompanyId => "Supplier company ID is required"
  | CSupplierAddress => "Supplier address is required"
  | CSupplierStreet => "Supplier street address is required"
  | CSupplierCity => "Supplier city is required"
  | CSupplierPostalZone => "Supplier postal zone is required"
  | CCustomer => "Customer information is required"
  | CCustomerName => "Customer registration name is required"
  | CLines => "Invoice lines array is required"
  | CLine index c => lineMessage index (lineText c)
  end.

(** The checks in the documented order: the header fields, then, line by
    line, the four line checks. *)
Definition checksInOrder (input : InvoiceInput) : list Check :=
  [CInvoiceNumber; CIssueDate; CSupplier; CSupplierName; CSupplierCompanyId;
   CSupplierAddress; CSupplierStreet; CSupplierCity; CSupplierPostalZone;
   CCustomer; CCustomerName; CLines]
  ++ flat_map (fun index => List.map (CLine index) [LName; LQuantity; LUnitPrice; LTaxPercent])
              (seq 0 (match lines input with Some ls => List.length ls | None => 0 end)).

(** The first documented check that fails, if any. *)
Definition firstFailure (input : InvoiceInput) : option Check :=
  find (fun c => negb (holds c input)) (checksInOrder input).

(** The rows of the table of the unit test ("validation errors"): what is
    changed in a valid invoice.  Where the test writes a blank string, any
    blank or undefined value may be given. *)
Inductive Mutation : Type :=
| MissingInvoiceNumber (blank : option jsstring)
| MissingIssueDate
| MissingSupplier
| MissingSupplierRegistrationName (blank : option jsstring)
| MissingSupplierCompanyId (blank : option jsstring)
| MissingSupplierAddress
| MissingSupplierStreet (blank : option jsstring)
| MissingSupplierCity (blank : option jsstring)
| MissingSupplierPostalZone (blank : option jsstring)
| MissingCustomer
| MissingCustomerRegistrationName (blank : option jsstring)
| MissingLinesArray
| MissingLineName (index : nat) (blank : option jsstring)
| NonNumericQuantity (index : nat)
| NegativeUnitPrice (index : nat) (price : Q)
| InvalidTaxPercent (index : nat) (percent : Q).

Definition onSupplier (f : Party -> Party) (input : InvoiceInput) : InvoiceInput :=
  mkInvoice (invoiceNumber input) (issueDate input)
            (option_map f (supplier input)) (customer input) (lines input).

Definition onCustomer (f : Party -> Party) (input : InvoiceInput) : InvoiceInput :=
  mkInvoice (invoiceNumber input) (issueDate input)
            (supplier input) (option_map f (customer input)) (lines input).

Definition onAddress (f : Address -> Address) (p : Party) : Party :=
  mkParty (registrationName p) (companyId p) (isVatPayer p)
          (option_map f (address p)).

Fixpoint updateAt {A} (index : nat) (f : A -> A) (l : list A) : list A :=
  match l, index with
  | [], _ => []
  | x :: l', O => f x :: l'
  | x :: l', S i => x :: updateAt i f l'
  end.

Definition onLine (index : nat) (f : InvoiceLine -> InvoiceLine)
    (input : InvoiceInput) : InvoiceInput :=
  mkInvoice (invoiceNumber input) (issueDate input) (supplier input)
            (customer input) (option_map (updateAt index f) (lines input)).

Definition mutate (m : Mutation) (input : InvoiceInput) : InvoiceInput :=
  match m with
  | MissingInvoiceNumber b =>
      mkInvoice b (issueDate input) (supplier input) (customer input) (lines input)
  | MissingIssueDate =>
      mkInvoice (invoiceNumber input) None (supplier input) (customer input) (lines input)
  | MissingSupplier =>
      mkInvoice (invoiceNumber input) (issueDate input) None (customer input) (lines input)
  | MissingSupplierRegistrationName b =>
      onSupplier (fun p => mkParty b (companyId p) (isVatPayer p) (address p)) input
  | MissingSupplierCompanyId b =>
      onSupplier (fun p => mkParty (registrationName p) b (isVatPayer p) (address p)) input
  | MissingSupplierAddress =>
      onSupplier (fun p => mkParty (registrationName p) (companyId p) (isVatPayer p) None) input
  | MissingSupplierStreet b =>
      onSupplier (onAddress (fun a =>
        mkAddress b (city a) (county a) (postalZone a) (country a))) input
  | MissingSupplierCity b =>
      onSupplier (onAddress (fun a =>
        mkAddress (street a) b (county a) (postalZone a) (country a))) input
  | MissingSupplierPostalZone b =>
      onSupplier (onAddress (fun a =>
        mkAddress (street a) (city a) (county a) b (country a))) input
  | MissingCustomer =>
      mkInvoice (invoiceNumber input) (issueDate input) (supplier input) None (lines input)
  | MissingCustomerRegistrationName b =>
      onCustomer (fun p => mkParty b (companyId p) (isVatPayer p) (address p)) input
  | MissingLinesArray =>
      mkInvoice (invoiceNumber input) (issueDate input) (supplier input) (customer input) None
  | MissingLineName i b =>
      onLine i (fun l => mkLine b (description l) (quantity l) (unitCode l)
                                (unitPrice l) (taxPercent l)) input
  | NonNumericQuantity i =>
      onLine i (fun l => mkLine (name l) (description l) None (unitCode l)
                                (unitPrice l) (taxPercent l)) input
  | NegativeUnitPrice i p =>
      onLine i (fun l => mkLine (name l) (description l) (quantity l) (unitCode l)
                                (Some p) (taxPercent l)) input
  | InvalidTaxPercent i p =>
      onLine i (fun l => mkLine (name l) (description l) (quantity l) (unitCode l)
                                (unitPrice l) (Some p)) input
  end.

(** The third column of the table. *)
Definition expectedMessage (m : Mutation) : string :=
  match m with
  | MissingInvoiceNumber _ => "Invoice number is required"
  | MissingIssueDate => "Issue date is required"
  | MissingSupplier => "Supplier information is required"
  | MissingSupplierRegistrationName _ => "Supplier registration name is required"
  | MissingSupplierCompanyId _ => "Supplier company ID is required"
  | MissingSupplierAddress => "Supplier address is required"
  | MissingSupplierStreet _ => "Supplier street address is required"
  | MissingSupplierCity _ => "Supplier city is required"
  | MissingSupplierPostalZone _ => "Supplier postal zone is required"
  | MissingCustomer => "Customer information is required"
  | MissingCustomerRegistrationName _ => "Customer registration name is required"
  | MissingLinesArray => "Invoice lines array is required"
  | MissingLineName i _ => lineMessage i "Name is required"
  | NonNumericQuantity i => lineMessage i "Quantity must be a number"
  | NegativeUnitPrice i _ => lineMessage i "Unit price must be a non-negative number"
  | InvalidTaxPercent i _ => lineMessage i "Tax percent must be between 0 and 100"
  end.

Definition lineCount (input : InvoiceInput) : nat :=
  match lines input with Some ls => List.length ls | None => 0 end.

(** When a row really breaks its field: the new value is blank, the line
    exists, the price is negative, the percent lies outside [0, 100]. *)
Definition breaks (m : Mutation) (input : InvoiceInput) : bool :=
  match m with
  | MissingInvoiceNumber b | MissingSupplierRegistrationName b
  | MissingSupplierCompanyId b | MissingSupplierStreet b | MissingSupplierCity b
  | MissingSupplierPostalZone b | MissingCustomerRegistrationName b =>
      negb (nonBlank b)
  | MissingLineName i b => Nat.ltb i (lineCount input) && negb (nonBlank b)
  | NonNumericQuantity i => Nat.ltb i (lineCount input)
  | NegativeUnitPrice i p => Nat.ltb i (lineCount input) && negb (Qle_bool 0 p)
  | InvalidTaxPercent i p =>
      Nat.ltb i (lineCount input) && negb (Qle_bool 0 p && Qle_bool p 100)
  | _ => true
  end.

(** [createBaseInvoice] of the unit test. *)
Definition createBaseInvoice : InvoiceInput :=
  mkInvoice (Some (str "INV-001")) (Some (str "2024-01-15"))
    (Some (mkParty (Some (str "Supplier SRL")) (Some (str "160796")) true
       (Some (mkAddress (Some (str "Str. Supplier")) (Some (str "Sector 3"))
                (Some (str "Bucuresti")) (Some (str "010101"))
                (Some (str "Romania"))))))
    (Some (mkParty (Some (str "Customer SRL")) (Some (str "RO87654321")) false
       (Some (mkAddress (Some (str "Str. Customer")) (Some (str "Cluj-Napoca"))
                (Some (str "Cluj")) (Some (str "400000"))
                (Some (str "Romania"))))))
    (Some [ mkLine (Some (str "Product with tax")) (Some (str "First product"))
                   (Some 2%Q) (Some (str "HUR")) (Some 50%Q) (Some 19%Q);
            mkLine (Some (str "Service without tax")) None
                   (Some 1%Q) None (Some 10%Q) None ]).

(** The sixteen rows of the table, with the values and the messages the
    test writes. *)
Definition testTable : list (Mutation * string) :=
  [ (MissingInvoiceNumber (Some (str " ")), "Invoice number is required");
    (MissingIssueDate, "Issue date is required");
    (MissingSupplier, "Supplier information is required");
    (MissingSupplierRegistrationName (Some (str " ")),
     "Supplier registration name is required");
    (MissingSupplierCompanyId (Some (str " ")), "Supplier company ID is required");
    (MissingSupplierAddress, "Supplier address is required");
    (MissingSupplierStreet (Some (str " ")), "Supplier street address is required");
    (MissingSupplierCity (Some []), "Supplier city is required");
    (MissingSupplierPostalZone (Some []), "Supplier postal zone is required");
    (MissingCustomer, "Customer information is required");
    (MissingCustomerRegistrationName (Some []),
     "Customer registration name is required");
    (MissingLinesArray, "Invoice lines array is required");
    (MissingLineName 0 (Some []), "Line 1: Name is required");
    (NonNumericQuantity 0, "Line 1: Quantity must be a number");
    (NegativeUnitPrice 0 (-1)%Q, "Line 1: Unit price must be a non-negative number");
    (InvalidTaxPercent 0 150%Q, "Line 1: Tax percent must be between 0 and 100") ]%string.

(** [createBaseInvoice] with another issue date. *)
Definition withIssueDate (date : option jsstring) (input : InvoiceInput) : InvoiceInput :=
  mkInvoice (invoiceNumber input) date (supplier input) (customer input) (lines input).

(** An invoice of [n] valid lines. *)
Definition withLines (n : nat) (input : InvoiceInput) : InvoiceInput :=
  mkInvoice (invoiceNumber input) (issueDate input) (supplier input) (customer input)
    (Some (repeat (mkLine (Some (str "Item")) None (Some 1%Q) None (Some 10%Q) None) n)).

End Invoice.

(** *** Tax aggregator *)

Module Tax.
Import JS Invoice.

(** Amounts are exact decimals; a rounded amount is a number of cents. *)
Definition ofCents (c : Z) : Q := Qmake c 100.

(** Round to 2 decimal places, half away from zero; the result in cents. *)
Definition round2 (x : Q) : Z :=
  if Qle_bool 0 x
  then Qfloor (x * 100 + (1 # 2))%Q
  else (- Qfloor (- x * 100 + (1 # 2))%Q)%Z.

Definition numberOr0 (v : option Q) : Q :=
  match v with Some q => q | None => 0%Q end.

(** Modelled from the spec: the line amount as section 4.4 words it,
    [round2(quantity * unitPrice)] ([src/ubl/InvoiceBuilder.ts] is not
    among the sources). *)
Definition lineAmountSpec (line : InvoiceLine) : Z :=
  round2 (numberOr0 (quantity line) * numberOr0 (unitPrice line))%Q.

Inductive TaxCategory : Type :=
| StandardRated   (* S *)
| ZeroRated       (* Z *)
| OutsideScope.   (* O, with the exemption reason code and no percent *)

(** Modelled from the spec: category and percent of a line, section 4.4.
    A line without a tax percent counts as 0 percent. *)
Definition categoryOf (supplierIsVatPayer : bool) (line : InvoiceLine)
  : TaxCategory * Q :=
  if negb supplierIsVatPayer then (OutsideScope, 0%Q)
  else
    let p := numberOr0 (taxPercent line) in
    if Qeq_bool p 0 then (ZeroRated, 0%Q) else (StandardRated, p).

Record TaxGroup : Type := mkGroup {
  groupCategory : TaxCategory;
  groupPercent : Q;
  taxableAmount : Z
}.

Definition sameCategory (a b : TaxCategory) : bool :=
  match a, b with
  | StandardRated, StandardRated | ZeroRated, ZeroRated
  | OutsideScope, OutsideScope => true
  | _, _ => false
  end.

(** The key of a group is the pair (category, percent). *)
Definition keyEq (a b : TaxCategory * Q) : bool :=
  sameCategory (fst a) (fst b) && Qeq_bool (snd a) (snd b).

Definition groupKey (g : TaxGroup) : TaxCategory * Q :=
  (groupCategory g, groupPercent g).

Definition sameKey (g : TaxGroup) (key : TaxCategory * Q) : bool :=
  keyEq (groupKey g) key.

Fixpoint addToGroups (key : TaxCategory * Q) (amount : Z) (groups : list TaxGroup)
  : list TaxGroup :=
  match groups with
  | [] => [mkGroup (fst key) (snd key) amount]
  | g :: gs =>
      if sameKey g key
      then mkGroup (groupCategory g) (groupPercent g) (taxableAmount g + amount) :: gs
      else g :: addToGroups key amount gs
  end.

Section Aggregator.
(** The line extension amount of a line, in cents, as the document
    carries it.  The function that computes it is in
    [src/ubl/InvoiceBuilder.ts], which is not among the sources, and the
    amounts of the unit test are not those of [lineAmountSpec]; the groups
    and the totals are modelled for any line amount. *)
Variable lineAmount : InvoiceLine -> Z.

(** Modelled from the spec: lines grouped by (category, percent), each
    line amount rounded before it enters its group. *)
Definition groupTaxes (supplierIsVatPayer : bool) (ls : list InvoiceLine)
  : list TaxGroup :=
  fold_left (fun groups line =>
               addToGroups (categoryOf supplierIsVatPayer line) (lineAmount line) groups)
            ls [].
End Aggregator.

(** The lines that belong to the group of a key. *)
Definition members (supplierIsVatPayer : bool) (key : TaxCategory * Q)
    (ls : list InvoiceLine) : list InvoiceLine :=
  filter (fun line => keyEq (categoryOf supplierIsVatPayer line) key) ls.

(** Modelled from the spec: the tax amount of a group; the percent of a
    zero-rated or outside-scope group is 0. *)
Definition taxAmount (g : TaxGroup) : Z :=
  round2 (ofCents (taxableAmount g) * groupPercent g / 100)%Q.

Definition sumZ (l : list Z) : Z := fold_right Z.add 0%Z l.

(** The taxable amounts held under a key. *)
Definition taxableOf (key : TaxCategory * Q) (groups : list TaxGroup) : Z :=
  sumZ (List.map taxableAmount (filter (fun g => keyEq (groupKey g) key) groups)).

(** No two groups have the same key. *)
Fixpoint distinctKeys (groups : list TaxGroup) : Prop :=
  match groups with
  | [] => True
  | g :: gs =>
      (forall g', In g' gs -> keyEq (groupKey g) (groupKey g') = false)
      /\ distinctKeys gs
  end.

Record Totals : Type := mkTotals {
  totalTaxable : Z;
  totalTax : Z;
  taxInclusive : Z;
  payable : Z
}.

(** Modelled from the spec: the invoice totals of section 4.4. *)
Definition totals (groups : list TaxGroup) : Totals :=
  let taxable := sumZ (List.map taxableAmount groups) in
  let tax := sumZ (List.map taxAmount groups) in
  mkTotals taxable tax (taxable + tax) (taxable + tax).

(** An amount of cents printed with two decimals, as in the document. *)
Definition twoDigits (n : nat) : string :=
  (if Nat.ltb n 10 then "0" else "") ++ NilEmpty.string_of_uint (Nat.to_uint n).

Definition formatAmount (cents : Z) : string :=
  let a := Z.abs cents in
  ((if Z.ltb cents 0 then "-" else "")
   ++ NilEmpty.string_of_uint (Nat.to_uint (Z.to_nat (a / 100)))
   ++ "." ++ twoDigits (Z.to_nat (a mod 100)))%string.

(** The three lines of the unit test "calculates totals and groups taxes
    for VAT payer" and the amounts it expects in the document. *)
Definition testLines : list InvoiceLine :=
  [ mkLine (Some (str "Rounded item")) None (Some 2%Q) None
           (Some (10345 # 1000)%Q) (Some 19%Q);
    mkLine (Some (str "Second item")) None (Some 1%Q) None (Some 50%Q) (Some 19%Q);
    mkLine (Some (str "Zero VAT item")) None (Some 3%Q) None (Some 0%Q) (Some 0%Q) ].

Definition expectedLineExtensionAmounts : list string := ["20.70"; "50.00"]%string.
Definition expectedTaxableAmount : string := "70.70".
Definition expectedTaxAmount : string := "13.43".
Definition expectedTaxInclusiveAmount : string := "84.13".
Definition expectedPayableAmount : string := "84.13".

(** The line amounts of the test in cents: 20.70 and 50.00 as the test
    expects them, and 0 for the line of unit price 0. *)
Definition testLineAmounts : list Z := [2070; 5000; 0]%Z.

End Tax.

(* ================================================================== *)
(** ** The documented behaviour, for comparison with the code *)
(* ================================================================== *)

Module Spec.
Import JS Address Invoice.

(** [exactly p n s]: [s] is made of [n] code units, all in class [p]. *)
Fixpoint exactly (p : N -> bool) (n : nat) (s : jsstring) : bool :=
  match n, s with
  | O, [] => true
  | S n', c :: s' => p c && exactly p n' s'
  | _, _ => false
  end.

(** A string of exactly 13 decimal digits. *)
Definition thirteenDigits (s : jsstring) : Prop :=
  List.length s = 13%nat /\ Forall (fun c => isDigit c = true) s.

Definition digitValue (c : N) : Z := Z.of_N c - 48.

(** The fixed key 2 7 9 1 4 6 3 5 8 2 7 9. *)
Definition cnpKey : list Z := [2; 7; 9; 1; 4; 6; 3; 5; 8; 2; 7; 9]%Z.

(** Pairwise products, summed, as far as the shorter list goes. *)
Fixpoint weightedSum (digits weights : list Z) : Z :=
  match digits, weights with
  | d :: digits', w :: weights' => (d * w + weightedSum digits' weights')%Z
  | _, _ => 0%Z
  end.

(** The check digit the first 12 digits call for: the weighted sum mod 11,
    with 10 mapped to 1. *)
Definition expectedCheckDigit (digits : list Z) : Z :=
  let r := (weightedSum digits cnpKey mod 11)%Z in
  if Z.eqb r 10 then 1%Z else r.

(** The check digit matches position 13 and the first digit is in 1-9. *)
Definition checksumAndFirstDigit (s : jsstring) : Prop :=
  let digits := List.map digitValue s in
  nth 12 digits 0%Z = expectedCheckDigit digits
  /\ (1 <= nth 0 digits 0 <= 9)%Z.

(** Texts made of lower-case words: a word is a non-empty run of the
    letters a-z and the digits; [unwords] puts one space between words. *)
Definition isLowerAlnum (c : N) : bool := inRange 97 122 c || inRange 48 57 c.

Definition isWord (w : jsstring) : bool :=
  match w with
  | [] => false
  | _ => forallb isLowerAlnum w
  end.

Definition tailWords (ws : list jsstring) : jsstring :=
  flat_map (fun w => 32%N :: w) ws.

Definition unwords (ws : list jsstring) : jsstring :=
  match ws with
  | [] => []
  | w :: ws' => w ++ tailWords ws'
  end.

(** The code units of such a text: a-z, 0-9 and the space. *)
Definition textChar (c : N) : bool := isLowerAlnum c || N.eqb c 32.

Definition inWords (l : list string) (w : jsstring) : bool :=
  existsb (fun x => JS.eqb w (str x)) l.

Definition expandWord (l : list string) (to : string) (w : jsstring) : jsstring :=
  if inWords l w then str to else w.

(** What the three expansions of [normalizeInput] do to a word, in the
    order of the source. *)
Definition expand (w : jsstring) : jsstring :=
  expandWord ["sect"; "sector"; "sectorul"]%string "sectorul"
    (expandWord ["judt"; "judet"; "judtul"; "judetul"]%string "judetul"
       (expandWord ["mun"]%string "municipiul" w)).

(** The 41 counties and Bucharest: the name without diacritics and the
    ISO 3166-2 code of the subdivision. *)
Definition counties : list (string * string) :=
  [ ("alba", "RO-AB"); ("arad", "RO-AR"); ("arges", "RO-AG"); ("bacau", "RO-BC");
    ("bihor", "RO-BH"); ("bistrita-nasaud", "RO-BN"); ("botosani", "RO-BT");
    ("brasov", "RO-BV"); ("braila", "RO-BR"); ("bucuresti", "RO-B");
    ("buzau", "RO-BZ"); ("caras-severin", "RO-CS"); ("calarasi", "RO-CL");
    ("cluj", "RO-CJ"); ("constanta", "RO-CT"); ("covasna", "RO-CV");
    ("dambovita", "RO-DB"); ("dolj", "RO-DJ"); ("galati", "RO-GL");
    ("giurgiu", "RO-GR"); ("gorj", "RO-GJ"); ("harghita", "RO-HR");
    ("hunedoara", "RO-HD"); ("ialomita", "RO-IL"); ("iasi", "RO-IS");
    ("ilfov", "RO-IF"); ("maramures", "RO-MM"); ("mehedinti", "RO-MH");
    ("mures", "RO-MS"); ("neamt", "RO-NT"); ("olt", "RO-OT"); ("prahova", "RO-PH");
    ("satu mare", "RO-SM"); ("salaj", "RO-SJ"); ("sibiu", "RO-SB");
    ("suceava", "RO-SV"); ("teleorman", "RO-TR"); ("timis", "RO-TM");
    ("tulcea", "RO-TL"); ("vaslui", "RO-VS"); ("valcea", "RO-VL");
    ("vrancea", "RO-VN") ]%string.

(** Administrative qualifiers that may precede the name. *)
Definition qualifiers : list string :=
  ["judetul"; "judet"; "municipiul"; "mun"; "comuna"; "oras"; "orasul";
   "sectorul"; "sector"; "sect"]%string.

(** A name alone, or after a qualifier and a space, in lower case. *)
Definition spellings (name : string) : list jsstring :=
  str name :: List.map (fun q => str q ++ 32%N :: str name) qualifiers.

(** Case folding of the letters A-Z only. *)
Definition asciiLower (c : N) : N := if inRange 65 90 c then (c + 32)%N else c.

(** Basic Latin text that begins and ends with a lower-case letter or digit. *)
Definition plainText (t : jsstring) : bool :=
  forallb (fun c => N.ltb c 128) t
  && match t with c :: _ => isLowerAlnum c | [] => false end
  && match rev t with c :: _ => isLowerAlnum c | [] => false end.

(** The county names for which the table has the code, spelt in lower
    case, alone or after a qualifier. *)
Definition found (entry : string * string) : bool :=
  forallb (fun t => plainText t
                    && strictEqOpt (sanitizeCounty (Some t)) (Some (str (snd entry))))
          (spellings (fst entry)).

(** The line checks of [count] lines from index [start] on, in order. *)
Definition lineChecksFrom (start count : nat) : list Check :=
  flat_map (fun index => List.map (CLine index) [LName; LQuantity; LUnitPrice; LTaxPercent])
           (seq start count).

(** What the validator returns when [c] is the first failing check. *)
Definition outcome (c : option Check) : result unit :=
  match c with
  | Some c' => Throw AnafValidationError (messageOf c')
  | None => Ok tt
  end.

(** The first of the four checks that a line fails. *)
Definition firstLineFailure (line : InvoiceLine) : option LineCheck :=
  find (fun c => negb (lineHolds c line)) [LName; LQuantity; LUnitPrice; LTaxPercent].

(** A line-level message: "Line ", the number of the line counted from 1,
    ": " and the text of the check.  The number is described by how it
    reads: [d] is the decimal numeral without leading zero whose value is
    [index + 1]. *)
Definition lineNumbered (index : nat) (text message : string) : Prop :=
  exists d : Decimal.uint,
    Nat.of_uint d = S index /\ Decimal.unorm d = d
    /\ message = ("Line " ++ NilEmpty.string_of_uint d ++ ": " ++ text)%string.

(** The documented message of each check: section 4.1, with the texts of
    the table of the unit test. *)
Definition documented (c : Check) (message : string) : Prop :=
  match c with
  | CInvoiceNumber => message = "Invoice number is required"%string
  | CIssueDate => message = "Issue date is required"%string
  | CSupplier => message = "Supplier information is required"%string
  | CSupplierName => message = "Supplier registration name is required"%string
  | CSupplierCompanyId => message = "Supplier company ID is required"%string
  | CSupplierAddress => message = "Supplier address is required"%string
  | CSupplierStreet => message = "Supplier street address is required"%string
  | CSupplierCity => message = "Supplier city is required"%string
  | CSupplierPostalZone => message = "Supplier postal zone is required"%string
  | CCustomer => message = "Customer information is required"%string
  | CCustomerName => message = "Customer registration name is required"%string
  | CLines => message = "Invoice lines array is required"%string
  | CLine index LName => lineNumbered index "Name is required" message
  | CLine index LQuantity => lineNumbered index "Quantity must be a number" message
  | CLine index LUnitPrice =>
      lineNumbered index "Unit price must be a non-negative number" message
  | CLine index LTaxPercent =>
      lineNumbered index "Tax percent must be between 0 and 100" message
  end.

(** The check that a row of the table breaks. *)
Definition checkOf (m : Mutation) : Check :=
  match m with
  | MissingInvoiceNumber _ => CInvoiceNumber
  | MissingIssueDate => CIssueDate
  | MissingSupplier => CSupplier
  | MissingSupplierRegistrationName _ => CSupplierName
  | MissingSupplierCompanyId _ => CSupplierCompanyId
  | MissingSupplierAddress => CSupplierAddress
  | MissingSupplierStreet _ => CSupplierStreet
  | MissingSupplierCity _ => CSupplierCity
  | MissingSupplierPostalZone _ => CSupplierPostalZone
  | MissingCustomer => CCustomer
  | MissingCustomerRegistrationName _ => CCustomerName
  | MissingLinesArray => CLines
  | MissingLineName i _ => CLine i LName
  | NonNumericQuantity i => CLine i LQuantity
  | NegativeUnitPrice i _ => CLine i LUnitPrice
  | InvalidTaxPercent i _ => CLine i LTaxPercent
  end.

End Spec.

(* ================================================================== *)
(** ** src/ubl/address-sanitizer.ts: Bucharest and the country helpers *)
(* ================================================================== *)

Module Country.
Import JS Regex Address.
Local Open Scope N_scope.

(** Code units whose upper case is not found by an offset: the micro
    sign, the sharp s, y-diaeresis, and every code unit above Basic
    Latin whose upper case holds a Basic Latin unit (dotless i, long s,
    the letters that decompose into a capital and a mark, the Latin
    ligatures). *)
Definition upperSpecial : list (N * jsstring) :=
  [ (181, [924]); (223, [83; 83]); (255, [376]);
    (305, [73]); (329, [700; 78]); (383, [83]); (496, [74; 780]);
    (7830, [72; 817]); (7831, [84; 776]); (7832, [87; 778]);
    (7833, [89; 778]); (7834, [65; 702]);
    (64256, [70; 70]); (64257, [70; 73]); (64258, [70; 76]);
    (64259, [70; 70; 73]); (64260, [70; 70; 76]);
    (64261, [83; 84]); (64262, [83; 84]) ].

(** [String.prototype.toUpperCase], code unit by code unit: Basic Latin,
    the Latin-1 Supplement, the Romanian letters and the code units of
    [upperSpecial]; other code units are passed through.  Every code unit
    whose upper case holds a Basic Latin unit is in the table, so the
    comparison of an upper-cased string with a Basic Latin string, the
    use the sources make of it, is that of ECMAScript. *)
Definition upperUnits (c : N) : jsstring :=
  if inRange 97 122 c then [c - 32]                             (* a-z *)
  else if inRange 224 254 c && negb (N.eqb c 247) then [c - 32] (* U+00E0-U+00FE but U+00F7 *)
  else if N.eqb c 259 || N.eqb c 351 || N.eqb c 355             (* U+0103 U+015F U+0163 *)
          || N.eqb c 537 || N.eqb c 539 then [c - 1]            (* U+0219 U+021B *)
  else match find (fun e => N.eqb (fst e) c) upperSpecial with
       | Some e => snd e
       | None => [c]
       end.

Definition toUpperCase (s : jsstring) : jsstring := flat_map upperUnits s.

(** [isBucharest]; [None] is a value that is not a string. *)
Definition isBucharest (countyCode : option jsstring) : bool :=
  match countyCode with
  | Some s => JS.eqb (toUpperCase (trim s)) (str "RO-B")
  | None => false
  end.

(** An entry of [ISO_3166_2_COUNTRY_CODES]. *)
Record Country : Type := mkCountry {
  name : jsstring;
  alpha2 : jsstring
}.

(** [/^[A-Z]{2}$/] *)
Definition re_alpha2 : regex :=
  Seq Start (Seq (Times 2 (Class (inRange 65 90))) End_).

Section Table.
(** [ISO_3166_2_COUNTRY_CODES] is imported from [./countries-list], which
    is not among the sources: the list is a parameter. *)
Variable ISO_3166_2_COUNTRY_CODES : list Country.

Definition getCountryCodeByInput (input : jsstring) : option jsstring :=
  match normalizeInput (Some input) with
  | None | Some [] => None
  | Some normalizedInput =>
      let upperInput := toUpperCase (trim input) in
      match
        if test re_alpha2 upperInput
        then find (fun country => JS.eqb (alpha2 country) upperInput)
                  ISO_3166_2_COUNTRY_CODES
        else None
      with
      | Some byAlpha2 => Some (alpha2 byAlpha2)
      | None =>
          match
            find (fun country =>
                    strictEqOpt (normalizeInput (Some (name country)))
                                (Some normalizedInput))
                 ISO_3166_2_COUNTRY_CODES
          with
          | Some country => Some (alpha2 country)
          | None => None
          end
      end
  end.

Definition getCountryFromTaxId (taxId : jsstring) : option jsstring :=
  let countryCode := toUpperCase (firstn 2 (trim taxId)) in
  match
    find (fun country => JS.eqb (alpha2 country) countryCode)
         ISO_3166_2_COUNTRY_CODES
  with
  | Some country => Some (name country)
  | None => None
  end.
End Table.

End Country.

(* ================================================================== *)
(** ** Notions used to describe the validators and the sanitizer *)
(* ================================================================== *)

Module Notions.
Import JS Regex Validators Address Spec.

(** The letters of the pattern [/ro/i]. *)
Definition isR (c : N) : bool := N.eqb c 114 || N.eqb c 82.
Definition isO (c : N) : bool := N.eqb c 111 || N.eqb c 79.

(** [hasRo s]: somewhere in [s] an "r" is followed by an "o", in any casing. *)
Fixpoint hasRo (s : jsstring) : bool :=
  match s with
  | x :: t => match t with
              | y :: _ => (isR x && isO y) || hasRo t
              | [] => false
              end
  | [] => false
  end.

(** The testing key 753217532 of the comment of [isValidCIF]. *)
Definition testingKey : list Z := [7; 5; 3; 2; 1; 7; 5; 3; 2]%Z.

(** The control digit that the comment of [isValidCIF] describes, for the
    digits before the control digit: pad with zeros on the left to nine
    digits, multiply by the key, add, multiply by 10, take the remainder
    mod 11, and 10 counts as 0. *)
Definition cifControlDigit (body : list Z) : Z :=
  let padded := repeat 0%Z (9 - List.length body) ++ body in
  let r := ((weightedSum padded testingKey * 10) mod 11)%Z in
  if Z.eqb r 10 then 0%Z else r.

(** The code unit of a decimal digit. *)
Definition digitChar (d : Z) : N := Z.to_N (d + 48).

(** A pattern without capturing group. *)
Fixpoint groupFree (r : regex) : bool :=
  match r with
  | Seq r1 r2 | Alt r1 r2 => groupFree r1 && groupFree r2
  | Opt r1 => groupFree r1
  | Group _ => false
  | _ => true
  end.

(** What [normalizeInput] leaves in its result: none of the separators
    [. _ , -], and no white space other than the space U+0020. *)
Definition normalChar (c : N) : Prop :=
  oneOf "._,-" c = false /\ (isSpace c = true -> c = 32%N).

(** The results of [sanitizeBucharestSector]. *)
Definition sectorCodes : list jsstring :=
  List.map (fun n => str "SECTOR" ++ [sectorDigit n]) [1; 2; 3; 4; 5; 6]%N.

(** Case folding of the letters a-z only. *)
Definition asciiUpper (c : N) : N := if inRange 97 122 c then (c - 32)%N else c.

(** The keys of a table that hold a hyphen. *)
Definition hyphenated (key : string) : bool := existsb (N.eqb 45) (str key).

(** The code units on which the tables of [toLowerCase] and of
    [normalize('NFD')] are those of ECMAScript: Basic Latin, the Latin-1
    Supplement and the Romanian letters. *)
Definition tabled (c : N) : bool :=
  N.ltb c 256
  || existsb (N.eqb c) [258; 259; 350; 351; 354; 355; 536; 537; 538; 539]%N.

(** The calls of [normalizeInput] that come before the expansions: lower
    case, diacritics, separators and white space. *)
Definition unifySeparators (s : jsstring) : jsstring :=
  replaceAll re_spaces (str " ")
   (replaceAll re_separators (str " ")
   (replaceAll re_t_cedilla (str "t")
   (replaceAll re_s_cedilla (str "s")
   (replaceAll re_combining []
   (normalizeNFD (toLowerCase s)))))).

(** A text cut at the code units that are no word characters (a word
    character is one of A-Z, a-z, 0-9 and _): the run of word characters
    before each of them, which is empty where two of them meet, and the
    run at the end of the text. *)
Fixpoint tokens (s : jsstring) : list (jsstring * N) * jsstring :=
  match s with
  | [] => ([], [])
  | c :: s' =>
      let t := tokens s' in
      if isWordChar c then
        match fst t with
        | [] => ([], c :: snd t)
        | (w, d) :: ps => ((c :: w, d) :: ps, snd t)
        end
      else (([], c) :: fst t, snd t)
  end.

Definition untokens (t : list (jsstring * N) * jsstring) : jsstring :=
  flat_map (fun p => fst p ++ [snd p]) (fst t) ++ snd t.

Definition onWord (f : jsstring -> jsstring) (w : jsstring) : jsstring :=
  match w with [] => [] | _ => f w end.

Definition onWords (f : jsstring -> jsstring) (t : list (jsstring * N) * jsstring)
  : list (jsstring * N) * jsstring :=
  (List.map (fun p => (onWord f (fst p), snd p)) (fst t), onWord f (snd t)).

(** [mapWords f s]: every maximal run of word characters of [s] is
    replaced by its image under [f]; the other code units are kept. *)
Definition mapWords (f : jsstring -> jsstring) (s : jsstring) : jsstring :=
  untokens (onWords f (tokens s)).

(** Runs of word characters between code units that are none. *)
Definition wordTokens (t : list (jsstring * N) * jsstring) : Prop :=
  Forall (fun p => forallb isWordChar (fst p) = true /\ isWordChar (snd p) = false)
         (fst t)
  /\ forallb isWordChar (snd t) = true.

(** The company code as section 4.2 words it, for comparison with
    [isValidCIF]: a leading "RO", in any casing, is removed if present;
    what is left is 1 to 10 digits, the last of which is the control
    digit of the digits before it. *)
Definition stripLeadingRO (v : jsstring) : jsstring :=
  match v with
  | x :: y :: rest => if isR x && isO y then rest else v
  | _ => v
  end.

Definition isValidCompanyCode (v : jsstring) : bool :=
  let code := stripLeadingRO v in
  match code with
  | [] => false
  | _ =>
      forallb isDigit code && Nat.leb (List.length code) 10
      && Z.eqb (digitValue (last code 0%N))
               (cifControlDigit (List.map digitValue (removelast code)))
  end.

(** The personal code as section 4.2 words it, for comparison with
    [isValidCNP]. *)
Definition isValidPersonalCode (v : jsstring) : Prop :=
  thirteenDigits v /\ (v = str "0000000000000" \/ checksumAndFirstDigit v).

End Notions.

(* ================================================================== *)
(** * Properties *)
(* ================================================================== *)

Import JS Regex Validators Address Invoice Tax Spec Notions.

(** ** Strings and the matcher *)

Lemma eqb_eq (a b : jsstring) : JS.eqb a b = true <-> a = b.
Proof.
  revert b; induction a as [|x a IH]; intros [|y b]; simpl;
    try (split; [discriminate | discriminate]); try tauto.
  rewrite andb_true_iff, N.eqb_eq, IH.
  split; [intros [-> ->]; reflexivity | intros H; inversion H; auto].
Qed.

Lemma eqb_neq (a b : jsstring) : JS.eqb a b = false <-> a <> b.
Proof.
  rewrite <- eqb_eq. destruct (JS.eqb a b); split; congruence.
Qed.

(** A pattern that begins with [^] matches nowhere after index 0. *)
Lemma execFrom_anchored (r : regex) (s : jsstring) (c : N) :
  execFrom (Seq Start r) (Some c) s = None.
Proof.
  revert c; induction s as [|x s IH]; intros c; simpl.
  - reflexivity.
  - rewrite IH. reflexivity.
Qed.

Lemma exactly_spec (p : N -> bool) (n : nat) (s : jsstring) :
  exactly p n s = true <-> List.length s = n /\ Forall (fun c => p c = true) s.
Proof.
  revert s; induction n as [|n IH]; intros [|c s]; simpl.
  - split; auto.
  - split; [discriminate | intros [H _]; discriminate].
  - split; [discriminate | intros [H _]; discriminate].
  - rewrite andb_true_iff, IH. split.
    + intros [Hc [Hl Hf]]. split; [congruence | constructor; assumption].
    + intros [Hl Hf]. inversion Hf; subst. repeat split; auto.
Qed.

Lemma run_times_end (p : N -> bool) (n : nat) :
  forall prev s m,
    run (Times n (Class p)) (run End_ (fun _ _ k caps => Some (k, caps)))
        prev s m ([] : list jsstring)
    = if exactly p n s then Some ((n + m)%nat, []) else None.
Proof.
  induction n as [|n IH]; intros prev [|c s] m; simpl; try reflexivity.
  destruct (p c); simpl; [|reflexivity].
  rewrite IH. rewrite Nat.add_succ_r. reflexivity.
Qed.

(** [/^\d{13}$/.test(code)] *)
Lemma test_re_cnp (code : jsstring) :
  test re_cnp code = exactly isDigit 13 code.
Proof.
  unfold test, exec, re_cnp.
  destruct code as [|c s].
  - reflexivity.
  - unfold execFrom; fold execFrom. unfold matchHere.
    change (run (Seq Start (Seq (Times 13 (Class isDigit)) End_))
              (fun _ _ n caps => Some (n, caps)) None (c :: s) 0%nat [])
      with (run (Times 13 (Class isDigit))
              (run End_ (fun _ _ n caps => Some (n, caps))) None (c :: s) 0%nat []).
    rewrite run_times_end.
    destruct (exactly isDigit 13 (c :: s)); [reflexivity|].
    change (Seq Start (Seq (Times 13 (Class isDigit)) End_))
      with (Seq Start (Seq (Times 13 (Class isDigit)) End_)).
    rewrite execFrom_anchored. reflexivity.
Qed.

(** ** Personal numeric code (CNP) *)

Lemma isDigit_value (c : N) :
  isDigit c = true -> (0 <= digitValue c <= 9)%Z.
Proof.
  unfold isDigit, inRange, digitValue. rewrite andb_true_iff, !N.leb_le. lia.
Qed.

Lemma existsb_sex (d : Z) :
  existsb (strictEq (Int d))
    [Int 1; Int 2; Int 3; Int 4; Int 5; Int 6; Int 7; Int 8; Int 9] = true
  <-> (1 <= d <= 9)%Z.
Proof.
  cbn [existsb strictEq]. rewrite !orb_true_iff, !Z.eqb_eq. lia.
Qed.

Lemma cnp_decision (first last r : Z) :
  (if negb (strictEq (Int last)
              (if strictEq (Int r) (Int 10) then Int 1 else Int r))
   then false
   else if negb (existsb (strictEq (Int first))
                   [Int 1; Int 2; Int 3; Int 4; Int 5; Int 6; Int 7; Int 8; Int 9])
        then false else true)
  = Z.eqb last (if Z.eqb r 10 then 1 else r)
    && (Z.leb 1 first && Z.leb first 9).
Proof.
  assert (E : existsb (strictEq (Int first))
                [Int 1; Int 2; Int 3; Int 4; Int 5; Int 6; Int 7; Int 8; Int 9]
              = (Z.leb 1 first && Z.leb first 9)).
  { apply eq_true_iff_eq. rewrite existsb_sex, andb_true_iff, !Z.leb_le. tauto. }
  rewrite E. cbn [strictEq].
  destruct (Z.eqb r 10); cbn [strictEq];
    destruct (Z.eqb last _); cbn [negb andb]; try reflexivity;
    destruct (Z.leb 1 first && Z.leb first 9); reflexivity.
Qed.

(** [isValidCNP] on a string of 13 digits, in terms of the digit values. *)
Lemma isValidCNP_13 (s : jsstring) :
  thirteenDigits s ->
  isValidCNP s =
    if JS.eqb s (str "0000000000000") then true
    else
      let digits := List.map digitValue s in
      Z.eqb (nth 12 digits 0%Z) (expectedCheckDigit digits)
      && (Z.leb 1 (nth 0 digits 0%Z) && Z.leb (nth 0 digits 0%Z) 9).
Proof.
  intros [Hlen Hall].
  unfold isValidCNP. rewrite test_re_cnp.
  assert (Hex : exactly isDigit 13 s = true) by (apply exactly_spec; auto).
  rewrite Hex. cbn [negb].
  destruct (JS.eqb s (str "0000000000000")); [reflexivity|].
  do 13 (destruct s as [|? s]; [discriminate Hlen|]).
  destruct s; [|discriminate Hlen]. clear Hlen Hex.
  repeat match goal with
         | H : Forall _ (_ :: _) |- _ => inversion H; subst; clear H
         end.
  unfold cnpSum. cbn [seq fold_left List.map nth].
  repeat match goal with
         | |- context [parseIntAt controlKey ?i] =>
             let v := eval vm_compute in (parseIntAt controlKey i) in
             change (parseIntAt controlKey i) with v
         end.
  unfold parseIntAt. cbn [nth_error].
  repeat match goal with
         | H : isDigit ?c = true |- _ =>
             rewrite H; apply isDigit_value in H
         end.
  repeat match goal with
         | |- context [(Z.of_N ?c - 48)%Z] =>
             change (Z.of_N c - 48)%Z with (digitValue c)
         end.
  cbn [add mul rem].
  change (11 =? 0)%Z with false. cbv iota.
  unfold expectedCheckDigit. cbn [weightedSum cnpKey].
  repeat match goal with
         | H : (0 <= digitValue ?c <= 9)%Z |- _ =>
             generalize dependent (digitValue c); clear c; intros
         end.
  match goal with
  | |- context [Z.rem ?a 11] =>
      rewrite (Z.rem_mod_nonneg a 11) by lia;
      match goal with
      | |- context [Z.eqb (?b mod 11) 10] =>
          replace b with a by lia
      end
  end.
  apply cnp_decision.
Qed.

(** C4.  For every string of 13 digits, [isValidCNP] holds exactly when the
    string is thirteen zeros, or the weighted sum of the first 12 digits
    with the key 2 7 9 1 4 6 3 5 8 2 7 9, taken mod 11 with 10 mapped to 1,
    equals the 13th digit and the first digit is in 1-9; every string that
    is not made of exactly 13 digits is refused. *)
Theorem isValidCNP_checksum (s : jsstring) :
  (thirteenDigits s ->
     (isValidCNP s = true <->
      s = str "0000000000000" \/ checksumAndFirstDigit s))
  /\ (~ thirteenDigits s -> isValidCNP s = false).
Proof.
  split.
  - intros H13. rewrite (isValidCNP_13 H13).
    destruct (JS.eqb s (str "0000000000000")) eqn:E.
    + apply eqb_eq in E. tauto.
    + apply eqb_neq in E. cbv zeta. unfold checksumAndFirstDigit.
      rewrite !andb_true_iff, Z.eqb_eq, !Z.leb_le. tauto.
  - intros Hn. unfold isValidCNP. rewrite test_re_cnp.
    destruct (exactly isDigit 13 s) eqn:E; [|reflexivity].
    exfalso. apply Hn. apply exactly_spec. exact E.
Qed.

Lemma isValidCNP_checksum_witness :
  isValidCNP (str "1960101123456") = true /\ isValidCNP (str "160796") = false.
Proof.
  split.
  - apply (proj1 (isValidCNP_checksum (str "1960101123456"))).
    + split; [reflexivity | repeat constructor].
    + right. split; vm_compute; [reflexivity | split; discriminate].
  - apply (proj2 (isValidCNP_checksum (str "160796"))).
    intros [H _]. discriminate H.
Defined.

(** ** Company tax code (CIF) and VAT number normalisation *)

Lemma padTo9_total (fuel : nat) :
  forall code,
    (List.length code <= 9)%nat -> (9 - List.length code <= fuel)%nat ->
    exists code', padTo9 fuel code = Some code'.
Proof.
  induction fuel as [|fuel IH]; intros code Hle Hfuel; simpl.
  - replace (List.length code) with 9%nat by lia. simpl. eauto.
  - destruct (Nat.eqb_spec (List.length code) 9); [eauto|].
    apply IH; cbn [List.length]; lia.
Qed.

Lemma sliceInit_length (s : jsstring) :
  List.length (sliceInit s) = Nat.pred (List.length s).
Proof.
  unfold sliceInit. induction s as [|c s IH]; simpl; [reflexivity|].
  destruct s; simpl in *; [reflexivity | rewrite IH; reflexivity].
Qed.

(** The padding loop of [isValidCIF] always ends: the check returns. *)
Lemma cifCheck_returns (code : jsstring) : exists b, cifCheck code = Ok b.
Proof.
  unfold cifCheck.
  destruct (isNaN_Number code); [eauto|].
  destruct (Nat.ltb_spec 10 (List.length code)); [eauto|].
  destruct (@padTo9_total 9 (sliceInit code)) as [code' E].
  - rewrite sliceInit_length. lia.
  - lia.
  - rewrite E. eauto.
Qed.

Lemma isValidCIF_nonempty (v : jsstring) :
  v <> [] -> isValidCIF v = cifCheck (replaceFirst re_ro [] v).
Proof.
  destruct v; [congruence | reflexivity].
Qed.

(** On a non-empty input nothing throws and the loop ends. *)
Lemma normalizeVatNumber_returns (v : jsstring) :
  v <> [] ->
  exists valid stripped,
    isValidCIF v = Ok valid
    /\ stripTaxIdPrefix v = Ok stripped
    /\ normalizeVatNumber v =
         Ok (if isValidCNP v then v
             else if valid then str "RO" ++ stripped
             else v).
Proof.
  intros Hv. destruct (cifCheck_returns (replaceFirst re_ro [] v)) as [b Hb].
  exists b, (replaceFirst re_ro [] v).
  rewrite (isValidCIF_nonempty Hv), Hb.
  destruct v as [|c v]; [congruence|].
  split; [reflexivity|]. split; [reflexivity|].
  unfold normalizeVatNumber.
  destruct (isValidCNP (c :: v)); [reflexivity|].
  rewrite (isValidCIF_nonempty Hv), Hb. cbn [bind].
  destruct b; reflexivity.
Qed.

Lemma isValidCNP_RO (s : jsstring) : isValidCNP (str "RO" ++ s) = false.
Proof.
  unfold isValidCNP. rewrite test_re_cnp. reflexivity.
Qed.

Lemma replaceFirst_RO (s : jsstring) : replaceFirst re_ro [] (str "RO" ++ s) = s.
Proof. reflexivity. Qed.

(** C10.  [normalizeVatNumber] is idempotent on non-empty input: what it
    returns is returned unchanged when normalised again. *)
Theorem normalizeVatNumber_idempotent (v : jsstring) :
  v <> [] ->
  (w <- normalizeVatNumber v ;; normalizeVatNumber w) = normalizeVatNumber v.
Proof.
  intros Hv.
  destruct (normalizeVatNumber_returns Hv)
    as (valid & stripped & Hvalid & Hstrip & Hn).
  rewrite Hn. cbn [bind].
  destruct (isValidCNP v) eqn:Ecnp; [exact Hn|].
  destruct valid; [|rewrite Hn; reflexivity].
  rewrite (isValidCIF_nonempty Hv) in Hvalid.
  assert (Es : stripped = replaceFirst re_ro [] v).
  { destruct v; [congruence|]. simpl in Hstrip. congruence. }
  subst stripped.
  change (normalizeVatNumber (str "RO" ++ replaceFirst re_ro [] v))
    with (if isValidCNP (str "RO" ++ replaceFirst re_ro [] v)
          then Ok (str "RO" ++ replaceFirst re_ro [] v)
          else
            valid <- isValidCIF (str "RO" ++ replaceFirst re_ro [] v) ;;
            if (valid : bool) then
              stripped <- stripTaxIdPrefix (str "RO" ++ replaceFirst re_ro [] v) ;;
              Ok (str "RO" ++ stripped)
            else Ok (str "RO" ++ replaceFirst re_ro [] v)).
  rewrite isValidCNP_RO.
  rewrite isValidCIF_nonempty by discriminate.
  rewrite replaceFirst_RO, Hvalid. cbn [bind].
  change (stripTaxIdPrefix (str "RO" ++ replaceFirst re_ro [] v))
    with (Ok (A:=jsstring)
            (replaceFirst re_ro [] (str "RO" ++ replaceFirst re_ro [] v))).
  rewrite replaceFirst_RO. reflexivity.
Qed.

Lemma normalizeVatNumber_idempotent_witness :
  (w <- normalizeVatNumber (str "ro160796") ;; normalizeVatNumber w)
  = Ok (str "RO160796").
Proof.
  rewrite (@normalizeVatNumber_idempotent (str "ro160796")).
  - reflexivity.
  - discriminate.
Defined.

(** C3.  [isValidCIF] accepts strings that are not a run of digits after a
    leading "RO": the pattern [/ro/i] is removed wherever it first occurs,
    and [isNaN(Number(code))] lets trailing white space and the empty
    string through. *)
Theorem isValidCIF_accepts_non_numeric :
  isValidCIF (str "16RO0796") = Ok true
  /\ isValidCIF (str "31 ") = Ok true
  /\ isValidCIF (str "RO") = Ok true
  /\ isValidCIF (str "160796") = Ok true
  /\ isValidCIF (str "RO160796") = Ok true
  /\ isValidCIF (str "ro160796") = Ok true
  /\ isValidCIF (str "12345678901") = Ok false.
Proof. repeat split; vm_compute; reflexivity. Qed.

(** ** Address sanitizer *)

Lemma strictEqOpt_eq (a b : option jsstring) : strictEqOpt a b = true <-> a = b.
Proof.
  destruct a as [x|], b as [y|]; simpl; try (split; congruence).
  rewrite eqb_eq. split; congruence.
Qed.

(** C7.  [sanitizeBucharestSector] gives SECTOR3 for "Sector 3",
    "sectorul 3", "S3", "sector-3" and "sector.03", and nothing for
    "sector 7" and "sector 0"; the sector may stand anywhere in the text. *)
Theorem sanitizeBucharestSector_examples :
  sanitizeBucharestSector (Some (str "Sector 3")) = Some (str "SECTOR3")
  /\ sanitizeBucharestSector (Some (str "sectorul 3")) = Some (str "SECTOR3")
  /\ sanitizeBucharestSector (Some (str "S3")) = Some (str "SECTOR3")
  /\ sanitizeBucharestSector (Some (str "sector-3")) = Some (str "SECTOR3")
  /\ sanitizeBucharestSector (Some (str "sector.03")) = Some (str "SECTOR3")
  /\ sanitizeBucharestSector (Some (str "sector 7")) = None
  /\ sanitizeBucharestSector (Some (str "sector 0")) = None
  /\ sanitizeBucharestSector (Some (str "Mun. Bucuresti, Sector 3, et. 2"))
     = Some (str "SECTOR3").
Proof. repeat split; vm_compute; reflexivity. Qed.

(** C9.  [isInternalInvoice] holds exactly when the country name and the
    default country name have the same normalised form; when the default
    country name normalises to "romania", "Romania" and "romania" written
    with a-circumflex (U+00E2) are internal and "Germany" is not. *)
Theorem isInternalInvoice_iff (DEFAULT_COUNTRY : jsstring) :
  (forall countryName,
      isInternalInvoice DEFAULT_COUNTRY countryName = true
      <-> normalizeInput (Some countryName) = normalizeInput (Some DEFAULT_COUNTRY))
  /\ (normalizeInput (Some DEFAULT_COUNTRY) = Some (str "romania") ->
      isInternalInvoice DEFAULT_COUNTRY (str "Romania") = true
      /\ isInternalInvoice DEFAULT_COUNTRY (str "rom" ++ [226%N] ++ str "nia") = true
      /\ isInternalInvoice DEFAULT_COUNTRY (str "Germany") = false).
Proof.
  split.
  - intros countryName. unfold isInternalInvoice. apply strictEqOpt_eq.
  - intros Hd. unfold isInternalInvoice. rewrite Hd.
    repeat split; vm_compute; reflexivity.
Qed.

Lemma isInternalInvoice_iff_witness :
  isInternalInvoice (str "Romania") (str "Romania") = true
  /\ isInternalInvoice (str "Romania") (str "rom" ++ [226%N] ++ str "nia") = true
  /\ isInternalInvoice (str "Romania") (str "Germany") = false.
Proof.
  apply (proj2 (isInternalInvoice_iff (str "Romania"))).
  vm_compute. reflexivity.
Defined.

(** C6, as stated, fails on both of its examples: a bare "s" is not
    expanded by [normalizeInput], and neither is "jud". *)
Lemma normalizeInput_bare_s :
  (normalizeInput (Some (str "s 3")) = Some (str "s 3")
   /\ normalizeInput (Some (str "s 3")) <> Some (str "sectorul 3"))
  /\ (normalizeInput (Some (str "jud. cluj")) = Some (str "jud cluj")
      /\ normalizeInput (Some (str "jud. cluj")) <> Some (str "judetul cluj")).
Proof. repeat split; vm_compute; try reflexivity; discriminate. Qed.

(** ** Structural validator *)

Lemma nth_error_middle {A} (pre : list A) (x : A) (post : list A) :
  nth_error (pre ++ x :: post) (List.length pre) = Some x.
Proof. induction pre; simpl; auto. Qed.

Lemma validateLines_find (input : InvoiceInput) (ls : list InvoiceLine) :
  forall pre,
    lines input = Some (pre ++ ls) ->
    validateLines (List.length pre) ls
    = outcome (find (fun c => negb (holds c input))
                    (lineChecksFrom (List.length pre) (List.length ls))).
Proof.
  induction ls as [|line ls IH]; intros pre Hl.
  - reflexivity.
  - unfold lineChecksFrom. cbn [List.length seq flat_map List.map app find].
    unfold holds at 1 2 3 4. rewrite Hl. cbn [opt].
    rewrite nth_error_middle. cbn [lineHolds validateLines].
    destruct (nonBlank (name line)); cbn [require bind negb]; [|reflexivity].
    destruct (isNumber (quantity line)); cbn [require bind negb]; [|reflexivity].
    destruct (nonNegative (unitPrice line)); cbn [require bind negb]; [|reflexivity].
    destruct (percentInRange (taxPercent line)); cbn [require bind negb]; [|reflexivity].
    specialize (IH (pre ++ [line])).
    rewrite length_app in IH. cbn [List.length] in IH.
    rewrite Nat.add_1_r in IH.
    apply IH. rewrite <- app_assoc. exact Hl.
Qed.

(** The validator reports the first documented check that fails. *)
Lemma validate_firstFailure (input : InvoiceInput) :
  validate input = outcome (firstFailure input).
Proof.
  unfold validate, firstFailure, checksInOrder.
  destruct input as [num date sup cust ls].
  cbn [invoiceNumber issueDate supplier customer lines app find holds opt isSome].
  destruct (nonBlank num); cbn [require present bind negb]; [|reflexivity].
  destruct date; cbn [require present bind negb isSome]; [|reflexivity].
  destruct sup as [[sname sid svat saddr]|];
    cbn [require present bind negb isSome opt registrationName companyId address];
    [|reflexivity].
  destruct (nonBlank sname); cbn [require present bind negb]; [|reflexivity].
  destruct (nonBlank sid); cbn [require present bind negb]; [|reflexivity].
  destruct saddr as [[st ci co pz cn]|];
    cbn [require present bind negb isSome opt street city postalZone];
    [|reflexivity].
  destruct (nonBlank st); cbn [require present bind negb]; [|reflexivity].
  destruct (nonBlank ci); cbn [require present bind negb]; [|reflexivity].
  destruct (nonBlank pz); cbn [require present bind negb]; [|reflexivity].
  destruct cust as [[cname cid cvat caddr]|];
    cbn [require present bind negb isSome opt registrationName];
    [|reflexivity].
  destruct (nonBlank cname); cbn [require present bind negb]; [|reflexivity].
  destruct ls as [ls|]; cbn [require present bind negb isSome]; [|reflexivity].
  apply (@validateLines_find _ ls []). reflexivity.
Qed.

Lemma validateLines_ok_cons (k : nat) (line : InvoiceLine) (ls : list InvoiceLine) :
  validateLines k (line :: ls) = Ok tt ->
  nonBlank (name line) = true /\ isNumber (quantity line) = true
  /\ nonNegative (unitPrice line) = true /\ percentInRange (taxPercent line) = true
  /\ validateLines (S k) ls = Ok tt.
Proof.
  cbn [validateLines].
  destruct (nonBlank (name line)); cbn [require bind]; [|discriminate].
  destruct (isNumber (quantity line)); cbn [require bind]; [|discriminate].
  destruct (nonNegative (unitPrice line)); cbn [require bind]; [|discriminate].
  destruct (percentInRange (taxPercent line)); cbn [require bind]; [|discriminate].
  auto.
Qed.

Lemma validateLines_cons_failure (k : nat) (line : InvoiceLine) (ls : list InvoiceLine)
    (c : LineCheck) :
  firstLineFailure line = Some c ->
  validateLines k (line :: ls) = Throw AnafValidationError (lineMessage k (lineText c)).
Proof.
  unfold firstLineFailure. cbn [find lineHolds validateLines].
  destruct (nonBlank (name line)); cbn [require bind negb];
    [|intros H; injection H as <-; reflexivity].
  destruct (isNumber (quantity line)); cbn [require bind negb];
    [|intros H; injection H as <-; reflexivity].
  destruct (nonNegative (unitPrice line)); cbn [require bind negb];
    [|intros H; injection H as <-; reflexivity].
  destruct (percentInRange (taxPercent line)); cbn [require bind negb];
    [discriminate|intros H; injection H as <-; reflexivity].
Qed.

(** Breaking one line of a valid list: the error names that line. *)
Lemma validateLines_updateAt (f : InvoiceLine -> InvoiceLine) (c : LineCheck) :
  (forall line,
      nonBlank (name line) = true -> isNumber (quantity line) = true ->
      nonNegative (unitPrice line) = true -> percentInRange (taxPercent line) = true ->
      firstLineFailure (f line) = Some c) ->
  forall ls k i,
    validateLines k ls = Ok tt -> (i < List.length ls)%nat ->
    validateLines k (updateAt i f ls)
    = Throw AnafValidationError (lineMessage (k + i) (lineText c)).
Proof.
  intros Hf. induction ls as [|line ls IH]; intros k i Hok Hi.
  - simpl in Hi. lia.
  - apply validateLines_ok_cons in Hok. destruct Hok as (H1 & H2 & H3 & H4 & Hrest).
    destruct i as [|i]; cbn [updateAt].
    + rewrite Nat.add_0_r. apply validateLines_cons_failure. auto.
    + cbn [validateLines]. rewrite H1, H2, H3, H4. cbn [require bind].
      rewrite Nat.add_succ_r. apply (IH (S k) i Hrest).
      simpl in Hi. lia.
Qed.

Lemma validate_mutate (input : InvoiceInput) (m : Mutation) :
  validate input = Ok tt -> breaks m input = true ->
  validate (mutate m input) = Throw AnafValidationError (expectedMessage m).
Proof.
  unfold validate.
  destruct input as [num date sup cust ls].
  cbn [invoiceNumber issueDate supplier customer lines].
  destruct (nonBlank num) eqn:E1; cbn [require present bind]; [|discriminate].
  destruct date as [date|]; cbn [require present bind]; [|discriminate].
  destruct sup as [[sname sid svat saddr]|];
    cbn [require present bind registrationName companyId address]; [|discriminate].
  destruct (nonBlank sname) eqn:E2; cbn [require present bind]; [|discriminate].
  destruct (nonBlank sid) eqn:E3; cbn [require present bind]; [|discriminate].
  destruct saddr as [[st ci co pz cn]|];
    cbn [require present bind street city postalZone]; [|discriminate].
  destruct (nonBlank st) eqn:E4; cbn [require present bind]; [|discriminate].
  destruct (nonBlank ci) eqn:E5; cbn [require present bind]; [|discriminate].
  destruct (nonBlank pz) eqn:E6; cbn [require present bind]; [|discriminate].
  destruct cust as [[cname cid cvat caddr]|];
    cbn [require present bind registrationName]; [|discriminate].
  destruct (nonBlank cname) eqn:E7; cbn [require present bind]; [|discriminate].
  destruct ls as [ls|]; cbn [require present bind]; [|discriminate].
  intros Hls Hb.
  destruct m;
    cbn [breaks lineCount lines] in Hb;
    repeat match goal with
           | H : (_ && _)%bool = true |- _ => apply andb_prop in H; destruct H
           | H : negb _ = true |- _ => apply negb_true_iff in H
           | H : Nat.ltb _ _ = true |- _ => apply Nat.ltb_lt in H
           end;
    repeat (progress
      (cbn [mutate expectedMessage onSupplier onCustomer onAddress
            onLine option_map invoiceNumber issueDate supplier customer lines
            registrationName companyId isVatPayer address street city county
            postalZone country require present bind];
       rewrite ?E1, ?E2, ?E3, ?E4, ?E5, ?E6, ?E7;
       try match goal with
           | H : nonBlank ?b = false |- context [nonBlank ?b] => rewrite H
           end));
    try reflexivity.
  - apply (@validateLines_updateAt _ LName); auto.
    intros line _ _ _ _. unfold firstLineFailure.
    cbn [find lineHolds name negb].
    match goal with H : nonBlank blank = false |- _ => rewrite H end. reflexivity.
  - apply (@validateLines_updateAt _ LQuantity); auto.
    intros line H1 _ _ _. unfold firstLineFailure.
    cbn [find lineHolds name quantity negb isNumber]. rewrite H1. reflexivity.
  - apply (@validateLines_updateAt _ LUnitPrice); auto.
    intros line H1 H2 _ _. unfold firstLineFailure.
    cbn [find lineHolds name quantity unitPrice negb nonNegative]. rewrite H1, H2.
    match goal with H : Qle_bool 0 price = false |- _ => rewrite H end. reflexivity.
  - apply (@validateLines_updateAt _ LTaxPercent); auto.
    intros line H1 H2 H3 _. unfold firstLineFailure.
    cbn [find lineHolds name quantity unitPrice taxPercent negb percentInRange].
    rewrite H1, H2, H3.
    match goal with H : (Qle_bool 0 percent && _)%bool = false |- _ => rewrite H end.
    reflexivity.
Qed.

Lemma unorm_to_uint (n : nat) : Decimal.unorm (Nat.to_uint n) = Nat.to_uint n.
Proof.
  rewrite <- (DecimalNat.Unsigned.to_of (Nat.to_uint n)).
  rewrite DecimalNat.Unsigned.of_to. reflexivity.
Qed.

(** The message of the validator carries the number of the line, counted
    from 1. *)
Lemma lineMessage_numbered (index : nat) (text : string) :
  lineNumbered index text (lineMessage index text).
Proof.
  exists (Nat.to_uint (S index)).
  split; [apply DecimalNat.Unsigned.of_to|].
  split; [apply unorm_to_uint | reflexivity].
Qed.

(** No other message is numbered that way. *)
Lemma lineNumbered_reads (index : nat) (text message : string) :
  lineNumbered index text message ->
  message = ("Line " ++ NilEmpty.string_of_uint (Nat.to_uint (S index))
             ++ ": " ++ text)%string.
Proof.
  intros [d [Hv [Hn ->]]].
  rewrite <- Hv, DecimalNat.Unsigned.to_of, Hn. reflexivity.
Qed.

Lemma documented_messageOf (c : Check) : documented c (messageOf c).
Proof.
  destruct c as [| | | | | | | | | | | |index []]; try reflexivity;
    apply lineMessage_numbered.
Qed.

Lemma expectedMessage_checkOf (m : Mutation) :
  expectedMessage m = messageOf (checkOf m).
Proof. destruct m; reflexivity. Qed.




(** ** Tax aggregator *)

(** [round2] gives the nearest number of cents, a tie going away from zero. *)
Lemma round2_half_away (x : Q) :
  (0 <= x ->
     inject_Z (round2 x) <= x * 100 + (1 # 2)
     /\ x * 100 + (1 # 2) < inject_Z (round2 x) + 1)%Q
  /\ (x < 0 ->
     x * 100 - (1 # 2) <= inject_Z (round2 x)
     /\ inject_Z (round2 x) - 1 < x * 100 - (1 # 2))%Q.
Proof.
  unfold round2. split; intros Hx.
  - apply Qle_bool_iff in Hx. rewrite Hx.
    split; [apply Qfloor_le|].
    pose proof (Qlt_floor (x * 100 + (1 # 2))) as H.
    rewrite inject_Z_plus in H. exact H.
  - assert (E : Qle_bool 0 x = false).
    { apply not_true_is_false. intros H. apply Qle_bool_iff in H.
      apply (Qlt_not_le _ _ Hx H). }
    rewrite E. rewrite inject_Z_opp.
    pose proof (Qfloor_le (- x * 100 + (1 # 2))) as H1.
    pose proof (Qlt_floor (- x * 100 + (1 # 2))) as H2.
    rewrite inject_Z_plus in H2.
    set (f := inject_Z (Qfloor (- x * 100 + (1 # 2)))) in *.
    split.
    + apply Qle_minus_iff. apply Qle_minus_iff in H1.
      setoid_replace (- f + - (x * 100 - (1 # 2)))%Q
        with (- x * 100 + (1 # 2) + - f)%Q by ring.
      exact H1.
    + apply Qlt_minus_iff. apply Qlt_minus_iff in H2.
      setoid_replace (x * 100 - (1 # 2) + - (- f - 1))%Q
        with (f + inject_Z 1 + - (- x * 100 + (1 # 2)))%Q by (simpl; ring).
      exact H2.
Qed.

Lemma sumZ_addToGroups (key : TaxCategory * Q) (amount : Z) (groups : list TaxGroup) :
  sumZ (List.map taxableAmount (addToGroups key amount groups))
  = (sumZ (List.map taxableAmount groups) + amount)%Z.
Proof.
  induction groups as [|g gs IH]; cbn [addToGroups].
  - cbn. lia.
  - destruct (sameKey g key); cbn [List.map sumZ fold_right taxableAmount].
    + fold (sumZ (List.map taxableAmount gs)). lia.
    + fold (sumZ (List.map taxableAmount (addToGroups key amount gs))).
      fold (sumZ (List.map taxableAmount gs)). rewrite IH. lia.
Qed.

(** The taxable total is the sum of the line amounts. *)
Lemma groupTaxes_taxable (lineAmount : InvoiceLine -> Z) (vat : bool)
    (ls : list InvoiceLine) :
  sumZ (List.map taxableAmount (groupTaxes lineAmount vat ls))
  = sumZ (List.map lineAmount ls).
Proof.
  unfold groupTaxes.
  assert (H : forall groups,
             sumZ (List.map taxableAmount
                     (fold_left (fun groups line =>
                                   addToGroups (categoryOf vat line) (lineAmount line) groups)
                                ls groups))
             = (sumZ (List.map taxableAmount groups) + sumZ (List.map lineAmount ls))%Z).
  { induction ls as [|line ls IH]; intros groups; cbn [fold_left List.map].
    - cbn. lia.
    - rewrite IH, sumZ_addToGroups. cbn [sumZ fold_right].
      fold (sumZ (List.map lineAmount ls)). lia. }
  rewrite H. reflexivity.
Qed.

(** Keys are compared up to the equality of rationals. *)
Lemma sameCategory_eq (a b : TaxCategory) : sameCategory a b = true <-> a = b.
Proof. destruct a, b; cbn; split; congruence. Qed.

Lemma Qeq_bool_congr (p1 p2 p : Q) :
  (p1 == p2)%Q -> Qeq_bool p1 p = Qeq_bool p2 p.
Proof.
  intros H.
  destruct (Qeq_bool p1 p) eqn:E1, (Qeq_bool p2 p) eqn:E2; try reflexivity; exfalso.
  - apply Qeq_bool_iff in E1. apply Qeq_bool_neq in E2. apply E2.
    rewrite <- H. exact E1.
  - apply Qeq_bool_iff in E2. apply Qeq_bool_neq in E1. apply E1.
    rewrite H. exact E2.
Qed.

Lemma keyEq_refl (k : TaxCategory * Q) : keyEq k k = true.
Proof.
  unfold keyEq. rewrite (proj2 (sameCategory_eq _ _) eq_refl).
  apply Qeq_bool_iff. reflexivity.
Qed.

Lemma keyEq_congr (k1 k2 k : TaxCategory * Q) :
  keyEq k1 k2 = true -> keyEq k1 k = keyEq k2 k.
Proof.
  unfold keyEq. intros H. apply andb_prop in H. destruct H as [Hc Hp].
  apply sameCategory_eq in Hc. apply Qeq_bool_iff in Hp.
  rewrite Hc, (@Qeq_bool_congr _ _ (snd k) Hp). reflexivity.
Qed.

Lemma keyEq_sym (k1 k2 : TaxCategory * Q) : keyEq k1 k2 = keyEq k2 k1.
Proof.
  destruct (keyEq k1 k2) eqn:E.
  - rewrite <- (@keyEq_congr k1 k2 k1 E). symmetry. apply keyEq_refl.
  - destruct (keyEq k2 k1) eqn:E'; [|reflexivity].
    rewrite <- (@keyEq_congr k2 k1 k2 E'), keyEq_refl in E. discriminate.
Qed.

(** Adding an amount under a key changes what is held under that key, and
    under no other. *)
Lemma taxableOf_addToGroups (key key' : TaxCategory * Q) (amount : Z)
    (groups : list TaxGroup) :
  taxableOf key' (addToGroups key amount groups)
  = (taxableOf key' groups + if keyEq key key' then amount else 0)%Z.
Proof.
  unfold taxableOf. induction groups as [|g gs IH]; cbn [addToGroups].
  - cbn [filter].
    change (groupKey (mkGroup (fst key) (snd key) amount)) with (fst key, snd key).
    replace (fst key, snd key) with key by (destruct key; reflexivity).
    destruct (keyEq key key'); cbn; lia.
  - unfold sameKey. destruct (keyEq (groupKey g) key) eqn:E; cbn [filter].
    + change (groupKey (mkGroup (groupCategory g) (groupPercent g)
                                (taxableAmount g + amount)))
        with (groupKey g).
      rewrite <- (@keyEq_congr (groupKey g) key key' E).
      destruct (keyEq (groupKey g) key'); cbn [List.map sumZ fold_right taxableAmount];
        fold (sumZ (List.map taxableAmount
                      (filter (fun g0 => keyEq (groupKey g0) key') gs))); lia.
    + destruct (keyEq (groupKey g) key'); cbn [List.map sumZ fold_right];
        fold (sumZ (List.map taxableAmount
                      (filter (fun g0 => keyEq (groupKey g0) key')
                              (addToGroups key amount gs))));
        fold (sumZ (List.map taxableAmount
                      (filter (fun g0 => keyEq (groupKey g0) key') gs)));
        rewrite IH; lia.
Qed.

Lemma keys_addToGroups (key : TaxCategory * Q) (amount : Z) (groups : list TaxGroup)
    (g' : TaxGroup) :
  In g' (addToGroups key amount groups) ->
  groupKey g' = key \/ exists g, In g groups /\ groupKey g' = groupKey g.
Proof.
  induction groups as [|g gs IH]; cbn [addToGroups].
  - intros [<-|[]]. left. destruct key; reflexivity.
  - destruct (sameKey g key).
    + intros [<-|H]; right.
      * exists g. split; [left; reflexivity | reflexivity].
      * exists g'. split; [right; exact H | reflexivity].
    + intros [<-|H].
      * right. exists g. split; [left; reflexivity | reflexivity].
      * destruct (IH H) as [E|[g0 [Hin E]]]; [left; exact E|].
        right. exists g0. split; [right; exact Hin | exact E].
Qed.

Lemma distinctKeys_addToGroups (key : TaxCategory * Q) (amount : Z)
    (groups : list TaxGroup) :
  distinctKeys groups -> distinctKeys (addToGroups key amount groups).
Proof.
  induction groups as [|g gs IH]; cbn [addToGroups distinctKeys].
  - intros _. split; [intros g' []|exact I].
  - intros [Hg Hgs]. unfold sameKey. destruct (keyEq (groupKey g) key) eqn:E;
      cbn [distinctKeys].
    + split; [exact Hg | exact Hgs].
    + split; [|exact (IH Hgs)].
      intros g' Hin. destruct (@keys_addToGroups key amount gs g' Hin) as [->|[g0 [Hin0 ->]]].
      * exact E.
      * apply Hg. exact Hin0.
Qed.

Lemma taxableOf_distinct (groups : list TaxGroup) (g : TaxGroup) :
  distinctKeys groups -> In g groups ->
  taxableOf (groupKey g) groups = taxableAmount g.
Proof.
  unfold taxableOf. induction groups as [|g0 gs IH]; [intros _ []|].
  cbn [distinctKeys]. intros [Hg Hgs] Hin. cbn [filter].
  destruct (keyEq (groupKey g0) (groupKey g)) eqn:E.
  - destruct Hin as [->|Hin]; [|rewrite (Hg _ Hin) in E; discriminate].
    assert (Hnone : filter (fun g1 => keyEq (groupKey g1) (groupKey g)) gs = []).
    { clear - Hg. induction gs as [|g1 gs IH]; [reflexivity|].
      cbn [filter]. rewrite keyEq_sym, (Hg g1 (or_introl eq_refl)).
      apply IH. intros g' H. apply Hg. right. exact H. }
    rewrite Hnone. cbn. lia.
  - destruct Hin as [->|Hin]; [rewrite keyEq_refl in E; discriminate|].
    apply IH; assumption.
Qed.

(** Grouping keeps one group per key, and under each key the amounts of
    the lines of that key. *)
Lemma groupTaxes_invariant (lineAmount : InvoiceLine -> Z) (vat : bool)
    (ls : list InvoiceLine) :
  distinctKeys (groupTaxes lineAmount vat ls)
  /\ forall key,
      taxableOf key (groupTaxes lineAmount vat ls)
      = sumZ (List.map lineAmount (members vat key ls)).
Proof.
  unfold groupTaxes.
  assert (H : forall groups,
             distinctKeys groups ->
             distinctKeys
               (fold_left (fun groups line =>
                             addToGroups (categoryOf vat line) (lineAmount line) groups)
                          ls groups)
             /\ forall key,
                 taxableOf key
                   (fold_left (fun groups line =>
                                 addToGroups (categoryOf vat line) (lineAmount line) groups)
                              ls groups)
                 = (taxableOf key groups
                    + sumZ (List.map lineAmount (members vat key ls)))%Z).
  { induction ls as [|line ls IH]; intros groups Hd; cbn [fold_left].
    - split; [exact Hd|]. intros key. cbn. lia.
    - destruct (IH _ (@distinctKeys_addToGroups (categoryOf vat line) (lineAmount line) groups Hd))
        as [Hd' Hsum].
      split; [exact Hd'|]. intros key.
      rewrite Hsum, taxableOf_addToGroups. unfold members. cbn [filter].
      destruct (keyEq (categoryOf vat line) key); cbn [List.map sumZ fold_right];
        fold (sumZ (List.map lineAmount
                      (filter (fun line0 => keyEq (categoryOf vat line0) key) ls)));
        lia. }
  destruct (H [] I) as [Hd Hsum]. split; [exact Hd|].
  intros key. rewrite Hsum. reflexivity.
Qed.

(** Each group holds the sum of the amounts of its own lines. *)
Lemma groupTaxes_members (lineAmount : InvoiceLine -> Z) (vat : bool)
    (ls : list InvoiceLine) (g : TaxGroup) :
  In g (groupTaxes lineAmount vat ls) ->
  taxableAmount g = sumZ (List.map lineAmount (members vat (groupKey g) ls)).
Proof.
  intros Hin. destruct (groupTaxes_invariant lineAmount vat ls) as [Hd Hsum].
  rewrite <- (@taxableOf_distinct _ g Hd Hin), Hsum. reflexivity.
Qed.




(** ** The expansions of [normalizeInput], word by word *)

Lemma isLowerAlnum_word (c : N) : isLowerAlnum c = true -> isWordChar c = true.
Proof.
  unfold isLowerAlnum, isWordChar. intros H.
  apply orb_true_iff in H. destruct H as [H|H]; rewrite H;
    rewrite ?orb_true_r; reflexivity.
Qed.

Lemma isLowerAlnum_not_space (c : N) : isLowerAlnum c = true -> isSpace c = false.
Proof.
  unfold isLowerAlnum, isSpace, inRange.
  rewrite orb_true_iff, !andb_true_iff, !N.leb_le. intros H.
  repeat (apply orb_false_iff; split);
    try (apply N.eqb_neq; lia);
    apply andb_false_iff; rewrite !N.leb_gt; lia.
Qed.

Section WordReplace.
Variable r : regex.
Variable words : list string.
Variable to : string.

Hypothesis inner : forall c c' s,
  isWordChar c = true -> isWordChar c' = true -> matchHere r (Some c) (c' :: s) = None.
Hypothesis atSpace : forall prev s, matchHere r prev (32%N :: s) = None.
Hypothesis atEnd : forall prev, matchHere r prev [] = None.
Hypothesis atWord : forall prev w ws,
  isWordOpt prev = false -> isWord w = true ->
  option_map fst (matchHere r prev (w ++ tailWords ws))
  = if inWords words w then Some (List.length w) else None.

(** Code units of a match in progress are dropped. *)
Lemma replaceAllFrom_skip (l t : jsstring) :
  forall prev, exists prev',
    replaceAllFrom r (str to) prev (l ++ t) (List.length l)
    = replaceAllFrom r (str to) prev' t 0.
Proof.
  induction l as [|c l IH]; intros prev.
  - exists prev. reflexivity.
  - destruct (IH (Some c)) as [p Hp]. exists p. exact Hp.
Qed.

(** Inside a word nothing matches. *)
Lemma replaceAllFrom_inner (w t : jsstring) :
  forallb isLowerAlnum w = true ->
  forall c, isWordChar c = true -> exists prev',
    replaceAllFrom r (str to) (Some c) (w ++ t) 0
    = w ++ replaceAllFrom r (str to) prev' t 0.
Proof.
  induction w as [|c' w IH]; intros Hw c Hc.
  - exists (Some c). reflexivity.
  - cbn [forallb] in Hw. apply andb_prop in Hw. destruct Hw as [Hc' Hw].
    apply isLowerAlnum_word in Hc'.
    destruct (IH Hw c' Hc') as [p Hp]. exists p.
    cbn [app replaceAllFrom]. rewrite (inner c c' (w ++ t) Hc Hc'), Hp. reflexivity.
Qed.

(** At the start of a word: the word is replaced or copied. *)
Lemma replaceAllFrom_word (w : jsstring) (ws : list jsstring) (prev : option N) :
  isWordOpt prev = false -> isWord w = true -> exists prev',
    replaceAllFrom r (str to) prev (w ++ tailWords ws) 0
    = expandWord words to w ++ replaceAllFrom r (str to) prev' (tailWords ws) 0.
Proof.
  intros Hp Hw. pose proof (atWord prev w ws Hp Hw) as Hm.
  unfold expandWord.
  destruct w as [|c w]; [discriminate Hw|].
  cbn [isWord] in Hw.
  destruct (inWords words (c :: w)).
  - destruct (matchHere r prev ((c :: w) ++ tailWords ws)) as [[n caps]|] eqn:E;
      [|discriminate Hm].
    cbn [option_map fst List.length] in Hm. injection Hm as ->.
    destruct (replaceAllFrom_skip w (tailWords ws) (Some c)) as [p Hp'].
    exists p. cbn [app] in E |- *. cbn [replaceAllFrom]. rewrite E, Hp'. reflexivity.
  - destruct (matchHere r prev ((c :: w) ++ tailWords ws)) as [[n caps]|] eqn:E;
      [discriminate Hm|].
    cbn [forallb] in Hw. apply andb_prop in Hw. destruct Hw as [Hc Hw].
    destruct (replaceAllFrom_inner w (tailWords ws) Hw c (isLowerAlnum_word _ Hc))
      as [p Hp'].
    exists p. cbn [app] in E |- *. cbn [replaceAllFrom]. rewrite E, Hp'. reflexivity.
Qed.

Lemma replaceAllFrom_tailWords (ws : list jsstring) :
  forallb isWord ws = true ->
  forall prev,
    replaceAllFrom r (str to) prev (tailWords ws) 0
    = tailWords (List.map (expandWord words to) ws).
Proof.
  induction ws as [|w ws IH]; intros Hws prev.
  - cbn [tailWords flat_map replaceAllFrom List.map]. rewrite atEnd. reflexivity.
  - cbn [forallb] in Hws. apply andb_prop in Hws. destruct Hws as [Hw Hws].
    cbn [tailWords flat_map List.map]. fold (tailWords ws).
    fold (tailWords (List.map (expandWord words to) ws)).
    cbn [app replaceAllFrom]. rewrite atSpace.
    destruct (@replaceAllFrom_word w ws (Some 32%N) eq_refl Hw) as [p Hp].
    rewrite Hp, (IH Hws). reflexivity.
Qed.

Lemma replaceAll_unwords (ws : list jsstring) :
  forallb isWord ws = true ->
  replaceAll r (str to) (unwords ws) = unwords (List.map (expandWord words to) ws).
Proof.
  intros Hws. unfold replaceAll. destruct ws as [|w ws].
  - cbn [unwords List.map replaceAllFrom]. rewrite atEnd. reflexivity.
  - cbn [forallb] in Hws. apply andb_prop in Hws. destruct Hws as [Hw Hws].
    cbn [unwords List.map].
    destruct (@replaceAllFrom_word w ws None eq_refl Hw) as [p Hp].
    rewrite Hp, (replaceAllFrom_tailWords _ Hws). reflexivity.
Qed.

End WordReplace.

Lemma boundary_inner (r : regex) (c c' : N) (s : jsstring) :
  isWordChar c = true -> isWordChar c' = true ->
  matchHere (Seq WordBoundary r) (Some c) (c' :: s) = None.
Proof.
  intros Hc Hc'. unfold matchHere. cbn [run hd_error isWordOpt].
  rewrite Hc, Hc'. reflexivity.
Qed.

Lemma boundary_first (x : N) (r1 r2 : regex) (prev : option N) (c : N) (s : jsstring) :
  N.eqb x c = false ->
  matchHere (Seq WordBoundary (Seq (Seq (Chr x) r1) r2)) prev (c :: s) = None.
Proof.
  intros Hx. unfold matchHere, Chr. cbn [run]. rewrite Hx.
  destruct (xorb _ _); reflexivity.
Qed.

Lemma boundary_end (x : N) (r1 r2 : regex) (prev : option N) :
  matchHere (Seq WordBoundary (Seq (Seq (Chr x) r1) r2)) prev [] = None.
Proof.
  unfold matchHere, Chr. cbn [run]. destruct (xorb _ _); reflexivity.
Qed.

(** Case analysis on the code units a pattern reads at the start of a word. *)
Ltac closed_bool :=
  match goal with
  | |- context [N.eqb ?a ?b] =>
      tryif first [is_var a | is_var b] then fail
      else (let v := eval vm_compute in (N.eqb a b) in change (N.eqb a b) with v)
  | |- context [isWordChar ?a] =>
      tryif is_var a then fail
      else (let v := eval vm_compute in (isWordChar a) in change (isWordChar a) with v)
  | |- context [str ?a] =>
      let v := eval vm_compute in (str a) in change (str a) with v
  end.

Ltac word_step :=
  first
    [ progress cbn [run star matchHere Chr hd_error isWordOpt app option_map fst
                    xorb negb andb orb List.length inWords existsb JS.eqb
                    tailWords flat_map]
    | closed_bool
    | match goal with
      | H : isLowerAlnum ?c = true |- context [isWordChar ?c] =>
          rewrite (isLowerAlnum_word c H)
      | |- context [N.eqb ?k ?c] =>
          is_var c; destruct (N.eqb_spec k c); [subst c|]; try congruence
      | |- context [N.eqb ?c ?k] =>
          is_var c; destruct (N.eqb_spec c k); [subst c|]; try congruence
      | H : forallb isLowerAlnum ?w = true |- context [?w ++ _] =>
          is_var w; destruct w;
          [clear H
          |cbn [forallb] in H; apply andb_prop in H;
           let Hc := fresh "Hc" in destruct H as [Hc H]]
      | |- context [tailWords ?ws] =>
          is_var ws; destruct ws; unfold tailWords; cbn [flat_map]
      end ].

Ltac word_cases Hp Hw :=
  match type of Hw with
  | isWord ?w = true =>
      destruct w; [discriminate Hw|];
      cbn [isWord forallb] in Hw; apply andb_prop in Hw;
      let Hc := fresh "Hc" in destruct Hw as [Hc Hw];
      unfold matchHere; repeat closed_bool;
      cbn [Lit]; cbn [run Chr app hd_error isWordOpt]; rewrite Hp;
      repeat word_step; reflexivity
  end.

Lemma re_mun_word (prev : option N) (w : jsstring) (ws : list jsstring) :
  isWordOpt prev = false -> isWord w = true ->
  option_map fst (matchHere re_mun prev (w ++ tailWords ws))
  = if inWords ["mun"]%string w then Some (List.length w) else None.
Proof.
  intros Hp Hw. unfold re_mun. word_cases Hp Hw.
Qed.

Lemma re_judet_word (prev : option N) (w : jsstring) (ws : list jsstring) :
  isWordOpt prev = false -> isWord w = true ->
  option_map fst (matchHere re_judet prev (w ++ tailWords ws))
  = if inWords ["judt"; "judet"; "judtul"; "judetul"]%string w
    then Some (List.length w) else None.
Proof.
  intros Hp Hw. unfold re_judet. word_cases Hp Hw.
Qed.

Lemma re_sect_word (prev : option N) (w : jsstring) (ws : list jsstring) :
  isWordOpt prev = false -> isWord w = true ->
  option_map fst (matchHere re_sect prev (w ++ tailWords ws))
  = if inWords ["sect"; "sector"; "sectorul"]%string w
    then Some (List.length w) else None.
Proof.
  intros Hp Hw. unfold re_sect. word_cases Hp Hw.
Qed.

(** Patterns that match nowhere in a text of lower-case words. *)
Section NoMatch.
Variable r : regex.
Variable repl : jsstring.
Hypothesis noChar : forall prev c s,
  textChar c = true -> matchHere r prev (c :: s) = None.
Hypothesis noEnd : forall prev, matchHere r prev [] = None.

Lemma replaceAll_nomatch (s : jsstring) :
  forallb textChar s = true -> replaceAll r repl s = s.
Proof.
  unfold replaceAll. generalize (@None N).
  induction s as [|c s IH]; intros prev Hs.
  - cbn [replaceAllFrom]. rewrite noEnd. reflexivity.
  - cbn [forallb] in Hs. apply andb_prop in Hs. destruct Hs as [Hc Hs].
    cbn [replaceAllFrom]. rewrite (noChar prev c s Hc), (IH _ Hs). reflexivity.
Qed.
End NoMatch.

Lemma textChar_range (c : N) :
  textChar c = true -> (97 <= c <= 122 \/ 48 <= c <= 57 \/ c = 32)%N.
Proof.
  unfold textChar, isLowerAlnum, inRange.
  rewrite !orb_true_iff, !andb_true_iff, !N.leb_le, N.eqb_eq. tauto.
Qed.

Lemma class_nomatch (p : N -> bool) (r : regex) (prev : option N) (c : N) (s : jsstring) :
  p c = false -> matchHere (Seq (Class p) r) prev (c :: s) = None.
Proof. intros H. unfold matchHere. cbn [run]. rewrite H. reflexivity. Qed.

Lemma class_nomatch1 (p : N -> bool) (prev : option N) (c : N) (s : jsstring) :
  p c = false -> matchHere (Class p) prev (c :: s) = None.
Proof. intros H. unfold matchHere. cbn [run]. rewrite H. reflexivity. Qed.

Lemma combining_text (s : jsstring) :
  forallb textChar s = true -> replaceAll re_combining [] s = s.
Proof.
  apply replaceAll_nomatch; [|reflexivity].
  intros prev c t H. apply class_nomatch1.
  apply textChar_range in H. unfold inRange.
  apply andb_false_iff. rewrite !N.leb_gt. lia.
Qed.

Lemma cedilla_text (k : N) (repl s : jsstring) :
  (128 <= k)%N -> forallb textChar s = true -> replaceAll (Chr k) repl s = s.
Proof.
  intros Hk. apply replaceAll_nomatch; [|reflexivity].
  intros prev c t H. apply class_nomatch1.
  apply textChar_range in H. apply N.eqb_neq. lia.
Qed.

Lemma separators_text (s : jsstring) :
  forallb textChar s = true -> replaceAll re_separators (str " ") s = s.
Proof.
  apply replaceAll_nomatch; [|reflexivity].
  intros prev c t H. apply class_nomatch.
  apply textChar_range in H.
  change (oneOf "._,-" c)
    with (N.eqb c 46 || (N.eqb c 95 || (N.eqb c 44 || (N.eqb c 45 || false)))).
  repeat (apply orb_false_iff; split); try reflexivity; apply N.eqb_neq; lia.
Qed.

Lemma toLowerCase_text (s : jsstring) :
  forallb textChar s = true -> toLowerCase s = s.
Proof.
  induction s as [|c s IH]; intros Hs; [reflexivity|].
  cbn [forallb] in Hs. apply andb_prop in Hs. destruct Hs as [Hc Hs].
  cbn [toLowerCase List.map]. fold (toLowerCase s). rewrite (IH Hs). f_equal.
  apply textChar_range in Hc. unfold lowerUnit, inRange.
  destruct (N.leb_spec 65 c), (N.leb_spec c 90); cbn [andb]; try lia.
  - destruct (N.leb_spec 192 c); cbn [andb]; try lia.
    repeat match goal with
           | |- context [N.eqb ?a ?b] => destruct (N.eqb_spec a b); [lia|]
           end.
    reflexivity.
  - destruct (N.leb_spec 192 c); cbn [andb]; try lia.
    repeat match goal with
           | |- context [N.eqb ?a ?b] => destruct (N.eqb_spec a b); [lia|]
           end.
    reflexivity.
Qed.

Lemma assoc_above {V} (c : N) (l : list (N * V)) :
  forallb (fun e => N.ltb c (fst e)) l = true -> assoc c l = None.
Proof.
  induction l as [|[k v] l IH]; intros H; [reflexivity|].
  cbn [forallb fst] in H. apply andb_prop in H. destruct H as [Hk H].
  cbn [assoc]. apply N.ltb_lt in Hk.
  destruct (N.eqb_spec c k); [lia|]. auto.
Qed.

Lemma forallb_weaken {A} (p q : A -> bool) (l : list A) :
  (forall x, p x = true -> q x = true) -> forallb p l = true -> forallb q l = true.
Proof.
  intros Hpq. induction l as [|x l IH]; cbn [forallb]; [reflexivity|].
  intros H. apply andb_prop in H. destruct H as [Hx H].
  rewrite (Hpq _ Hx), (IH H). reflexivity.
Qed.

Lemma normalizeNFD_text (s : jsstring) :
  forallb textChar s = true -> normalizeNFD s = s.
Proof.
  induction s as [|c s IH]; intros Hs; [reflexivity|].
  cbn [forallb] in Hs. apply andb_prop in Hs. destruct Hs as [Hc Hs].
  cbn [normalizeNFD flat_map]. fold (normalizeNFD s). rewrite (IH Hs).
  unfold nfdUnit. rewrite assoc_above; [reflexivity|].
  apply textChar_range in Hc.
  apply (@forallb_weaken _ (fun e => N.ltb 127 (fst e))).
  - intros e He. apply N.ltb_lt in He. apply N.ltb_lt. lia.
  - vm_compute. reflexivity.
Qed.

(** The shape of a text of words. *)
Lemma isWord_chars (w : jsstring) :
  isWord w = true -> w <> [] /\ forallb isLowerAlnum w = true.
Proof.
  destruct w; [discriminate|]. intros H. split; [discriminate | exact H].
Qed.

Lemma textChar_word (w : jsstring) :
  forallb isLowerAlnum w = true -> forallb textChar w = true.
Proof.
  apply forallb_weaken. intros c H. unfold textChar. rewrite H. reflexivity.
Qed.

Lemma textChar_tailWords (ws : list jsstring) :
  forallb isWord ws = true -> forallb textChar (tailWords ws) = true.
Proof.
  induction ws as [|w ws IH]; intros H; [reflexivity|].
  cbn [forallb] in H. apply andb_prop in H. destruct H as [Hw H].
  cbn [tailWords flat_map]. fold (tailWords ws).
  change (32%N :: w ++ tailWords ws) with ((32%N :: w) ++ tailWords ws).
  rewrite forallb_app, (IH H). cbn [forallb].
  rewrite (textChar_word _ (proj2 (isWord_chars _ Hw))). reflexivity.
Qed.

Lemma textChar_unwords (ws : list jsstring) :
  forallb isWord ws = true -> forallb textChar (unwords ws) = true.
Proof.
  destruct ws as [|w ws]; [reflexivity|]. intros H.
  cbn [forallb] in H. apply andb_prop in H. destruct H as [Hw H].
  cbn [unwords]. rewrite forallb_app, (textChar_tailWords _ H).
  rewrite (textChar_word _ (proj2 (isWord_chars _ Hw))). reflexivity.
Qed.

Lemma word_last (w : jsstring) :
  isWord w = true -> exists s c, w = s ++ [c] /\ isLowerAlnum c = true.
Proof.
  intros H. destruct (isWord_chars _ H) as [Hne Hall].
  destruct (exists_last Hne) as (s & c & ->). exists s, c. split; [reflexivity|].
  rewrite forallb_app in Hall. apply andb_prop in Hall. destruct Hall as [_ Hc].
  cbn [forallb] in Hc. apply andb_prop in Hc. tauto.
Qed.

Lemma tailWords_last (ws : list jsstring) :
  forallb isWord ws = true -> ws <> [] ->
  exists s c, tailWords ws = s ++ [c] /\ isLowerAlnum c = true.
Proof.
  induction ws as [|w ws IH]; intros H Hne; [congruence|].
  cbn [forallb] in H. apply andb_prop in H. destruct H as [Hw H].
  cbn [tailWords flat_map]. fold (tailWords ws).
  destruct ws as [|w' ws].
  - destruct (word_last _ Hw) as (s & c & -> & Hc).
    exists (32%N :: s), c. cbn [tailWords flat_map]. rewrite app_nil_r. tauto.
  - destruct (IH H) as (s & c & E & Hc); [discriminate|].
    exists (32%N :: w ++ s), c. rewrite E. cbn [app]. rewrite <- app_assoc. tauto.
Qed.

Lemma unwords_last (ws : list jsstring) :
  forallb isWord ws = true -> ws <> [] ->
  exists s c, unwords ws = s ++ [c] /\ isLowerAlnum c = true.
Proof.
  destruct ws as [|w ws]; intros H Hne; [congruence|].
  cbn [forallb] in H. apply andb_prop in H. destruct H as [Hw H].
  cbn [unwords]. destruct ws as [|w' ws].
  - destruct (word_last _ Hw) as (s & c & -> & Hc).
    exists s, c. cbn [tailWords flat_map]. rewrite app_nil_r. tauto.
  - destruct (@tailWords_last (w' :: ws) H) as (s & c & E & Hc); [discriminate|].
    exists (w ++ s), c. rewrite E, app_assoc. tauto.
Qed.

Lemma unwords_first (ws : list jsstring) :
  forallb isWord ws = true -> ws <> [] ->
  exists c s, unwords ws = c :: s /\ isLowerAlnum c = true.
Proof.
  destruct ws as [|w ws]; intros H Hne; [congruence|].
  cbn [forallb] in H. apply andb_prop in H. destruct H as [Hw _].
  destruct w as [|c w]; [discriminate Hw|].
  cbn [isWord forallb] in Hw. apply andb_prop in Hw.
  exists c, (w ++ tailWords ws). cbn [unwords app]. tauto.
Qed.

Lemma trim_unwords (ws : list jsstring) :
  forallb isWord ws = true -> ws <> [] -> trim (unwords ws) = unwords ws.
Proof.
  intros H Hne. unfold trim, trimEnd.
  destruct (@unwords_first _ H Hne) as (c & s & E & Hc).
  assert (T : trimStart (unwords ws) = unwords ws).
  { rewrite E. cbn [trimStart]. rewrite (@isLowerAlnum_not_space _ Hc). reflexivity. }
  rewrite T.
  destruct (@unwords_last _ H Hne) as (s' & c' & E' & Hc').
  rewrite E', rev_app_distr. cbn [rev app trimStart].
  rewrite (@isLowerAlnum_not_space _ Hc').
  change (c' :: rev s') with (rev [c'] ++ rev s').
  rewrite <- rev_app_distr, rev_involutive. reflexivity.
Qed.

Lemma replaceAllFrom_cons (r : regex) (repl : jsstring) (prev : option N)
    (c : N) (s : jsstring) :
  replaceAllFrom r repl prev (c :: s) 0
  = match matchHere r prev (c :: s) with
    | Some (S k, _) => repl ++ replaceAllFrom r repl (Some c) s k
    | Some (O, _) => repl ++ c :: replaceAllFrom r repl (Some c) s 0
    | None => c :: replaceAllFrom r repl (Some c) s 0
    end.
Proof. reflexivity. Qed.

(** [/\s+/g] on a text of words: each single space is replaced by a space. *)
Lemma spaces_inner (w t : jsstring) :
  forallb isLowerAlnum w = true ->
  forall prev, exists prev',
    replaceAllFrom re_spaces (str " ") prev (w ++ t) 0
    = w ++ replaceAllFrom re_spaces (str " ") prev' t 0.
Proof.
  induction w as [|c w IH]; intros Hw prev.
  - exists prev. reflexivity.
  - cbn [forallb] in Hw. apply andb_prop in Hw. destruct Hw as [Hc Hw].
    destruct (IH Hw (Some c)) as [p Hp]. exists p.
    cbn [app replaceAllFrom].
    unfold re_spaces, Plus at 1.
    rewrite (@class_nomatch isSpace (Star isSpace) prev c (w ++ t) (@isLowerAlnum_not_space c Hc)).
    fold (Plus isSpace). fold re_spaces. rewrite Hp. reflexivity.
Qed.

Lemma spaces_tailWords (ws : list jsstring) :
  forallb isWord ws = true ->
  forall prev,
    replaceAllFrom re_spaces (str " ") prev (tailWords ws) 0 = tailWords ws.
Proof.
  induction ws as [|w ws IH]; intros H prev; [reflexivity|].
  cbn [forallb] in H. apply andb_prop in H. destruct H as [Hw H].
  cbn [tailWords flat_map]. fold (tailWords ws).
  destruct w as [|c w]; [discriminate Hw|].
  cbn [isWord forallb] in Hw. apply andb_prop in Hw. destruct Hw as [Hc Hw].
  assert (M : matchHere re_spaces prev (32%N :: c :: w ++ tailWords ws)
              = Some (1%nat, [])).
  { unfold matchHere, re_spaces, Plus. cbn [run app star].
    change (isSpace 32) with true. cbv iota.
    rewrite (@isLowerAlnum_not_space _ Hc). reflexivity. }
  cbn [app]. rewrite replaceAllFrom_cons, M.
  destruct (@spaces_inner (c :: w) (tailWords ws)) with (prev := Some 32%N)
    as [p Hp].
  { cbn [forallb]. rewrite Hc, Hw. reflexivity. }
  cbn [app] in Hp. rewrite Hp, (IH H). reflexivity.
Qed.

Lemma spaces_unwords (ws : list jsstring) :
  forallb isWord ws = true ->
  replaceAll re_spaces (str " ") (unwords ws) = unwords ws.
Proof.
  intros H. unfold replaceAll. destruct ws as [|w ws]; [reflexivity|].
  cbn [forallb] in H. apply andb_prop in H. destruct H as [Hw H].
  cbn [unwords].
  destruct (@spaces_inner w (tailWords ws) (proj2 (@isWord_chars _ Hw)) None)
    as [p Hp].
  rewrite Hp, (@spaces_tailWords _ H). reflexivity.
Qed.

Lemma expandWord_isWord (l : list string) (to : string) (ws : list jsstring) :
  isWord (str to) = true -> forallb isWord ws = true ->
  forallb isWord (List.map (expandWord l to) ws) = true.
Proof.
  intros Hto. induction ws as [|w ws IH]; intros H; [reflexivity|].
  cbn [forallb] in H. apply andb_prop in H. destruct H as [Hw H].
  cbn [List.map forallb]. rewrite (IH H). unfold expandWord.
  destruct (inWords l w); [rewrite Hto | rewrite Hw]; reflexivity.
Qed.

Lemma replaceAll_word (r : regex) (x : N) (r1 r2 : regex)
    (l : list string) (to : string) (ws : list jsstring) :
  r = Seq WordBoundary (Seq (Seq (Chr x) r1) r2) -> N.eqb x 32 = false ->
  (forall prev w ws',
      isWordOpt prev = false -> isWord w = true ->
      option_map fst (matchHere r prev (w ++ tailWords ws'))
      = if inWords l w then Some (List.length w) else None) ->
  forallb isWord ws = true ->
  replaceAll r (str to) (unwords ws) = unwords (List.map (expandWord l to) ws).
Proof.
  intros -> Hx Hw H. apply replaceAll_unwords; auto.
  - intros c c' s. apply boundary_inner.
  - intros prev s. apply boundary_first. exact Hx.
  - intros prev. apply boundary_end.
Qed.

(** [normalizeInput] on a text of lower-case words: each word is expanded
    on its own. *)
Lemma normalizeInput_unwords (ws : list jsstring) :
  ws <> [] -> forallb isWord ws = true ->
  normalizeInput (Some (unwords ws)) = Some (unwords (List.map expand ws)).
Proof.
  intros Hne H. unfold normalizeInput.
  rewrite (@trim_unwords _ H Hne).
  destruct (@unwords_first _ H Hne) as (c & s & E & _).
  destruct (unwords ws) eqn:Eu; [discriminate E|]. rewrite <- Eu. clear E Eu.
  f_equal. unfold normalizeChain.
  pose proof (@textChar_unwords _ H) as Ht.
  rewrite (@toLowerCase_text _ Ht), (@normalizeNFD_text _ Ht), (@combining_text _ Ht).
  unfold re_s_cedilla, re_t_cedilla.
  rewrite (@cedilla_text 351 (str "s") _ ltac:(discriminate) Ht).
  rewrite (@cedilla_text 355 (str "t") _ ltac:(discriminate) Ht).
  rewrite (@separators_text _ Ht), (@spaces_unwords _ H).
  rewrite (@replaceAll_word re_mun 109 _ _ ["mun"]%string "municipiul" ws
             eq_refl eq_refl re_mun_word H).
  pose proof (@expandWord_isWord ["mun"]%string "municipiul" ws eq_refl H) as H1.
  rewrite (@replaceAll_word re_judet 106 _ _
             ["judt"; "judet"; "judtul"; "judetul"]%string "judetul" _
             eq_refl eq_refl re_judet_word H1).
  pose proof (@expandWord_isWord ["judt"; "judet"; "judtul"; "judetul"]%string
                "judetul" _ eq_refl H1) as H2.
  rewrite (@replaceAll_word re_sect 115 _ _
             ["sect"; "sector"; "sectorul"]%string "sectorul" _
             eq_refl eq_refl re_sect_word H2).
  pose proof (@expandWord_isWord ["sect"; "sector"; "sectorul"]%string
                "sectorul" _ eq_refl H2) as H3.
  rewrite !map_map in *. 
  rewrite trim_unwords; [reflexivity | exact H3 |].
  destruct ws; [congruence | discriminate].
Qed.

(** ** The expansions on every text *)

Lemma untokens_tokens (s : jsstring) : untokens (tokens s) = s.
Proof.
  induction s as [|c s IH]; [reflexivity|].
  cbn [tokens]. unfold untokens in *. destruct (isWordChar c).
  - destruct (tokens s) as [[|[w d] ps] last]; cbn [fst snd flat_map app] in *;
      rewrite <- IH; reflexivity.
  - cbn [fst snd flat_map app]. rewrite IH. reflexivity.
Qed.

Lemma tokens_wordTokens (s : jsstring) : wordTokens (tokens s).
Proof.
  induction s as [|c s IH]; [split; [constructor | reflexivity]|].
  cbn [tokens]. destruct IH as [Hps Hlast]. destruct (isWordChar c) eqn:E.
  - destruct (tokens s) as [[|[w d] ps] last]; cbn [fst snd] in *.
    + split; [constructor|]. cbn [snd forallb]. rewrite E. exact Hlast.
    + inversion Hps as [|p ps' [Hw Hd] Hps']; subst. split; [|exact Hlast].
      constructor; [|exact Hps']. cbn [fst snd forallb] in *. rewrite E. tauto.
  - split; [|exact Hlast]. constructor; [|exact Hps].
    cbn [fst snd forallb]. split; [reflexivity | exact E].
Qed.

Section AnyText.
Variable r : regex.
Variable words : list string.
Variable to : string.

Hypothesis inner : forall c c' s,
  isWordChar c = true -> isWordChar c' = true -> matchHere r (Some c) (c' :: s) = None.
Hypothesis atGap : forall prev c s,
  isWordChar c = false -> matchHere r prev (c :: s) = None.
Hypothesis atEnd : forall prev, matchHere r prev [] = None.
Hypothesis atWord : forall prev w rest,
  isWordOpt prev = false -> w <> [] -> forallb isWordChar w = true ->
  isWordOpt (hd_error rest) = false ->
  option_map fst (matchHere r prev (w ++ rest))
  = if inWords words w then Some (List.length w) else None.

(** Inside a run of word characters nothing matches. *)
Lemma replaceAllFrom_run (w t : jsstring) :
  forallb isWordChar w = true ->
  forall c, isWordChar c = true -> exists prev',
    replaceAllFrom r (str to) (Some c) (w ++ t) 0
    = w ++ replaceAllFrom r (str to) prev' t 0.
Proof.
  induction w as [|c' w IH]; intros Hw c Hc.
  - exists (Some c). reflexivity.
  - cbn [forallb] in Hw. apply andb_prop in Hw. destruct Hw as [Hc' Hw].
    destruct (IH Hw c' Hc') as [p Hp]. exists p.
    cbn [app replaceAllFrom]. rewrite (inner c c' (w ++ t) Hc Hc'), Hp. reflexivity.
Qed.

(** At the start of a run: the run is replaced or copied, as a whole. *)
Lemma replaceAllFrom_at_word (w rest : jsstring) (prev : option N) :
  isWordOpt prev = false -> w <> [] -> forallb isWordChar w = true ->
  isWordOpt (hd_error rest) = false ->
  exists prev',
    replaceAllFrom r (str to) prev (w ++ rest) 0
    = expandWord words to w ++ replaceAllFrom r (str to) prev' rest 0.
Proof.
  intros Hp Hne Hw Hr. pose proof (@atWord prev w rest Hp Hne Hw Hr) as Hm.
  unfold expandWord. destruct w as [|c w]; [congruence|].
  cbn [forallb] in Hw. apply andb_prop in Hw. destruct Hw as [Hc Hw].
  destruct (inWords words (c :: w)).
  - destruct (matchHere r prev ((c :: w) ++ rest)) as [[n caps]|] eqn:E;
      [|discriminate Hm].
    cbn [option_map fst List.length] in Hm. injection Hm as ->.
    destruct (@replaceAllFrom_skip r to w rest (Some c)) as [p Hp'].
    exists p. cbn [app] in E |- *. cbn [replaceAllFrom]. rewrite E, Hp'. reflexivity.
  - destruct (matchHere r prev ((c :: w) ++ rest)) as [[n caps]|] eqn:E;
      [discriminate Hm|].
    destruct (replaceAllFrom_run w rest Hw c Hc) as [p Hp'].
    exists p. cbn [app] in E |- *. cbn [replaceAllFrom]. rewrite E, Hp'. reflexivity.
Qed.

Lemma replaceAllFrom_untokens (ps : list (jsstring * N)) (last : jsstring) :
  wordTokens (ps, last) ->
  forall prev, isWordOpt prev = false ->
    replaceAllFrom r (str to) prev (untokens (ps, last)) 0
    = untokens (onWords (expandWord words to) (ps, last)).
Proof.
  unfold wordTokens, untokens, onWords. cbn [fst snd].
  induction ps as [|[w d] ps IH]; intros [Hps Hlast] prev Hp.
  - cbn [flat_map List.map app]. destruct last as [|c last].
    + cbn [replaceAllFrom onWord]. rewrite atEnd. reflexivity.
    + destruct (@replaceAllFrom_at_word (c :: last) [] prev Hp
                  ltac:(discriminate) Hlast eq_refl) as [p Hp'].
      rewrite app_nil_r in Hp'. rewrite Hp'. cbn [replaceAllFrom onWord].
      rewrite atEnd, app_nil_r. reflexivity.
  - inversion Hps as [|p0 ps0 [Hw Hd] Hps']; subst. cbn [fst snd] in Hw, Hd.
    cbn [flat_map List.map fst snd]. rewrite <- !app_assoc. cbn [app].
    assert (Hd' : isWordOpt (Some d) = false) by exact Hd.
    specialize (IH (conj Hps' Hlast) (Some d) Hd').
    destruct w as [|c w].
    + cbn [app onWord replaceAllFrom]. rewrite (atGap prev d _ Hd), IH. reflexivity.
    + destruct (@replaceAllFrom_at_word (c :: w)
                  (d :: flat_map (fun p => fst p ++ [snd p]) ps ++ last) prev Hp
                  ltac:(discriminate) Hw Hd) as [p Hp'].
      rewrite Hp'. cbn [onWord]. rewrite replaceAllFrom_cons, (atGap p d _ Hd), IH.
      reflexivity.
Qed.

End AnyText.

Lemma boundary_gap (x : N) (r1 r2 : regex) (prev : option N) (c : N) (s : jsstring) :
  isWordChar x = true -> isWordChar c = false ->
  matchHere (Seq WordBoundary (Seq (Seq (Chr x) r1) r2)) prev (c :: s) = None.
Proof.
  intros Hx Hc. apply boundary_first. apply N.eqb_neq. intros ->. congruence.
Qed.

(** A pattern [\b...\b] that matches the words of a list, on any text:
    each run of word characters is replaced or kept, as a whole. *)
Lemma replaceAll_untokens (r : regex) (x : N) (r1 r2 : regex)
    (l : list string) (to : string) (t : list (jsstring * N) * jsstring) :
  r = Seq WordBoundary (Seq (Seq (Chr x) r1) r2) -> isWordChar x = true ->
  (forall prev w rest,
      isWordOpt prev = false -> w <> [] -> forallb isWordChar w = true ->
      isWordOpt (hd_error rest) = false ->
      option_map fst (matchHere r prev (w ++ rest))
      = if inWords l w then Some (List.length w) else None) ->
  wordTokens t ->
  replaceAll r (str to) (untokens t) = untokens (onWords (expandWord l to) t).
Proof.
  intros -> Hx Hw Ht. destruct t as [ps last]. unfold replaceAll.
  apply replaceAllFrom_untokens; auto.
  - intros c c' s. apply boundary_inner.
  - intros prev c s Hc. apply boundary_gap; assumption.
  - intros prev. apply boundary_end.
Qed.

Ltac any_word_step :=
  first
    [ progress cbn [run star matchHere Chr hd_error isWordOpt app option_map fst
                    xorb negb andb orb List.length inWords existsb JS.eqb]
    | closed_bool
    | match goal with
      | H : isWordChar ?c = _ |- context [isWordChar ?c] => rewrite H
      | |- context [N.eqb ?k ?c] =>
          is_var c; destruct (N.eqb_spec k c);
          [subst c; try congruence;
           try match goal with
               | H : isWordChar _ = false |- _ => vm_compute in H; discriminate H
               end
          |]
      | |- context [N.eqb ?c ?k] =>
          is_var c; destruct (N.eqb_spec c k);
          [subst c; try congruence;
           try match goal with
               | H : isWordChar _ = false |- _ => vm_compute in H; discriminate H
               end
          |]
      | H : forallb isWordChar ?w = true |- context [?w ++ _] =>
          is_var w; destruct w;
          [clear H
          |cbn [forallb] in H; apply andb_prop in H;
           let Hc := fresh "Hc" in destruct H as [Hc H]]
      | H : isWordOpt (hd_error ?rest) = false |- context [?rest] =>
          is_var rest; destruct rest; cbn [hd_error isWordOpt] in H
      end ].

Ltac any_word_cases Hp Hne Hw :=
  match type of Hw with
  | forallb isWordChar ?w = true =>
      destruct w; [congruence|]; clear Hne;
      cbn [forallb] in Hw; apply andb_prop in Hw;
      let Hc := fresh "Hc" in destruct Hw as [Hc Hw];
      unfold matchHere; repeat closed_bool;
      cbn [Lit]; cbn [run Chr app hd_error isWordOpt]; rewrite Hp;
      repeat any_word_step; reflexivity
  end.

Lemma re_mun_run (prev : option N) (w rest : jsstring) :
  isWordOpt prev = false -> w <> [] -> forallb isWordChar w = true ->
  isWordOpt (hd_error rest) = false ->
  option_map fst (matchHere re_mun prev (w ++ rest))
  = if inWords ["mun"]%string w then Some (List.length w) else None.
Proof.
  intros Hp Hne Hw Hr. unfold re_mun. any_word_cases Hp Hne Hw.
Qed.

Lemma re_judet_run (prev : option N) (w rest : jsstring) :
  isWordOpt prev = false -> w <> [] -> forallb isWordChar w = true ->
  isWordOpt (hd_error rest) = false ->
  option_map fst (matchHere re_judet prev (w ++ rest))
  = if inWords ["judt"; "judet"; "judtul"; "judetul"]%string w
    then Some (List.length w) else None.
Proof.
  intros Hp Hne Hw Hr. unfold re_judet. any_word_cases Hp Hne Hw.
Qed.

Lemma re_sect_run (prev : option N) (w rest : jsstring) :
  isWordOpt prev = false -> w <> [] -> forallb isWordChar w = true ->
  isWordOpt (hd_error rest) = false ->
  option_map fst (matchHere re_sect prev (w ++ rest))
  = if inWords ["sect"; "sector"; "sectorul"]%string w
    then Some (List.length w) else None.
Proof.
  intros Hp Hne Hw Hr. unfold re_sect. any_word_cases Hp Hne Hw.
Qed.

Lemma onWord_wordChars (l : list string) (to : string) (w : jsstring) :
  forallb isWordChar (str to) = true -> forallb isWordChar w = true ->
  forallb isWordChar (onWord (expandWord l to) w) = true.
Proof.
  intros Hto Hw. destruct w as [|c w]; [reflexivity|].
  cbn [onWord]. unfold expandWord. destruct (inWords l (c :: w)); assumption.
Qed.

Lemma onWords_wordTokens (l : list string) (to : string)
    (t : list (jsstring * N) * jsstring) :
  forallb isWordChar (str to) = true -> wordTokens t ->
  wordTokens (onWords (expandWord l to) t).
Proof.
  intros Hto [Hps Hlast]. unfold wordTokens, onWords. cbn [fst snd].
  split; [|apply onWord_wordChars; assumption].
  induction Hps as [|p ps [Hw Hd] Hps IH]; cbn [List.map]; constructor; auto.
  cbn [fst snd]. split; [apply onWord_wordChars; assumption | exact Hd].
Qed.

Lemma onWord_onWord (f g : jsstring -> jsstring) (w : jsstring) :
  (forall v, v <> [] -> g v <> []) ->
  onWord f (onWord g w) = onWord (fun v => f (g v)) w.
Proof.
  intros Hg. destruct w as [|c w]; [reflexivity|]. cbn [onWord].
  specialize (Hg (c :: w) ltac:(discriminate)).
  destruct (g (c :: w)); [congruence | reflexivity].
Qed.

Lemma onWords_onWords (f g : jsstring -> jsstring)
    (t : list (jsstring * N) * jsstring) :
  (forall v, v <> [] -> g v <> []) ->
  onWords f (onWords g t) = onWords (fun v => f (g v)) t.
Proof.
  intros Hg. unfold onWords. cbn [fst snd]. rewrite map_map.
  rewrite (@onWord_onWord f g (snd t) Hg). f_equal.
  apply map_ext. intros p. cbn [fst snd].
  rewrite (@onWord_onWord f g (fst p) Hg). reflexivity.
Qed.

Lemma expandWord_nonempty (l : list string) (to : string) (v : jsstring) :
  str to <> [] -> v <> [] -> expandWord l to v <> [].
Proof.
  intros Hto Hv. unfold expandWord. destruct (inWords l v); assumption.
Qed.

(** The three expansions of [normalizeInput], on any text: every run of
    word characters is expanded on its own. *)
Lemma expansions_mapWords (s : jsstring) :
  replaceAll re_sect (str "sectorul")
    (replaceAll re_judet (str "judetul")
       (replaceAll re_mun (str "municipiul") s))
  = mapWords expand s.
Proof.
  unfold mapWords. rewrite <- (untokens_tokens s) at 1.
  pose proof (tokens_wordTokens s) as H0.
  rewrite (@replaceAll_untokens re_mun 109 _ _ ["mun"]%string "municipiul" _
             eq_refl eq_refl re_mun_run H0).
  pose proof (@onWords_wordTokens ["mun"]%string "municipiul" _ eq_refl H0) as H1.
  rewrite (@replaceAll_untokens re_judet 106 _ _
             ["judt"; "judet"; "judtul"; "judetul"]%string "judetul" _
             eq_refl eq_refl re_judet_run H1).
  pose proof (@onWords_wordTokens ["judt"; "judet"; "judtul"; "judetul"]%string
                "judetul" _ eq_refl H1) as H2.
  rewrite (@replaceAll_untokens re_sect 115 _ _
             ["sect"; "sector"; "sectorul"]%string "sectorul" _
             eq_refl eq_refl re_sect_run H2).
  rewrite !onWords_onWords; [reflexivity | |];
    intros v Hv; repeat apply expandWord_nonempty; try exact Hv; discriminate.
Qed.

Lemma expand_other (w : jsstring) :
  inWords ["mun"; "judt"; "judet"; "judtul"; "judetul";
           "sect"; "sector"; "sectorul"]%string w = false ->
  expand w = w.
Proof.
  unfold inWords. cbn [existsb]. intros H.
  repeat (apply orb_false_iff in H; destruct H as [? H]).
  unfold expand, expandWord, inWords. cbn [existsb].
  do 3 (repeat match goal with
               | E : JS.eqb w ?x = false |- context [JS.eqb w ?x] => rewrite E
               end;
        cbn [orb]).
  reflexivity.
Qed.

(** C6, amended.  For every input text, [normalizeInput] expands the words
    "mun" to "municipiul", "judt", "judet", "judtul" and "judetul" to
    "judetul", and "sect", "sector" and "sectorul" to "sectorul": once
    the text is in lower case without diacritics, with its separators and
    white space unified, every run of word characters that is one of
    these words is replaced, and every other run is kept, "jud" and a
    bare "s" among them.  So "mun. cluj" gives "municipiul cluj" and
    "s 3" gives "s 3". *)
Theorem normalizeInput_expansions (input : jsstring) :
  normalizeInput (Some input)
  = match trim input with
    | [] => None
    | s => Some (trim (mapWords expand (unifySeparators s)))
    end
  /\ (forall w,
        inWords ["mun"; "judt"; "judet"; "judtul"; "judetul";
                 "sect"; "sector"; "sectorul"]%string w = false ->
        expand w = w)
  /\ (expand (str "mun") = str "municipiul"
      /\ expand (str "judet") = str "judetul"
      /\ expand (str "judetul") = str "judetul"
      /\ expand (str "sect") = str "sectorul"
      /\ expand (str "sector") = str "sectorul"
      /\ expand (str "sectorul") = str "sectorul"
      /\ expand (str "jud") = str "jud"
      /\ expand (str "s") = str "s")
  /\ (forall ws,
        ws <> [] -> forallb isWord ws = true ->
        normalizeInput (Some (unwords ws)) = Some (unwords (List.map expand ws)))
  /\ (normalizeInput (Some (str "mun. cluj")) = Some (str "municipiul cluj")
      /\ normalizeInput (Some (str "Mun.Cluj")) = Some (str "municipiul cluj")
      /\ normalizeInput (Some (str "judet cluj")) = Some (str "judetul cluj")
      /\ normalizeInput (Some (str "Jude" ++ [539%N] ++ str " Cluj"))
         = Some (str "judetul cluj")
      /\ normalizeInput (Some (str "sect 3")) = Some (str "sectorul 3")
      /\ normalizeInput (Some (str "Sector 3")) = Some (str "sectorul 3")
      /\ normalizeInput (Some (str "jud. cluj")) = Some (str "jud cluj")
      /\ normalizeInput (Some (str "s 3")) = Some (str "s 3")).
Proof.
  split; [|split; [exact expand_other|split; [|split; [exact normalizeInput_unwords|]]]].
  - unfold normalizeInput. destruct (trim input) as [|c s]; [reflexivity|].
    f_equal.
    change (normalizeChain (c :: s))
      with (trim (replaceAll re_sect (str "sectorul")
                   (replaceAll re_judet (str "judetul")
                      (replaceAll re_mun (str "municipiul")
                         (unifySeparators (c :: s)))))).
    rewrite expansions_mapWords. reflexivity.
  - repeat split; vm_compute; reflexivity.
  - repeat split; vm_compute; reflexivity.
Qed.

Lemma normalizeInput_expansions_witness :
  normalizeInput (Some (str "mun cluj sect 3 s 4"))
  = Some (str "municipiul cluj sectorul 3 s 4")
  /\ expand (str "cluj") = str "cluj".
Proof.
  destruct (normalizeInput_expansions []) as [_ [Hother [_ [Hwords _]]]].
  split.
  - exact (Hwords [str "mun"; str "cluj"; str "sect"; str "3"; str "s"; str "4"]
             ltac:(discriminate) eq_refl).
  - apply Hother. reflexivity.
Defined.

(** ** Counties: every name but one is found, in any casing *)

Lemma asciiLower_lowerUnit (c : N) :
  (asciiLower c < 128)%N -> lowerUnit c = asciiLower c.
Proof.
  unfold asciiLower, lowerUnit, inRange.
  destruct (N.leb_spec 65 c), (N.leb_spec c 90); cbn [andb]; try reflexivity;
    intros Hc;
    (destruct (N.leb_spec 192 c); cbn [andb]; [lia|]);
    repeat match goal with
           | |- context [N.eqb ?a ?b] => destruct (N.eqb_spec a b); [lia|]
           end;
    reflexivity.
Qed.

Lemma asciiLower_not_space (c : N) :
  isLowerAlnum (asciiLower c) = true -> isSpace c = false.
Proof.
  unfold asciiLower, inRange.
  destruct (N.leb_spec 65 c), (N.leb_spec c 90); cbn [andb];
    try apply isLowerAlnum_not_space.
  intros _. unfold isSpace, inRange.
  repeat (apply orb_false_iff; split);
    try (apply N.eqb_neq; lia);
    apply andb_false_iff; rewrite !N.leb_gt; lia.
Qed.

Lemma toLowerCase_asciiLower (s : jsstring) :
  forallb (fun c => N.ltb c 128) (List.map asciiLower s) = true ->
  toLowerCase s = List.map asciiLower s.
Proof.
  induction s as [|c s IH]; intros H; [reflexivity|].
  cbn [List.map forallb] in H. apply andb_prop in H. destruct H as [Hc H].
  cbn [toLowerCase List.map]. fold (toLowerCase s).
  rewrite (IH H), asciiLower_lowerUnit; [reflexivity|].
  apply N.ltb_lt. exact Hc.
Qed.

Lemma toLowerCase_folded (s : jsstring) :
  forallb (fun c => N.ltb c 128) (List.map asciiLower s) = true ->
  toLowerCase (List.map asciiLower s) = List.map asciiLower s.
Proof.
  induction s as [|c s IH]; intros H; [reflexivity|].
  cbn [List.map forallb] in H. apply andb_prop in H. destruct H as [Hc H].
  cbn [toLowerCase List.map]. fold (toLowerCase (List.map asciiLower s)).
  rewrite (IH H). f_equal. apply N.ltb_lt in Hc. revert Hc.
  unfold asciiLower, lowerUnit, inRange.
  destruct (N.leb_spec 65 c), (N.leb_spec c 90); cbn [andb]; intros Hc;
    repeat match goal with
           | |- context [N.leb ?a ?b] =>
               destruct (N.leb_spec a b); cbn [andb negb]; try lia
           end;
    repeat match goal with
           | |- context [N.eqb ?a ?b] => destruct (N.eqb_spec a b); [lia|]
           end;
    cbn [andb negb orb]; try reflexivity; try lia.
Qed.

Lemma trim_plain (s : jsstring) :
  match s with c :: _ => isSpace c | [] => true end = false ->
  match rev s with c :: _ => isSpace c | [] => true end = false ->
  trim s = s.
Proof.
  intros H1 H2. unfold trim, trimEnd.
  assert (T : trimStart s = s).
  { destruct s as [|c s]; [discriminate H1|]. cbn [trimStart]. rewrite H1. reflexivity. }
  rewrite T. destruct (rev s) as [|c r] eqn:E; [discriminate H2|].
  cbn [trimStart]. rewrite H2, <- E. apply rev_involutive.
Qed.

(** On such text [normalizeInput] does not see the casing of A-Z. *)
Lemma normalizeInput_casing (s : jsstring) :
  plainText (List.map asciiLower s) = true ->
  normalizeInput (Some s) = normalizeInput (Some (List.map asciiLower s)).
Proof.
  unfold plainText. intros H.
  apply andb_prop in H. destruct H as [H H3].
  apply andb_prop in H. destruct H as [H1 H2].
  assert (Ts : trim s = s).
  { apply trim_plain.
    - destruct s as [|c s]; [discriminate H2|]. cbn [List.map] in H2.
      apply asciiLower_not_space. exact H2.
    - rewrite <- map_rev in H3. destruct (rev s) as [|c r]; [discriminate H3|].
      cbn [List.map] in H3. apply asciiLower_not_space. exact H3. }
  assert (Tt : trim (List.map asciiLower s) = List.map asciiLower s).
  { apply trim_plain.
    - destruct (List.map asciiLower s) as [|c t]; [discriminate H2|].
      apply isLowerAlnum_not_space. exact H2.
    - destruct (rev (List.map asciiLower s)) as [|c t]; [discriminate H3|].
      apply isLowerAlnum_not_space. exact H3. }
  assert (L1 : toLowerCase s = List.map asciiLower s)
    by (apply toLowerCase_asciiLower; exact H1).
  assert (L2 : toLowerCase (List.map asciiLower s) = List.map asciiLower s)
    by (apply toLowerCase_folded; exact H1).
  unfold normalizeInput. rewrite Ts, Tt.
  destruct s as [|c s]; [discriminate H2|].
  change (List.map asciiLower (c :: s))
    with (asciiLower c :: List.map asciiLower s) at 1.
  cbv iota. unfold normalizeChain. rewrite L1, L2. reflexivity.
Qed.

Lemma sanitizeCounty_casing (s : jsstring) :
  plainText (List.map asciiLower s) = true ->
  sanitizeCounty (Some s) = sanitizeCounty (Some (List.map asciiLower s)).
Proof.
  intros H. unfold sanitizeCounty. rewrite (normalizeInput_casing _ H). reflexivity.
Qed.

Lemma counties_found :
  forallb (fun entry => String.eqb (fst entry) "calarasi" || found entry) counties
  = true.
Proof. vm_compute. reflexivity. Qed.

(** For each of the 41 counties and Bucharest other than Calarasi,
    [sanitizeCounty] returns the ISO 3166-2 code for the name without
    diacritics, whatever the casing of its letters, alone or after an
    administrative qualifier. *)
Lemma sanitizeCounty_counties (name code : string) (t s : jsstring) :
  In (name, code) counties -> name <> "calarasi"%string ->
  In t (spellings name) -> List.map asciiLower s = t ->
  sanitizeCounty (Some s) = Some (str code).
Proof.
  intros Hin Hname Ht Hs.
  pose proof counties_found as H.
  rewrite forallb_forall in H. specialize (H _ Hin). cbn [fst] in H.
  apply orb_prop in H. destruct H as [H|H].
  - apply String.eqb_eq in H. contradiction.
  - unfold found in H. rewrite forallb_forall in H. specialize (H _ Ht).
    cbn [fst snd] in H. apply andb_prop in H. destruct H as [Hp Hc].
    apply strictEqOpt_eq in Hc. subst t.
    rewrite (sanitizeCounty_casing _ Hp). exact Hc.
Qed.

(** C5.  The county table has the key "calaras" where the name of the
    county is "calarasi": [sanitizeCounty] finds no code for "Calarasi",
    in any casing and with or without "Judetul", while it does for the
    misspelt key, for "Judetul Cluj", "CLUJ" and "cluj", and for every
    other county. *)
Theorem sanitizeCounty_Calarasi :
  In ("calarasi", "RO-CL")%string counties
  /\ (forall s, List.map asciiLower s = str "calarasi" ->
        sanitizeCounty (Some s) = None)
  /\ sanitizeCounty (Some (str "Calarasi")) = None
  /\ sanitizeCounty (Some (str "Judetul Calarasi")) = None
  /\ sanitizeCounty (Some (str "calaras")) = Some (str "RO-CL")
  /\ sanitizeCounty (Some (str "Judetul Cluj")) = Some (str "RO-CJ")
  /\ sanitizeCounty (Some (str "CLUJ")) = Some (str "RO-CJ")
  /\ sanitizeCounty (Some (str "cluj")) = Some (str "RO-CJ")
  /\ (forall name code t s,
        In (name, code) counties -> name <> "calarasi"%string ->
        In t (spellings name) -> List.map asciiLower s = t ->
        sanitizeCounty (Some s) = Some (str code)).
Proof.
  split; [vm_compute; tauto|].
  split.
  { intros s Hs. rewrite sanitizeCounty_casing; rewrite Hs; vm_compute; reflexivity. }
  repeat (split; [vm_compute; reflexivity|]).
  exact sanitizeCounty_counties.
Qed.

Lemma sanitizeCounty_Calarasi_witness :
  sanitizeCounty (Some (str "CaLaRaSi")) = None
  /\ sanitizeCounty (Some (str "JUDETUL Satu Mare")) = Some (str "RO-SM").
Proof.
  destruct sanitizeCounty_Calarasi as [_ [H1 [_ [_ [_ [_ [_ [_ H2]]]]]]]].
  split.
  - apply H1. reflexivity.
  - apply (H2 "satu mare"%string "RO-SM"%string (str "judetul satu mare")).
    + vm_compute. tauto.
    + discriminate.
    + vm_compute. tauto.
    + reflexivity.
Defined.

(** ** What [isValidCIF] accepts *)

Lemma padTo9_shape (fuel : nat) :
  forall code code',
    padTo9 fuel code = Some code' ->
    List.length code' = 9%nat /\ exists k, code' = repeat 48%N k ++ code.
Proof.
  induction fuel as [|fuel IH]; intros code code'; cbn [padTo9];
    destruct (Nat.eqb_spec (List.length code) 9) as [E|E]; intros H;
    try discriminate H.
  - injection H as <-. split; [exact E | exists 0%nat; reflexivity].
  - injection H as <-. split; [exact E | exists 0%nat; reflexivity].
  - destruct (IH _ _ H) as [Hl [k Hk]]. split; [exact Hl|].
    exists (S k). rewrite Hk.
    change (48%N :: code) with ([48%N] ++ code).
    rewrite app_assoc, <- repeat_cons. reflexivity.
Qed.

Lemma cifSum_digits (code : jsstring) (z : Z) :
  List.length code = 9%nat -> cifSum code = Int z ->
  Forall (fun c => isDigit c = true) code.
Proof.
  intros Hl.
  do 9 (destruct code as [|? code]; [discriminate Hl|]).
  destruct code; [|discriminate Hl]. clear Hl.
  unfold cifSum, parseIntAt.
  cbn [seq combine cifWeights List.map fst snd nth_error fold_left].
  repeat match goal with
         | |- context [isDigit ?c] =>
             is_var c; destruct (isDigit c) eqn:?; cbn [add mul];
             [|discriminate]
         end.
  intros _. repeat constructor; assumption.
Qed.

Lemma Forall_sliceInit (p : N -> Prop) (pre s : jsstring) :
  Forall p (pre ++ sliceInit s) -> Forall p (sliceInit s).
Proof. intros H. apply Forall_app in H. tauto. Qed.

(** A string passes the check only when it has at most 10 code units, all
    but the last one digits, and the last one a digit or white space. *)
Lemma cifCheck_true_shape (code : jsstring) :
  cifCheck code = Ok true ->
  (List.length code <= 10)%nat
  /\ Forall (fun c => isDigit c = true) (sliceInit code)
  /\ Forall (fun c => isDigit c = true \/ isSpace c = true) (sliceLast code).
Proof.
  unfold cifCheck.
  destruct (isNaN_Number code); [discriminate|].
  destruct (Nat.ltb_spec 10 (List.length code)) as [Hl|Hl]; [discriminate|].
  destruct (padTo9 9 (sliceInit code)) as [code'|] eqn:Ep; [|discriminate].
  destruct (padTo9_shape _ _ Ep) as [Hl' [k Hk]].
  intros H. injection H as H.
  destruct (cifSum code') as [|z] eqn:Es; [discriminate H|].
  split; [exact Hl|]. split.
  - apply (@Forall_sliceInit _ (repeat 48%N k)). rewrite <- Hk.
    apply (cifSum_digits _ Hl' Es).
  - unfold sliceLast in *. destruct (rev code) as [|c r].
    + constructor.
    + cbn [numberOfUnit] in H. constructor; [|constructor].
      destruct (isDigit c); [left; reflexivity|].
      destruct (isSpace c); [right; reflexivity|].
      cbn [mul rem] in H. change (11 =? 0)%Z with false in H. cbv iota in H.
      destruct (strictEq (Int (Z.rem (z * 10) 11)) (Int 10)); discriminate H.
Qed.

(* ================================================================== *)
(** * Further properties of the validators *)
(* ================================================================== *)

(** ** [stripTaxIdPrefix]: the first "ro" is removed, wherever it is *)

Lemma matchHere_re_ro (prev : option N) (s : jsstring) :
  matchHere re_ro prev s
  = match s with
    | x :: y :: _ => if isR x && isO y then Some (2%nat, []) else None
    | _ => None
    end.
Proof.
  unfold matchHere, re_ro.
  change (LitI (str "ro")) with (Seq (ChrI 114) (Seq (ChrI 111) Empty)).
  unfold ChrI. cbn [run].
  change (inRange 97 122 114) with true. change (inRange 65 90 114) with false.
  change (inRange 97 122 111) with true. change (inRange 65 90 111) with false.
  change (114 - 32)%N with 82%N. change (111 - 32)%N with 79%N.
  cbn [andb]. unfold isR, isO.
  destruct s as [|x [|y t]]; try reflexivity.
  - rewrite !orb_false_r. destruct (N.eqb x 114 || N.eqb x 82); reflexivity.
  - rewrite !orb_false_r.
    destruct (N.eqb x 114 || N.eqb x 82); cbn [andb]; [|reflexivity].
    destruct (N.eqb y 111 || N.eqb y 79); reflexivity.
Qed.

Lemma execFrom_re_ro (s : jsstring) :
  forall prev,
    match execFrom re_ro prev s with
    | None => hasRo s = false
    | Some (pre, n, _) =>
        n = 2%nat
        /\ exists x y post,
             s = pre ++ x :: y :: post
             /\ isR x && isO y = true
             /\ hasRo (pre ++ [x]) = false
    end.
Proof.
  induction s as [|c s IH]; intros prev.
  - cbn [execFrom]. rewrite matchHere_re_ro. reflexivity.
  - cbn [execFrom]. rewrite matchHere_re_ro.
    destruct s as [|y t].
    + cbn [execFrom]. rewrite matchHere_re_ro. reflexivity.
    + destruct (isR c && isO y) eqn:E.
      * split; [reflexivity|]. exists c, y, t. repeat split; auto.
      * specialize (IH (Some c)).
        destruct (execFrom re_ro (Some c) (y :: t)) as [[[pre n] caps]|].
        -- destruct IH as [Hn (x & y' & post & Hs & Hxy & Hpre)].
           split; [exact Hn|]. exists x, y', post.
           split; [cbn [app]; rewrite Hs; reflexivity|].
           split; [exact Hxy|].
           cbn [app]. destruct pre as [|p pre].
           ++ cbn [app] in Hs. injection Hs as -> _.
              cbn [app hasRo]. rewrite E. reflexivity.
           ++ cbn [app] in Hs |- *. injection Hs as -> _.
              cbn [hasRo]. rewrite E. cbn [orb]. exact Hpre.
        -- cbn [hasRo]. rewrite E. cbn [orb]. exact IH.
Qed.

(** X1.  [stripTaxIdPrefix] throws on the empty string; otherwise it
    removes the first place where "r" is followed by "o" (in any casing),
    wherever that is, and only that one; a string without such a place is
    returned as it is. *)
Theorem stripTaxIdPrefix_first_ro (value : jsstring) :
  (value = [] -> stripTaxIdPrefix value = Throw Error missingVat)
  /\ (value <> [] -> hasRo value = false -> stripTaxIdPrefix value = Ok value)
  /\ (value <> [] -> hasRo value = true ->
      exists pre x y post,
        value = pre ++ x :: y :: post
        /\ isR x && isO y = true
        /\ hasRo (pre ++ [x]) = false
        /\ stripTaxIdPrefix value = Ok (pre ++ post)).
Proof.
  split; [intros ->; reflexivity|].
  pose proof (execFrom_re_ro value None) as H.
  split; intros Hne Hro; (destruct value as [|c v]; [congruence|]);
    unfold stripTaxIdPrefix, replaceFirst, exec;
    destruct (execFrom re_ro None (c :: v)) as [[[pre n] caps]|].
  - destruct H as [_ (x & y & post & Hs & Hxy & Hpre)].
    exfalso. rewrite Hs in Hro. clear - Hro Hxy Hpre.
    induction pre as [|p pre IH].
    + cbn [app hasRo] in Hro. rewrite Hxy in Hro. discriminate.
    + cbn [app] in Hro, Hpre. destruct pre as [|q pre].
      * cbn [app hasRo] in Hro, Hpre. rewrite Hxy in Hro.
        rewrite orb_true_r in Hro. discriminate.
      * cbn [app hasRo] in Hro, Hpre, IH.
        apply orb_false_iff in Hro, Hpre. apply IH; tauto.
  - reflexivity.
  - destruct H as [-> (x & y & post & Hs & Hxy & Hpre)].
    exists pre, x, y, post. repeat split; auto.
    rewrite Hs. do 2 f_equal. cbn [app].
    rewrite Nat.add_comm. cbn [Nat.add].
    clear. induction pre; cbn [app List.length skipn]; auto.
  - congruence.
Qed.

Lemma stripTaxIdPrefix_first_ro_witness :
  (exists pre x y post,
      str "16RO0796" = pre ++ x :: y :: post
      /\ isR x && isO y = true
      /\ hasRo (pre ++ [x]) = false
      /\ stripTaxIdPrefix (str "16RO0796") = Ok (pre ++ post))
  /\ stripTaxIdPrefix (str "160796") = Ok (str "160796")
  /\ stripTaxIdPrefix [] = Throw Error missingVat.
Proof.
  split; [|split].
  - apply (proj2 (proj2 (stripTaxIdPrefix_first_ro (str "16RO0796"))));
      [discriminate | reflexivity].
  - apply (proj1 (proj2 (stripTaxIdPrefix_first_ro (str "160796"))));
      [discriminate | reflexivity].
  - apply (proj1 (stripTaxIdPrefix_first_ro [])). reflexivity.
Defined.

(** ** [isValidCIF] on strings of digits *)

Lemma hasRo_digits (s : jsstring) : forallb isDigit s = true -> hasRo s = false.
Proof.
  induction s as [|x s IH]; intros H; [reflexivity|].
  cbn [forallb] in H. apply andb_prop in H. destruct H as [Hx H].
  cbn [hasRo]. destruct s as [|y t]; [reflexivity|].
  rewrite (IH H), orb_false_r.
  unfold isDigit, inRange in Hx. apply andb_prop in Hx. rewrite !N.leb_le in Hx.
  unfold isR. apply andb_false_iff. left.
  apply orb_false_iff. split; apply N.eqb_neq; lia.
Qed.

Lemma replaceFirst_no_ro (s : jsstring) :
  hasRo s = false -> replaceFirst re_ro [] s = s.
Proof.
  intros H. unfold replaceFirst, exec.
  pose proof (execFrom_re_ro s None) as E.
  destruct (execFrom re_ro None s) as [[[pre n] caps]|]; [|reflexivity].
  exfalso. destruct E as [_ (x & y & post & Hs & Hxy & Hpre)].
  rewrite Hs in H. clear - H Hxy.
  induction pre as [|p pre IH].
  - cbn [app hasRo] in H. rewrite Hxy in H. discriminate.
  - cbn [app] in H. destruct pre as [|q pre].
    + cbn [app hasRo] in H. rewrite Hxy, orb_true_r in H. discriminate.
    + cbn [app hasRo] in H, IH. apply orb_false_iff in H. apply IH. tauto.
Qed.

Lemma star_all (R : Type) (p : N -> bool) (k : cont R) (s : jsstring) :
  forall prev n caps x,
    forallb p s = true ->
    (forall prev', k prev' [] (n + List.length s)%nat caps = Some x) ->
    star p k prev s n caps = Some x.
Proof.
  induction s as [|c s IH]; intros prev n caps x Hs Hk.
  - cbn [star]. rewrite <- (Hk prev). cbn [List.length]. rewrite Nat.add_0_r.
    reflexivity.
  - cbn [forallb] in Hs. apply andb_prop in Hs. destruct Hs as [Hc Hs].
    cbn [star]. rewrite Hc. rewrite (IH (Some c) (S n) caps x Hs); [reflexivity|].
    intros prev'. rewrite <- (Hk prev'). cbn [List.length].
    rewrite Nat.add_succ_r. reflexivity.
Qed.

Lemma isDigit_not_space (c : N) : isDigit c = true -> isSpace c = false.
Proof.
  intros H. apply isLowerAlnum_not_space. unfold isLowerAlnum.
  unfold isDigit in H. rewrite H. apply orb_true_r.
Qed.

Lemma star_all_some (R : Type) (p : N -> bool) (k : cont R) (s : jsstring) :
  forall prev n caps,
    forallb p s = true ->
    (forall prev', k prev' [] (n + List.length s)%nat caps <> None) ->
    star p k prev s n caps <> None.
Proof.
  induction s as [|c s IH]; intros prev n caps Hs Hk.
  - cbn [star]. specialize (Hk prev). cbn [List.length] in Hk.
    rewrite Nat.add_0_r in Hk. exact Hk.
  - cbn [forallb] in Hs. apply andb_prop in Hs. destruct Hs as [Hc Hs].
    cbn [star]. rewrite Hc.
    assert (H : star p k (Some c) s (S n) caps <> None).
    { apply IH; [exact Hs|]. intros prev'. specialize (Hk prev').
      cbn [List.length] in Hk. rewrite Nat.add_succ_r in Hk. exact Hk. }
    destruct (star p k (Some c) s (S n) caps); [discriminate | congruence].
Qed.

(** [Number] of a string of digits is a number. *)
Lemma isNaN_Number_digits (s : jsstring) :
  forallb isDigit s = true -> isNaN_Number s = false.
Proof.
  intros Hs. unfold isNaN_Number, test, exec.
  destruct s as [|c s]; [reflexivity|].
  cbn [forallb] in Hs. apply andb_prop in Hs. destruct Hs as [Hc Hs].
  cbn [execFrom].
  destruct (matchHere re_stringNumericLiteral None (c :: s)) as [[n caps]|] eqn:E;
    [reflexivity|].
  exfalso. revert E.
  unfold matchHere, re_stringNumericLiteral.
  remember (fun (_ : option N) (_ : jsstring) (n : nat) (caps : list jsstring) =>
              Some (n, caps)) as final eqn:Ef.
  remember (Seq (Star isSpace) End_) as W eqn:EW.
  remember (Alt re_nonDecimal
              (Seq (Opt (Class (oneOf "+-"))) re_unsignedDecimal)) as Zr eqn:EZ.
  cbn [run star]. rewrite (isDigit_not_space _ Hc).
  destruct (run Zr (run W final) None (c :: s) 0%nat []) eqn:E1; [discriminate|].
  exfalso. revert E1. subst Zr. cbn [run].
  destruct (run re_nonDecimal (run W final) None (c :: s) 0%nat []);
    [discriminate|].
  remember re_unsignedDecimal as U eqn:EU.
  destruct (oneOf "+-" c);
    [destruct (run U (run W final) (Some c) s 1%nat []); [discriminate|] |];
    subst U; unfold re_unsignedDecimal, Plus;
    remember (Seq (Opt (Seq (Chr 46) (Star isDigit))) (Opt re_exponent)) as T eqn:ET;
    remember (Lit (str "Infinity")) as I eqn:EI;
    remember (Seq (Chr 46) (Seq (Seq (Class isDigit) (Star isDigit)) (Opt re_exponent)))
      as D2 eqn:ED2;
    cbn [run]; rewrite Hc;
    (destruct (run I (run W final) None (c :: s) 0%nat []); [discriminate|]);
    (assert (H : star isDigit (run T (run W final)) (Some c) s 1%nat [] <> None);
     [apply star_all_some; [exact Hs|];
      intros prev'; subst T W final; unfold re_exponent; cbn [run star]; discriminate
     |]);
    (destruct (star isDigit (run T (run W final)) (Some c) s 1%nat []);
     [discriminate | congruence]).
Qed.

Lemma cif_decision (last r : Z) :
  strictEq (if strictEq (Int r) (Int 10) then Int 0 else Int r) (Int last)
  = Z.eqb last (if Z.eqb r 10 then 0 else r)%Z.
Proof.
  cbn [strictEq]. destruct (Z.eqb r 10); cbn [strictEq]; apply Z.eqb_sym.
Qed.

Ltac cif_digits_case :=
  unfold cifCheck, cifControlDigit, cifSum, parseIntAt;
  cbn [List.length sliceLast sliceInit removelast rev app padTo9 Nat.eqb
       numberOfUnit seq combine cifWeights List.map fst snd nth_error fold_left
       last repeat Nat.sub weightedSum testingKey];
  repeat match goal with
         | |- context [Nat.ltb ?a ?b] =>
             let v := eval vm_compute in (Nat.ltb a b) in
             change (Nat.ltb a b) with v
         end;
  change (isDigit 48) with true; cbv iota;
  repeat match goal with
         | H : isDigit ?c = true |- _ => rewrite H; apply isDigit_value in H
         end;
  change (Z.of_N 48 - 48)%Z with 0%Z;
  repeat match goal with
         | |- context [(Z.of_N ?c - 48)%Z] =>
             change (Z.of_N c - 48)%Z with (digitValue c)
         end;
  cbn [add mul rem];
  change (11 =? 0)%Z with false; cbv iota;
  repeat match goal with
         | H : (0 <= digitValue ?c <= 9)%Z |- _ =>
             generalize dependent (digitValue c); clear c; intros
         end;
  match goal with
  | |- context [Z.rem ?a 11] =>
      rewrite (Z.rem_mod_nonneg a 11) by lia;
      match goal with
      | |- context [Z.eqb (?b mod 11) 10] => replace b with a by lia
      end
  end;
  f_equal; apply cif_decision.

Ltac cif_digits_len Hn Hl Hs :=
  unfold cifCheck; rewrite Hn; clear Hn Hl;
  cbn [forallb] in Hs;
  repeat (let Hc := fresh "Hc" in
          apply andb_prop in Hs; destruct Hs as [Hc Hs]);
  clear Hs; cif_digits_case.

Lemma cifCheck_digits (s : jsstring) :
  s <> [] -> (List.length s <= 10)%nat -> forallb isDigit s = true ->
  cifCheck s
  = Ok (Z.eqb (digitValue (last s 0%N))
              (cifControlDigit (List.map digitValue (removelast s)))).
Proof.
  intros Hne Hl Hs.
  assert (Hn : isNaN_Number s = false) by (apply isNaN_Number_digits; exact Hs).
  destruct s as [|c0 s]; [congruence|]. clear Hne.
  do 10 (destruct s as [|? s]; [cif_digits_len Hn Hl Hs|]).
  cbn [List.length] in Hl. lia.
Qed.

Lemma isValidCIF_no_ro (s : jsstring) :
  s <> [] -> hasRo s = false -> isValidCIF s = cifCheck s.
Proof.
  intros Hne H. rewrite (isValidCIF_nonempty Hne), (replaceFirst_no_ro _ H).
  reflexivity.
Qed.

(** X2.  On a string of 1 to 10 digits [isValidCIF] is the test that its
    comment describes: the last digit must be the control digit computed
    from the digits before it with the key 753217532. *)
Theorem isValidCIF_digits (s : jsstring) :
  s <> [] -> (List.length s <= 10)%nat -> forallb isDigit s = true ->
  isValidCIF s
  = Ok (Z.eqb (digitValue (last s 0%N))
              (cifControlDigit (List.map digitValue (removelast s)))).
Proof.
  intros Hne Hl Hs.
  rewrite (isValidCIF_no_ro Hne (hasRo_digits _ Hs)).
  apply cifCheck_digits; assumption.
Qed.

Lemma isValidCIF_digits_witness :
  isValidCIF (str "160796") = Ok true /\ isValidCIF (str "160797") = Ok false.
Proof.
  split.
  - rewrite (@isValidCIF_digits (str "160796"));
      [reflexivity | discriminate | cbn; lia | reflexivity].
  - rewrite (@isValidCIF_digits (str "160797"));
      [reflexivity | discriminate | cbn; lia | reflexivity].
Defined.

Lemma cifControlDigit_range (body : list Z) : (0 <= cifControlDigit body <= 9)%Z.
Proof.
  unfold cifControlDigit. cbv zeta.
  set (r := ((weightedSum _ testingKey * 10) mod 11)%Z).
  assert (H : (0 <= r < 11)%Z) by (apply Z.mod_pos_bound; lia).
  destruct (Z.eqb_spec r 10); lia.
Qed.

(** X3.  Every run of up to nine digits has exactly one control digit:
    [isValidCIF] accepts the digits followed by a digit [c] exactly when
    [c] is the control digit of the comment, which is always in 0-9. *)
Theorem isValidCIF_control_digit (body : jsstring) (c : N) :
  (List.length body <= 9)%nat -> forallb isDigit body = true -> isDigit c = true ->
  (0 <= cifControlDigit (List.map digitValue body) <= 9)%Z
  /\ (isValidCIF (body ++ [c]) = Ok true
      <-> digitValue c = cifControlDigit (List.map digitValue body)).
Proof.
  intros Hl Hb Hc. split; [apply cifControlDigit_range|].
  assert (Hs : forallb isDigit (body ++ [c]) = true).
  { rewrite forallb_app, Hb. cbn [forallb]. rewrite Hc. reflexivity. }
  assert (Hne : body ++ [c] <> []) by (destruct body; discriminate).
  rewrite (isValidCIF_no_ro Hne (hasRo_digits _ Hs)).
  rewrite cifCheck_digits; [|exact Hne| |exact Hs].
  - rewrite last_last, removelast_last.
    split; [intros H; injection H as H; apply Z.eqb_eq; exact H|].
    intros ->. rewrite Z.eqb_refl. reflexivity.
  - rewrite length_app. cbn [List.length]. lia.
Qed.

Lemma isValidCIF_control_digit_witness :
  isValidCIF (str "16079" ++ [54%N]) = Ok true.
Proof.
  apply (proj2 (@isValidCIF_control_digit (str "16079") 54%N
                  ltac:(cbn; lia) eq_refl eq_refl)).
  reflexivity.
Defined.

(** X4.  What [isValidCIF] accepts: after the first "ro" is removed, at
    most 10 code units are left, all of them digits except that the last
    one may be white space (and nothing at all may be left). *)
Theorem isValidCIF_accepts_only (v : jsstring) :
  isValidCIF v = Ok true ->
  exists stripped,
    stripTaxIdPrefix v = Ok stripped
    /\ (List.length stripped <= 10)%nat
    /\ Forall (fun c => isDigit c = true) (sliceInit stripped)
    /\ Forall (fun c => isDigit c = true \/ isSpace c = true) (sliceLast stripped).
Proof.
  unfold isValidCIF. destruct (stripTaxIdPrefix v) as [stripped| |] eqn:E;
    cbn [bind]; try discriminate.
  intros H. exists stripped. split; [reflexivity|].
  apply cifCheck_true_shape. exact H.
Qed.

Lemma isValidCIF_accepts_only_witness :
  exists stripped,
    stripTaxIdPrefix (str "RO160796") = Ok stripped
    /\ (List.length stripped <= 10)%nat
    /\ Forall (fun c => isDigit c = true) (sliceInit stripped)
    /\ Forall (fun c => isDigit c = true \/ isSpace c = true) (sliceLast stripped).
Proof.
  apply isValidCIF_accepts_only. reflexivity.
Defined.

Lemma isValidCNP_first_not_digit (c : N) (s : jsstring) :
  isDigit c = false -> isValidCNP (c :: s) = false.
Proof.
  intros H. unfold isValidCNP. rewrite test_re_cnp. cbn [exactly]. rewrite H.
  reflexivity.
Qed.

Lemma asciiLower_ro (p : jsstring) :
  List.map asciiLower p = str "ro" ->
  exists x y, p = [x; y] /\ isR x = true /\ isO y = true.
Proof.
  destruct p as [|x [|y [|z p]]]; try discriminate.
  intros H. injection H as Hx Hy. exists x, y. split; [reflexivity|].
  unfold asciiLower, inRange in Hx, Hy. unfold isR, isO.
  split.
  - destruct (N.leb_spec 65 x), (N.leb_spec x 90); cbn [andb] in Hx;
      apply orb_true_iff; rewrite !N.eqb_eq; lia.
  - destruct (N.leb_spec 65 y), (N.leb_spec y 90); cbn [andb] in Hy;
      apply orb_true_iff; rewrite !N.eqb_eq; lia.
Qed.

Lemma isR_not_digit (x : N) : isR x = true -> isDigit x = false.
Proof.
  unfold isR, isDigit, inRange. rewrite orb_true_iff, !N.eqb_eq.
  intros H. apply andb_false_iff. rewrite !N.leb_gt. lia.
Qed.

(** X5.  A leading "RO", in any casing, does not change what [isValidCIF]
    says of a run of digits, and [normalizeVatNumber] gives the same
    result, "RO" and the digits, with and without it. *)
Theorem isValidCIF_prefix_casing (p d : jsstring) :
  List.map asciiLower p = str "ro" -> d <> [] -> forallb isDigit d = true ->
  isValidCIF (p ++ d) = isValidCIF d
  /\ (isValidCIF d = Ok true ->
      normalizeVatNumber (p ++ d) = Ok (str "RO" ++ d)
      /\ normalizeVatNumber d = Ok (str "RO" ++ d)).
Proof.
  intros Hp Hne Hd.
  destruct (asciiLower_ro _ Hp) as (x & y & -> & Hx & Hy).
  assert (Hs : replaceFirst re_ro [] ([x; y] ++ d) = d).
  { unfold replaceFirst, exec. cbn [app execFrom].
    rewrite matchHere_re_ro, Hx, Hy. reflexivity. }
  assert (Hv : isValidCIF ([x; y] ++ d) = cifCheck d).
  { rewrite isValidCIF_nonempty by discriminate. rewrite Hs. reflexivity. }
  assert (Hv' : isValidCIF d = cifCheck d)
    by (apply isValidCIF_no_ro; [exact Hne | apply hasRo_digits; exact Hd]).
  split; [congruence|].
  intros Hok. rewrite Hv' in Hok.
  destruct (cifCheck_true_shape _ Hok) as [Hl _].
  split.
  - cbn [app] in *. unfold normalizeVatNumber.
    rewrite (@isValidCNP_first_not_digit x (y :: d) (@isR_not_digit x Hx)).
    rewrite Hv, Hok. cbn [bind].
    change (stripTaxIdPrefix (x :: y :: d))
      with (Ok (A:=jsstring) (replaceFirst re_ro [] (x :: y :: d))).
    rewrite Hs. reflexivity.
  - destruct d as [|c d]; [congruence|]. unfold normalizeVatNumber.
    assert (Hcnp : isValidCNP (c :: d) = false).
    { unfold isValidCNP. rewrite test_re_cnp.
      destruct (exactly isDigit 13 (c :: d)) eqn:E; [|reflexivity].
      apply exactly_spec in E. destruct E as [E _]. rewrite E in Hl. lia. }
    rewrite Hcnp, Hv', Hok. cbn [bind].
    change (stripTaxIdPrefix (c :: d))
      with (Ok (A:=jsstring) (replaceFirst re_ro [] (c :: d))).
    rewrite (replaceFirst_no_ro _ (hasRo_digits _ Hd)). reflexivity.
Qed.

Lemma isValidCIF_prefix_casing_witness :
  normalizeVatNumber (str "rO160796") = Ok (str "RO160796")
  /\ normalizeVatNumber (str "160796") = Ok (str "RO160796").
Proof.
  apply (proj2 (@isValidCIF_prefix_casing (str "rO") (str "160796")
                  eq_refl ltac:(discriminate) eq_refl)).
  reflexivity.
Defined.

(** X6.  No string is both a valid CNP and a valid CIF: what [isValidCNP]
    accepts, [isValidCIF] refuses. *)
Theorem isValidCNP_not_CIF (v : jsstring) :
  isValidCNP v = true -> isValidCIF v = Ok false.
Proof.
  intros H. unfold isValidCNP in H. rewrite test_re_cnp in H.
  destruct (exactly isDigit 13 v) eqn:E; [|discriminate H].
  apply exactly_spec in E. destruct E as [Hl Hd].
  assert (Hs : forallb isDigit v = true) by (apply forallb_forall, Forall_forall, Hd).
  assert (Hne : v <> []) by (destruct v; [discriminate Hl | discriminate]).
  rewrite (isValidCIF_no_ro Hne (hasRo_digits _ Hs)).
  unfold cifCheck. rewrite (isNaN_Number_digits _ Hs), Hl. reflexivity.
Qed.

Lemma isValidCNP_not_CIF_witness :
  isValidCIF (str "1960101123456") = Ok false.
Proof. apply isValidCNP_not_CIF. reflexivity. Defined.

(** ** [normalizeVatNumber] against the documented codes *)

Lemma isDigit_not_R (x : N) : isDigit x = true -> isR x = false.
Proof.
  intros H. destruct (isR x) eqn:E; [|reflexivity].
  apply isR_not_digit in E. congruence.
Qed.

Lemma stripLeadingRO_digits (v : jsstring) :
  forallb isDigit v = true -> stripLeadingRO v = v.
Proof.
  destruct v as [|x [|y rest]]; try reflexivity.
  cbn [forallb]. intros H. apply andb_prop in H. destruct H as [Hx _].
  cbn [stripLeadingRO]. rewrite (isDigit_not_R _ Hx). reflexivity.
Qed.

Lemma isValidCNP_length (v : jsstring) :
  List.length v <> 13%nat -> isValidCNP v = false.
Proof.
  intros H. unfold isValidCNP. rewrite test_re_cnp.
  destruct (exactly isDigit 13 v) eqn:E; [|reflexivity].
  apply exactly_spec in E. destruct E as [E _]. congruence.
Qed.

Lemma normalizeVatNumber_personal (v : jsstring) :
  isValidPersonalCode v -> normalizeVatNumber v = Ok v.
Proof.
  intros [H13 H].
  assert (E : isValidCNP v = true).
  { rewrite (isValidCNP_13 H13).
    destruct (JS.eqb v (str "0000000000000")) eqn:Ez; [reflexivity|].
    apply eqb_neq in Ez. destruct H as [H|[Hc [H1 H9]]]; [congruence|].
    cbv zeta. rewrite Hc, Z.eqb_refl.
    apply Z.leb_le in H1. apply Z.leb_le in H9. rewrite H1, H9. reflexivity. }
  destruct v as [|c v]; [destruct H13 as [Hl _]; discriminate Hl|].
  unfold normalizeVatNumber. rewrite E. reflexivity.
Qed.

(** A run of 1 to 10 digits: valid when the control digit is right, and
    then "RO" is put before it; otherwise returned as it is. *)
Lemma normalizeVatNumber_digits (d : jsstring) :
  d <> [] -> forallb isDigit d = true ->
  normalizeVatNumber d
  = Ok (if isValidCNP d then d
        else if Nat.leb (List.length d) 10
                && Z.eqb (digitValue (last d 0%N))
                         (cifControlDigit (List.map digitValue (removelast d)))
             then str "RO" ++ d else d).
Proof.
  intros Hne Hd.
  assert (Hv : isValidCIF d = cifCheck d)
    by (apply isValidCIF_no_ro; [exact Hne | apply hasRo_digits; exact Hd]).
  assert (Hs : stripTaxIdPrefix d = Ok d).
  { destruct d as [|c d]; [congruence|].
    change (stripTaxIdPrefix (c :: d))
      with (Ok (A:=jsstring) (replaceFirst re_ro [] (c :: d))).
    rewrite (replaceFirst_no_ro _ (hasRo_digits _ Hd)). reflexivity. }
  assert (Hn : normalizeVatNumber d
               = if isValidCNP d then Ok d
                 else valid <- isValidCIF d ;;
                      if (valid : bool)
                      then stripped <- stripTaxIdPrefix d ;; Ok (str "RO" ++ stripped)
                      else Ok d)
    by (destruct d; [congruence | reflexivity]).
  rewrite Hn, Hv, Hs. destruct (isValidCNP d); [reflexivity|].
  destruct (Nat.leb_spec (List.length d) 10) as [Hl|Hl]; cbn [andb].
  - rewrite (cifCheck_digits Hne Hl Hd). cbn [bind].
    destruct (Z.eqb _ _); reflexivity.
  - unfold cifCheck. rewrite (isNaN_Number_digits _ Hd).
    apply Nat.ltb_lt in Hl. rewrite Hl. reflexivity.
Qed.

(** "RO", in any casing, before a run of digits: the digits are checked
    and, when valid, "RO" is put before them. *)
Lemma normalizeVatNumber_RO_digits (x y : N) (d : jsstring) :
  isR x && isO y = true -> d <> [] -> forallb isDigit d = true ->
  (List.length d <= 10)%nat ->
  normalizeVatNumber (x :: y :: d)
  = Ok (if Z.eqb (digitValue (last d 0%N))
                 (cifControlDigit (List.map digitValue (removelast d)))
        then str "RO" ++ d else x :: y :: d).
Proof.
  intros Hxy Hne Hd Hl.
  apply andb_prop in Hxy. destruct Hxy as [Hx Hy].
  assert (Hs : replaceFirst re_ro [] (x :: y :: d) = d).
  { unfold replaceFirst, exec. cbn [execFrom].
    rewrite matchHere_re_ro, Hx, Hy. reflexivity. }
  unfold normalizeVatNumber.
  rewrite (@isValidCNP_first_not_digit x (y :: d) (@isR_not_digit x Hx)).
  rewrite isValidCIF_nonempty by discriminate.
  rewrite Hs, (cifCheck_digits Hne Hl Hd). cbn [bind].
  destruct (Z.eqb _ _); [|reflexivity].
  change (stripTaxIdPrefix (x :: y :: d))
    with (Ok (A:=jsstring) (replaceFirst re_ro [] (x :: y :: d))).
  rewrite Hs. reflexivity.
Qed.

(** C8.  [normalizeVatNumber] puts "RO" before strings that are neither a
    valid personal code nor a valid company code, where the claim has
    them returned unchanged: "16RO0796" ("ro" is removed from the
    middle), "31 " and " " (white space passes for a number).  The rest
    of the claim holds: the function throws exactly on the empty input, a
    valid personal code is returned unchanged, a valid company code comes
    back as "RO" and its digits, and a run of digits that is no valid
    code is returned unchanged. *)
Theorem normalizeVatNumber_prefixes_invalid_codes :
  (normalizeVatNumber (str "16RO0796") = Ok (str "RO160796")
   /\ isValidCompanyCode (str "16RO0796") = false
   /\ ~ isValidPersonalCode (str "16RO0796"))
  /\ (normalizeVatNumber (str "31 ") = Ok (str "RO31 ")
      /\ isValidCompanyCode (str "31 ") = false
      /\ ~ isValidPersonalCode (str "31 "))
  /\ (normalizeVatNumber (str " ") = Ok (str "RO ")
      /\ isValidCompanyCode (str " ") = false
      /\ ~ isValidPersonalCode (str " "))
  /\ (forall v,
        ((exists k m, normalizeVatNumber v = Throw k m) <-> v = [])
        /\ (isValidPersonalCode v -> normalizeVatNumber v = Ok v)
        /\ (isValidCompanyCode v = true ->
            normalizeVatNumber v = Ok (str "RO" ++ stripLeadingRO v))
        /\ (v <> [] -> forallb isDigit v = true ->
            ~ isValidPersonalCode v -> isValidCompanyCode v = false ->
            normalizeVatNumber v = Ok v)).
Proof.
  split; [|split; [|split]];
    try (split; [vm_compute; reflexivity|];
         split; [vm_compute; reflexivity|];
         intros [[Hl _] _]; discriminate Hl).
  intros v. split; [|split; [|split]].
  - split.
    + intros (k & m & H). destruct v as [|c v]; [reflexivity|].
      destruct (@normalizeVatNumber_returns (c :: v)) as (b & st & _ & _ & E);
        [discriminate|].
      rewrite E in H. discriminate H.
    + intros ->. exists Error, missingVat. reflexivity.
  - apply normalizeVatNumber_personal.
  - unfold isValidCompanyCode. cbv zeta.
    destruct (stripLeadingRO v) as [|c0 code0] eqn:Es; [discriminate|].
    rewrite <- Es. clear c0 code0 Es. intros H.
    apply andb_prop in H. destruct H as [H Hc].
    apply andb_prop in H. destruct H as [Hd Hl]. apply Nat.leb_le in Hl.
    assert (Hne : stripLeadingRO v <> []).
    { intros E. rewrite E in Hc, Hd, Hl. clear - Hc. vm_compute in Hc. discriminate. }
    destruct v as [|x [|y rest]].
    + exfalso. apply Hne. reflexivity.
    + cbn [stripLeadingRO] in *.
      rewrite (normalizeVatNumber_digits Hne Hd).
      rewrite isValidCNP_length by (cbn; lia).
      rewrite (proj2 (Nat.leb_le _ _) Hl), Hc. reflexivity.
    + cbn [stripLeadingRO] in *. destruct (isR x && isO y) eqn:Exy.
      * rewrite (@normalizeVatNumber_RO_digits x y rest Exy Hne Hd Hl), Hc. reflexivity.
      * rewrite (normalizeVatNumber_digits Hne Hd).
        rewrite isValidCNP_length by lia.
        rewrite (proj2 (Nat.leb_le _ _) Hl), Hc. reflexivity.
  - intros Hne Hd Hp Hc.
    rewrite (normalizeVatNumber_digits Hne Hd).
    destruct (isValidCNP v); [reflexivity|].
    unfold isValidCompanyCode in Hc. rewrite (stripLeadingRO_digits _ Hd) in Hc.
    cbv zeta in Hc. destruct v as [|c v]; [congruence|].
    rewrite Hd in Hc. cbn [andb] in Hc. rewrite Hc. reflexivity.
Qed.

Lemma normalizeVatNumber_prefixes_invalid_codes_witness :
  normalizeVatNumber (str "ro160796") = Ok (str "RO160796")
  /\ normalizeVatNumber (str "1960101123456") = Ok (str "1960101123456")
  /\ normalizeVatNumber (str "160797") = Ok (str "160797").
Proof.
  destruct (proj2 (proj2 (proj2 normalizeVatNumber_prefixes_invalid_codes))
              (str "ro160796")) as [_ [_ [Hc _]]].
  destruct (proj2 (proj2 (proj2 normalizeVatNumber_prefixes_invalid_codes))
              (str "1960101123456")) as [_ [Hp _]].
  destruct (proj2 (proj2 (proj2 normalizeVatNumber_prefixes_invalid_codes))
              (str "160797")) as [_ [_ [_ Hd]]].
  split; [|split].
  - apply Hc. reflexivity.
  - apply Hp. split; [split; [reflexivity | repeat constructor]|].
    right. split; vm_compute; [reflexivity | split; discriminate].
  - apply Hd; [discriminate | reflexivity | | reflexivity].
    intros [[Hl _] _]. discriminate Hl.
Defined.

(* ================================================================== *)
(** * Further properties of the address sanitizer *)
(* ================================================================== *)

Import Country.

(** ** Blank input *)

Lemma trimStart_blank (s : jsstring) : forallb isSpace s = true -> trimStart s = [].
Proof.
  induction s as [|c s IH]; intros H; [reflexivity|].
  cbn [forallb] in H. apply andb_prop in H. destruct H as [Hc H].
  cbn [trimStart]. rewrite Hc. auto.
Qed.

Lemma trim_blank (s : jsstring) : forallb isSpace s = true -> trim s = [].
Proof.
  intros H. unfold trim. rewrite (trimStart_blank _ H). reflexivity.
Qed.

(** X7.  A value that is not a string, the empty string and a string of
    white space only have no normal form: [normalizeInput],
    [sanitizeCounty], [sanitizeBucharestSector] and
    [getCountryCodeByInput] all answer null, whatever the country table. *)
Theorem blank_input_null (table : list Country) (s : jsstring) :
  (normalizeInput None = None
   /\ sanitizeCounty None = None
   /\ sanitizeBucharestSector None = None)
  /\ (forallb isSpace s = true ->
      normalizeInput (Some s) = None
      /\ sanitizeCounty (Some s) = None
      /\ sanitizeBucharestSector (Some s) = None
      /\ getCountryCodeByInput table s = None).
Proof.
  split; [repeat split|].
  intros H.
  assert (E : normalizeInput (Some s) = None)
    by (unfold normalizeInput; rewrite (trim_blank _ H); reflexivity).
  unfold sanitizeCounty, sanitizeBucharestSector, getCountryCodeByInput.
  rewrite E. repeat split.
Qed.

Lemma blank_input_null_witness :
  sanitizeCounty (Some (str "   ")) = None
  /\ getCountryCodeByInput [mkCountry (str "Romania") (str "RO")] (str " ") = None.
Proof.
  destruct (proj2 (blank_input_null [mkCountry (str "Romania") (str "RO")] (str "   "))
              eq_refl) as (_ & H & _ & _).
  destruct (proj2 (blank_input_null [mkCountry (str "Romania") (str "RO")] (str " "))
              eq_refl) as (_ & _ & _ & H').
  split; assumption.
Defined.

(** ** What is left in a normal form *)

Lemma In_replaceAllFrom (r : regex) (repl : jsstring) (c : N) (s : jsstring) :
  forall prev skip,
    In c (replaceAllFrom r repl prev s skip) -> In c repl \/ In c s.
Proof.
  induction s as [|x s IH]; intros prev skip; cbn [replaceAllFrom].
  - destruct skip; [|intros []].
    destruct (matchHere r prev []); [tauto | intros []].
  - destruct skip as [|k].
    + destruct (matchHere r prev (x :: s)) as [[[|n] caps]|].
      * intros H. apply in_app_or in H. destruct H as [H|[H|H]].
        -- tauto.
        -- right. left. exact H.
        -- destruct (IH _ _ H); [tauto | right; right; assumption].
      * intros H. apply in_app_or in H. destruct H as [H|H]; [tauto|].
        destruct (IH _ _ H); [tauto | right; right; assumption].
      * intros [H|H]; [right; left; exact H|].
        destruct (IH _ _ H); [tauto | right; right; assumption].
    + intros H. destruct (IH _ _ H); [tauto | right; right; assumption].
Qed.

Lemma star_final (p : N -> bool) (s : jsstring) :
  forall prev n caps,
    exists n', (n <= n')%nat
      /\ star p (fun _ _ m cs => Some (m, cs)) prev s n caps = Some (n', caps).
Proof.
  induction s as [|c s IH]; intros prev n caps; cbn [star].
  - exists n. split; [lia | reflexivity].
  - destruct (p c).
    + destruct (IH (Some c) (S n) caps) as (n' & Hn & E). rewrite E.
      exists n'. split; [lia | reflexivity].
    + exists n. split; [lia | reflexivity].
Qed.

Lemma matchHere_Plus (p : N -> bool) (prev : option N) (c : N) (s : jsstring) :
  if p c
  then exists k, matchHere (Plus p) prev (c :: s) = Some (S k, [])
  else matchHere (Plus p) prev (c :: s) = None.
Proof.
  unfold matchHere, Plus. cbn [run]. destruct (p c); [|reflexivity].
  destruct (star_final p s (Some c) 1 []) as (n' & Hn & E).
  destruct n' as [|k]; [lia|]. exists k. exact E.
Qed.

(** A global replacement of [[class]+] leaves no code unit of the class
    but those of the replacement. *)
Lemma In_replaceAll_Plus (p : N -> bool) (repl : jsstring) (c : N) (s : jsstring) :
  forall prev skip,
    In c (replaceAllFrom (Plus p) repl prev s skip) ->
    In c repl \/ (In c s /\ p c = false).
Proof.
  induction s as [|x s IH]; intros prev skip; cbn [replaceAllFrom].
  - destruct skip; [|intros []].
    destruct (matchHere (Plus p) prev []); [tauto | intros []].
  - destruct skip as [|k].
    + pose proof (matchHere_Plus p prev x s) as M.
      destruct (p x) eqn:Px.
      * destruct M as [k M]. rewrite M. intros H.
        apply in_app_or in H. destruct H as [H|H]; [tauto|].
        destruct (IH _ _ H) as [|[? ?]]; [tauto | right; split; [right|]; assumption].
      * rewrite M. intros [H|H]; [subst; right; split; [left; reflexivity | exact Px]|].
        destruct (IH _ _ H) as [|[? ?]]; [tauto | right; split; [right|]; assumption].
    + intros H.
      destruct (IH _ _ H) as [|[? ?]]; [tauto | right; split; [right|]; assumption].
Qed.

Lemma In_trimStart (c : N) (s : jsstring) : In c (trimStart s) -> In c s.
Proof.
  induction s as [|x s IH]; cbn [trimStart]; [tauto|].
  destruct (isSpace x); [intros H; right; auto | tauto].
Qed.

Lemma In_trim (c : N) (s : jsstring) : In c (trim s) -> In c s.
Proof.
  unfold trim, trimEnd. intros H.
  apply In_trimStart. apply in_rev. apply In_trimStart. apply in_rev. exact H.
Qed.

Lemma trimStart_head (s : jsstring) :
  match trimStart s with c :: _ => isSpace c = false | [] => True end.
Proof.
  induction s as [|x s IH]; cbn [trimStart]; [exact I|].
  destruct (isSpace x) eqn:E; [exact IH | exact E].
Qed.

Lemma trimStart_snoc (a : jsstring) (c : N) :
  isSpace c = false -> trimStart (a ++ [c]) = trimStart a ++ [c].
Proof.
  intros Hc. induction a as [|x a IH]; cbn [app trimStart].
  - rewrite Hc. reflexivity.
  - destruct (isSpace x); [exact IH | reflexivity].
Qed.

(** A trimmed string neither begins nor ends with white space. *)
Lemma trim_ends (s : jsstring) :
  match trim s with c :: _ => isSpace c = false | [] => True end
  /\ match rev (trim s) with c :: _ => isSpace c = false | [] => True end.
Proof.
  unfold trim, trimEnd. split.
  - pose proof (trimStart_head s) as H.
    destruct (trimStart s) as [|c t]; [exact I|].
    cbn [rev]. rewrite (@trimStart_snoc (rev t) c H), rev_app_distr. exact H.
  - rewrite rev_involutive. apply trimStart_head.
Qed.

Lemma normalChar_32 : normalChar 32.
Proof. split; [reflexivity | auto]. Qed.

Lemma normalChar_letters (w : string) :
  forallb isLowerAlnum (str w) = true -> Forall normalChar (str w).
Proof.
  intros H. apply Forall_forall. intros c Hc.
  rewrite forallb_forall in H. specialize (H c Hc).
  split.
  - assert (T : textChar c = true) by (unfold textChar; rewrite H; reflexivity).
    apply textChar_range in T.
    change (oneOf "._,-" c)
      with (N.eqb c 46 || (N.eqb c 95 || (N.eqb c 44 || (N.eqb c 45 || false)))).
    repeat (apply orb_false_iff; split); try reflexivity; apply N.eqb_neq; lia.
  - rewrite (isLowerAlnum_not_space _ H). discriminate.
Qed.

Lemma normalChar_replaceAll (r : regex) (repl s : jsstring) :
  Forall normalChar repl -> Forall normalChar s ->
  Forall normalChar (replaceAll r repl s).
Proof.
  rewrite !Forall_forall. intros Hr Hs c Hc.
  destruct (In_replaceAllFrom _ _ _ _ _ _ Hc); auto.
Qed.

Lemma normalChar_trim (s : jsstring) :
  Forall normalChar s -> Forall normalChar (trim s).
Proof.
  rewrite !Forall_forall. intros Hs c Hc. apply Hs, In_trim, Hc.
Qed.

Lemma normalChar_chain (s : jsstring) : Forall normalChar (normalizeChain s).
Proof.
  unfold normalizeChain.
  set (x := replaceAll re_t_cedilla _ _).
  assert (A : forall c, In c (replaceAll re_separators (str " ") x) ->
                        oneOf "._,-" c = false).
  { intros c Hc. unfold replaceAll, re_separators in Hc.
    apply In_replaceAll_Plus in Hc. destruct Hc as [[<-|[]]|[_ H]];
      [reflexivity | exact H]. }
  assert (B : Forall normalChar
                (replaceAll re_spaces (str " ")
                   (replaceAll re_separators (str " ") x))).
  { apply Forall_forall. intros c Hc. unfold replaceAll at 1, re_spaces in Hc.
    apply In_replaceAll_Plus in Hc. destruct Hc as [[<-|[]]|[Hc H]].
    - apply normalChar_32.
    - split; [apply A, Hc | rewrite H; discriminate]. }
  apply normalChar_trim.
  repeat (apply normalChar_replaceAll;
          [apply normalChar_letters; reflexivity|]).
  exact B.
Qed.

(** X8.  A normal form holds none of the separators [. _ , -] and no white
    space code unit other than U+0020, and it neither begins nor ends with
    white space. *)
Theorem normalizeInput_normal (input : option jsstring) (out : jsstring) :
  normalizeInput input = Some out ->
  Forall normalChar out
  /\ match out with c :: _ => isSpace c = false | [] => True end
  /\ match rev out with c :: _ => isSpace c = false | [] => True end.
Proof.
  unfold normalizeInput. destruct input as [s|]; [|discriminate].
  destruct (trim s) as [|c t]; [discriminate|].
  intros H. injection H as <-.
  split; [apply normalChar_chain|].
  unfold normalizeChain. apply trim_ends.
Qed.

Lemma normalizeInput_normal_witness :
  Forall normalChar (str "bistrita nasaud").
Proof.
  apply (@normalizeInput_normal (Some (str " Bistrita-Nasaud, ")) (str "bistrita nasaud")).
  vm_compute. reflexivity.
Defined.

(** ** The county table *)

Lemma normalChar_strip (n : jsstring) :
  Forall normalChar n -> Forall normalChar (stripAdministrativeWords n).
Proof.
  intros H. unfold stripAdministrativeWords. apply normalChar_trim.
  apply normalChar_replaceAll; [repeat constructor; apply normalChar_32|].
  repeat (apply normalChar_replaceAll; [constructor|]).
  exact H.
Qed.

Lemma hyphenated_not_normal (key : string) :
  hyphenated key = true -> ~ Forall normalChar (str key).
Proof.
  unfold hyphenated. intros H F. apply existsb_exists in H.
  destruct H as (x & Hx & E). apply N.eqb_eq in E. subst x.
  rewrite Forall_forall in F. destruct (F _ Hx) as [F1 _]. discriminate F1.
Qed.

(** X9.  The keys of the county table that hold a hyphen are never hit:
    neither the normal form of an input nor what is left of it once the
    administrative words are removed is equal to such a key
    ("bistrita-nasaud", "caras-severin", "satu-mare"). *)
Theorem hyphenated_keys_unused (input : option jsstring) (n : jsstring) (key : string) :
  List.map fst (filter (fun e => hyphenated (fst e)) RO_ISO_3166_2_RO_MAP)
  = ["bistrita-nasaud"; "caras-severin"; "satu-mare"]%string
  /\ (normalizeInput input = Some n -> hyphenated key = true ->
      JS.eqb n (str key) = false
      /\ JS.eqb (stripAdministrativeWords n) (str key) = false).
Proof.
  split; [vm_compute; reflexivity|].
  intros Hn Hk.
  assert (F : Forall normalChar n).
  { unfold normalizeInput in Hn. destruct input as [s|]; [|discriminate].
    destruct (trim s); [discriminate|]. injection Hn as <-.
    apply normalChar_chain. }
  split; apply eqb_neq; intros E; apply (hyphenated_not_normal _ Hk);
    rewrite <- E; [exact F | apply normalChar_strip, F].
Qed.

Lemma hyphenated_keys_unused_witness :
  JS.eqb (str "satu mare") (str "satu-mare") = false
  /\ JS.eqb (stripAdministrativeWords (str "satu mare")) (str "satu-mare") = false.
Proof.
  apply (proj2 (@hyphenated_keys_unused (Some (str "Satu-Mare")) (str "satu mare")
                  "satu-mare")); reflexivity.
Defined.

Lemma mapGet_In (m : list (string * string)) (key code : jsstring) :
  mapGet m key = Some code ->
  exists k v, In (k, v) m /\ key = str k /\ code = str v.
Proof.
  induction m as [|[k v] m IH]; cbn [mapGet]; [discriminate|].
  destruct (JS.eqb key (str k)) eqn:E.
  - intros H. injection H as <-. apply eqb_eq in E.
    exists k, v. split; [left; reflexivity | split; [exact E | reflexivity]].
  - intros H. destruct (IH H) as (k' & v' & Hin & Hk & Hv).
    exists k', v'. split; [right; exact Hin | tauto].
Qed.

(** Whatever [sanitizeCounty] returns is a value of the table, found under
    the normal form of the input or under what is left of it. *)
Lemma sanitizeCounty_In (input : option jsstring) (code : jsstring) :
  sanitizeCounty input = Some code ->
  exists n k v,
    normalizeInput input = Some n
    /\ In (k, v) RO_ISO_3166_2_RO_MAP /\ code = str v
    /\ (n = str k \/ stripAdministrativeWords n = str k).
Proof.
  unfold sanitizeCounty.
  destruct (normalizeInput input) as [[|c n]|]; try discriminate.
  destruct (mapGet RO_ISO_3166_2_RO_MAP (c :: n)) as [direct|] eqn:E.
  - intros H. injection H as <-.
    destruct (mapGet_In _ _ E) as (k & v & Hin & Hk & Hv).
    exists (c :: n), k, v. repeat split; auto.
  - destruct (stripAdministrativeWords (c :: n)) as [|c' n'] eqn:Es;
      [discriminate|].
    destruct (negb (JS.eqb (c' :: n') (c :: n))); [|discriminate].
    intros H. destruct (mapGet_In _ _ H) as (k & v & Hin & Hk & Hv).
    exists (c :: n), k, v. repeat split; auto.
    right. rewrite Es. exact Hk.
Qed.

Lemma codes_are_not_names :
  forallb (fun e => match sanitizeCounty (Some (str (snd e))) with
                    | None => true
                    | Some _ => false
                    end)
          RO_ISO_3166_2_RO_MAP = true.
Proof. vm_compute. reflexivity. Qed.

(** X10.  [sanitizeCounty] returns nothing but the codes of its table, and
    it does not take a code for a name: applied to its own result it
    returns null. *)
Theorem sanitizeCounty_codes (input : option jsstring) (code : jsstring) :
  sanitizeCounty input = Some code ->
  (exists k v, In (k, v) RO_ISO_3166_2_RO_MAP /\ code = str v)
  /\ sanitizeCounty (Some code) = None.
Proof.
  intros H. destruct (sanitizeCounty_In _ H) as (n & k & v & _ & Hin & -> & _).
  split; [exists k, v; tauto|].
  pose proof codes_are_not_names as F. rewrite forallb_forall in F.
  specialize (F _ Hin). cbn [snd] in F.
  destruct (sanitizeCounty (Some (str v))); [discriminate | reflexivity].
Qed.

Lemma sanitizeCounty_codes_witness :
  sanitizeCounty (Some (str "RO-CJ")) = None.
Proof.
  apply (proj2 (@sanitizeCounty_codes (Some (str "Judetul Cluj")) (str "RO-CJ") eq_refl)).
Defined.

(** ** Bucharest sectors *)

Lemma star_inv (R : Type) (P : R -> Prop) (caps0 : list jsstring)
    (p : N -> bool) (k : cont R) :
  (forall prev s n x, k prev s n caps0 = Some x -> P x) ->
  forall s prev n x, star p k prev s n caps0 = Some x -> P x.
Proof.
  intros Hk. induction s as [|c s IH]; intros prev n x; cbn [star].
  - apply Hk.
  - destruct (p c); [|apply Hk].
    destruct (star p k (Some c) s (S n) caps0) eqn:E.
    + intros H. injection H as <-. apply (IH _ _ _ E).
    + apply Hk.
Qed.

(** A pattern without group hands the captures on as they are: what
    holds of every result of the continuation holds of every result. *)
Lemma run_groupFree (R : Type) (P : R -> Prop) (caps0 : list jsstring) (r : regex) :
  groupFree r = true ->
  forall k : cont R,
    (forall prev s n x, k prev s n caps0 = Some x -> P x) ->
    forall prev s n x, run r k prev s n caps0 = Some x -> P x.
Proof.
  induction r as [|p|r1 IH1 r2 IH2|r1 IH1 r2 IH2|r1 IH1|p| | | |r1 IH1];
    cbn [groupFree]; intros G k Hk prev s n x; cbn [run].
  - apply Hk.
  - destruct s as [|c s]; [discriminate|]. destruct (p c); [apply Hk | discriminate].
  - apply andb_prop in G. destruct G as [G1 G2].
    apply (IH1 G1). intros prev' s' n' x'. apply (IH2 G2 k Hk).
  - apply andb_prop in G. destruct G as [G1 G2].
    destruct (run r1 k prev s n caps0) eqn:E.
    + intros H. injection H as <-. apply (IH1 G1 k Hk _ _ _ _ E).
    + apply (IH2 G2 k Hk).
  - destruct (run r1 k prev s n caps0) eqn:E.
    + intros H. injection H as <-. apply (IH1 G k Hk _ _ _ _ E).
    + apply Hk.
  - apply star_inv. exact Hk.
  - destruct (xorb _ _); [apply Hk | discriminate].
  - destruct prev; [discriminate | apply Hk].
  - destruct s; [apply Hk | discriminate].
  - discriminate G.
Qed.

(** Every match of the pattern of [extractSectorNumber] captures one
    code unit, a digit from 1 to 6. *)
Lemma matchHere_re_sector (prev : option N) (s : jsstring) (n : nat)
    (caps : list jsstring) :
  matchHere re_sector prev s = Some (n, caps) ->
  exists c, caps = [[c]] /\ inRange 49 54 c = true.
Proof.
  unfold matchHere, re_sector.
  set (final := fun (_ : option N) (_ : jsstring) (m : nat) (cs : list jsstring) =>
                  Some (m, cs)).
  set (A := Alt _ _).
  change (run (Seq WordBoundary
                 (Seq A (Seq (Star isSpace)
                    (Seq (Opt (Class (oneOf ":.-")))
                       (Seq (Star isSpace)
                          (Seq (Opt (Chr 48))
                             (Seq (Group (Class (inRange 49 54))) WordBoundary)))))))
              final prev s 0%nat [])
    with (run (Seq WordBoundary
                 (Seq A (Seq (Star isSpace)
                    (Seq (Opt (Class (oneOf ":.-")))
                       (Seq (Star isSpace) (Opt (Chr 48)))))))
              (run (Seq (Group (Class (inRange 49 54))) WordBoundary) final)
              prev s 0%nat []).
  apply (@run_groupFree _
           (fun x => exists c, snd x = [[c]] /\ inRange 49 54 c = true) []).
  - reflexivity.
  - clear. intros prev s n x. cbn [run].
    destruct s as [|c s]; [discriminate|].
    destruct (inRange 49 54 c) eqn:E; [|discriminate].
    destruct (xorb _ _); [|discriminate].
    intros H. injection H as <-. exists c. cbn [snd app].
    change (match n with O => S n | S l => (n - l)%nat end) with (S n - n)%nat.
    replace (S n - n)%nat with 1%nat by lia.
    split; [reflexivity | exact E].
Qed.

Lemma execFrom_re_sector (s : jsstring) :
  forall prev pre n caps,
    execFrom re_sector prev s = Some (pre, n, caps) ->
    exists c, caps = [[c]] /\ inRange 49 54 c = true.
Proof.
  induction s as [|x s IH]; intros prev pre n caps; cbn [execFrom].
  - destruct (matchHere re_sector prev []) as [[n' caps']|] eqn:E; [|discriminate].
    intros H. injection H as _ <- <-. apply (matchHere_re_sector _ _ E).
  - destruct (matchHere re_sector prev (x :: s)) as [[n' caps']|] eqn:E.
    + intros H. injection H as _ <- <-. apply (matchHere_re_sector _ _ E).
    + destruct (execFrom re_sector (Some x) s) as [[[pre' n'] caps']|] eqn:E';
        [|discriminate].
      intros H. injection H as _ <- <-. apply (IH _ _ _ _ E').
Qed.

(** X11.  Whenever the pattern of [extractSectorNumber] matches, a sector
    from 1 to 6 comes out: the range test after the match never refuses. *)
Theorem extractSectorNumber_iff_match (normalized : jsstring) :
  (extractSectorNumber normalized = None <-> test re_sector normalized = false)
  /\ (forall sector, extractSectorNumber normalized = Some sector ->
                     (1 <= sector <= 6)%N).
Proof.
  unfold extractSectorNumber, test, exec.
  destruct (execFrom re_sector None normalized) as [[[pre n] caps]|] eqn:E.
  - destruct (execFrom_re_sector _ _ E) as (c & -> & Hc).
    cbn [nth numberOfUnit].
    unfold inRange in Hc. apply andb_prop in Hc. rewrite !N.leb_le in Hc.
    assert (Hd : isDigit c = true).
    { unfold isDigit, inRange. apply andb_true_iff. rewrite !N.leb_le. lia. }
    rewrite Hd.
    assert (Hr : (1 <=? Z.of_N c - 48)%Z && (Z.of_N c - 48 <=? 6)%Z = true).
    { apply andb_true_iff. rewrite !Z.leb_le. lia. }
    rewrite Hr. split.
    + split; discriminate.
    + intros sector H. injection H as <-. lia.
  - split; [tauto | discriminate].
Qed.

Lemma extractSectorNumber_iff_match_witness :
  (1 <= 3 <= 6)%N.
Proof.
  apply (proj2 (extractSectorNumber_iff_match (str "sectorul 3")) 3%N).
  reflexivity.
Defined.

(** X12.  [sanitizeBucharestSector] returns nothing but SECTOR1 to
    SECTOR6, and such a result is read back as itself. *)
Theorem sanitizeBucharestSector_codes (cityInput : option jsstring) (out : jsstring) :
  sanitizeBucharestSector cityInput = Some out ->
  In out sectorCodes /\ sanitizeBucharestSector (Some out) = Some out.
Proof.
  unfold sanitizeBucharestSector at 1.
  destruct (normalizeInput cityInput) as [[|c n]|]; try discriminate.
  destruct (extractSectorNumber (c :: n)) as [sector|] eqn:E; [|discriminate].
  intros H. injection H as <-.
  unfold extractSectorNumber in E.
  destruct (exec re_sector (c :: n)) as [[[pre k] caps]|]; [|discriminate].
  destruct (numberOfUnit (nth 0 caps [])) as [|z]; [discriminate|].
  destruct (Z.leb_spec 1 z); [|discriminate].
  destruct (Z.leb_spec z 6); [|discriminate].
  cbn [andb] in E. injection E as <-.
  assert (Hz : (z = 1 \/ z = 2 \/ z = 3 \/ z = 4 \/ z = 5 \/ z = 6)%Z) by lia.
  destruct Hz as [->|[->|[->|[->|[->| ->]]]]];
    (split; [vm_compute; tauto | vm_compute; reflexivity]).
Qed.

Lemma sanitizeBucharestSector_codes_witness :
  sanitizeBucharestSector (Some (str "SECTOR3")) = Some (str "SECTOR3").
Proof.
  apply (proj2 (@sanitizeBucharestSector_codes (Some (str "sector.03")) (str "SECTOR3")
                  eq_refl)).
Defined.

(** ** Normal forms again: idempotence, white space and casing *)

Lemma expand_fixed (w : jsstring) : expand (expand w) = expand w.
Proof.
  unfold expand, expandWord.
  destruct (inWords ["mun"]%string w) eqn:E1; [vm_compute; reflexivity|].
  destruct (inWords ["judt"; "judet"; "judtul"; "judetul"]%string w) eqn:E2;
    [vm_compute; reflexivity|].
  destruct (inWords ["sect"; "sector"; "sectorul"]%string w) eqn:E3;
    [vm_compute; reflexivity|].
  rewrite E1, E2, E3. reflexivity.
Qed.

Lemma expand_isWord (ws : list jsstring) :
  forallb isWord ws = true -> forallb isWord (List.map expand ws) = true.
Proof.
  intros H.
  pose proof (@expandWord_isWord ["mun"]%string "municipiul" ws eq_refl H) as H1.
  pose proof (@expandWord_isWord ["judt"; "judet"; "judtul"; "judetul"]%string
                "judetul" _ eq_refl H1) as H2.
  pose proof (@expandWord_isWord ["sect"; "sector"; "sectorul"]%string
                "sectorul" _ eq_refl H2) as H3.
  rewrite !map_map in H3. exact H3.
Qed.

(** X13.  On a text of lower-case words the normal form is stable:
    normalising it again changes nothing. *)
Theorem normalizeInput_idempotent_words (ws : list jsstring) :
  ws <> [] -> forallb isWord ws = true ->
  exists out,
    normalizeInput (Some (unwords ws)) = Some out
    /\ normalizeInput (Some out) = Some out.
Proof.
  intros Hne H. exists (unwords (List.map expand ws)).
  split; [apply normalizeInput_unwords; assumption|].
  rewrite normalizeInput_unwords.
  - rewrite map_map. do 2 f_equal. apply map_ext. intros w. apply expand_fixed.
  - destruct ws; [congruence | discriminate].
  - apply expand_isWord. exact H.
Qed.

Lemma normalizeInput_idempotent_words_witness :
  exists out,
    normalizeInput (Some (str "mun cluj sect 3")) = Some out
    /\ normalizeInput (Some out) = Some out.
Proof.
  apply (@normalizeInput_idempotent_words [str "mun"; str "cluj"; str "sect"; str "3"]);
    [discriminate | reflexivity].
Defined.

Lemma trimStart_pad (a s : jsstring) :
  forallb isSpace a = true -> trimStart (a ++ s) = trimStart s.
Proof.
  induction a as [|c a IH]; intros H; [reflexivity|].
  cbn [forallb] in H. apply andb_prop in H. destruct H as [Hc H].
  cbn [app trimStart]. rewrite Hc. auto.
Qed.

Lemma forallb_rev {A} (p : A -> bool) (l : list A) :
  forallb p (rev l) = forallb p l.
Proof.
  induction l as [|x l IH]; [reflexivity|].
  cbn [rev forallb]. rewrite forallb_app, IH. cbn [forallb].
  rewrite andb_true_r. apply andb_comm.
Qed.

Lemma trimStart_keeps_end (s b : jsstring) :
  trimStart (s ++ b) = trimStart s ++ b \/ trimStart s = [].
Proof.
  induction s as [|c s IH]; [right; reflexivity|].
  cbn [app trimStart]. destruct (isSpace c); [exact IH | left; reflexivity].
Qed.

Lemma trim_pad (a s b : jsstring) :
  forallb isSpace a = true -> forallb isSpace b = true ->
  trim (a ++ s ++ b) = trim s.
Proof.
  intros Ha Hb. unfold trim. rewrite (@trimStart_pad a _ Ha).
  unfold trimEnd.
  destruct (trimStart_keeps_end s b) as [E|E].
  - rewrite E, rev_app_distr, trimStart_pad; [reflexivity|].
    rewrite forallb_rev. exact Hb.
  - rewrite E. cbn [rev trimStart].
    assert (Hs : forallb isSpace s = true).
    { clear - E. induction s as [|c s IH]; [reflexivity|].
      cbn [trimStart] in E. destruct (isSpace c) eqn:Ec; [|discriminate].
      cbn [forallb]. rewrite Ec. auto. }
    rewrite (@trimStart_blank (s ++ b)); [reflexivity|].
    rewrite forallb_app, Hs, Hb. reflexivity.
Qed.

(** X14.  White space around the input is ignored by the normal form and
    by every function built on it or on [trim]: [sanitizeCounty],
    [sanitizeBucharestSector], [isBucharest], [getCountryCodeByInput] and
    [getCountryFromTaxId]. *)
Theorem surrounding_space_ignored (table : list Country) (a s b : jsstring) :
  forallb isSpace a = true -> forallb isSpace b = true ->
  normalizeInput (Some (a ++ s ++ b)) = normalizeInput (Some s)
  /\ sanitizeCounty (Some (a ++ s ++ b)) = sanitizeCounty (Some s)
  /\ sanitizeBucharestSector (Some (a ++ s ++ b)) = sanitizeBucharestSector (Some s)
  /\ isBucharest (Some (a ++ s ++ b)) = isBucharest (Some s)
  /\ getCountryCodeByInput table (a ++ s ++ b) = getCountryCodeByInput table s
  /\ getCountryFromTaxId table (a ++ s ++ b) = getCountryFromTaxId table s.
Proof.
  intros Ha Hb. pose proof (@trim_pad a s b Ha Hb) as T.
  assert (E : normalizeInput (Some (a ++ s ++ b)) = normalizeInput (Some s))
    by (unfold normalizeInput; rewrite T; reflexivity).
  unfold sanitizeCounty, sanitizeBucharestSector, isBucharest,
    getCountryCodeByInput, getCountryFromTaxId.
  unfold jsstring in *. rewrite E, T. repeat split.
Qed.

Lemma surrounding_space_ignored_witness :
  sanitizeCounty (Some (str "  Cluj ")) = sanitizeCounty (Some (str "Cluj")).
Proof.
  apply (@surrounding_space_ignored [] (str "  ") (str "Cluj") (str " ") eq_refl eq_refl).
Defined.

Lemma isSpace_asciiLower (c : N) : isSpace (asciiLower c) = isSpace c.
Proof.
  unfold asciiLower, inRange.
  destruct (N.leb_spec 65 c), (N.leb_spec c 90); cbn [andb]; try reflexivity.
  unfold isSpace, inRange.
  repeat match goal with
         | |- context [N.eqb ?a ?b] => destruct (N.eqb_spec a b); [lia|]
         end.
  repeat match goal with
         | |- context [N.leb ?a ?b] => destruct (N.leb_spec a b); try lia
         end;
  reflexivity.
Qed.

Lemma trimStart_asciiLower (s : jsstring) :
  trimStart (List.map asciiLower s) = List.map asciiLower (trimStart s).
Proof.
  induction s as [|c s IH]; [reflexivity|].
  cbn [List.map trimStart]. rewrite isSpace_asciiLower.
  destruct (isSpace c); [exact IH | reflexivity].
Qed.

Lemma trim_asciiLower (s : jsstring) :
  trim (List.map asciiLower s) = List.map asciiLower (trim s).
Proof.
  unfold trim, trimEnd.
  rewrite trimStart_asciiLower, <- map_rev, trimStart_asciiLower, map_rev.
  reflexivity.
Qed.

Lemma lowerUnit_asciiLower (c : N) : lowerUnit (asciiLower c) = lowerUnit c.
Proof.
  unfold asciiLower. destruct (inRange 65 90 c) eqn:E; [|reflexivity].
  unfold lowerUnit. rewrite E. unfold inRange in *.
  apply andb_prop in E. destruct E as [E1 E2].
  apply N.leb_le in E1. apply N.leb_le in E2.
  destruct (N.leb_spec 65 (c + 32)), (N.leb_spec (c + 32) 90); try lia;
    cbn [andb];
    (destruct (N.leb_spec 192 (c + 32)); [lia|]); cbn [andb];
    repeat match goal with
           | |- context [N.eqb ?a ?b] => destruct (N.eqb_spec a b); [lia|]
           end;
    reflexivity.
Qed.

Lemma toLowerCase_asciiLower_any (s : jsstring) :
  toLowerCase (List.map asciiLower s) = toLowerCase s.
Proof.
  unfold toLowerCase. rewrite map_map. apply map_ext. apply lowerUnit_asciiLower.
Qed.

(** X15.  On text written in Basic Latin, the Latin-1 Supplement and the
    Romanian letters, the casing of the letters A-Z is ignored by the
    normal form, and so by [sanitizeCounty] and [sanitizeBucharestSector]. *)
Theorem casing_ignored (s : jsstring) :
  forallb tabled s = true ->
  normalizeInput (Some (List.map asciiLower s)) = normalizeInput (Some s)
  /\ sanitizeCounty (Some (List.map asciiLower s)) = sanitizeCounty (Some s)
  /\ sanitizeBucharestSector (Some (List.map asciiLower s))
     = sanitizeBucharestSector (Some s).
Proof.
  intros _.
  assert (E : normalizeInput (Some (List.map asciiLower s)) = normalizeInput (Some s)).
  { unfold normalizeInput. rewrite trim_asciiLower.
    destruct (trim s) as [|c t]; [reflexivity|].
    cbn [List.map]. f_equal. unfold normalizeChain.
    change (asciiLower c :: List.map asciiLower t) with (List.map asciiLower (c :: t)).
    rewrite toLowerCase_asciiLower_any. reflexivity. }
  unfold sanitizeCounty, sanitizeBucharestSector. rewrite E. repeat split.
Qed.

Lemma casing_ignored_witness :
  sanitizeCounty (Some (List.map asciiLower (str "JUDE" ++ [354%N] ++ str "UL Cluj")))
  = sanitizeCounty (Some (str "JUDE" ++ [354%N] ++ str "UL Cluj")).
Proof.
  apply (@casing_ignored (str "JUDE" ++ [354%N] ++ str "UL Cluj")).
  reflexivity.
Defined.

(** ** Bucharest *)

Lemma upperUnits_low (c : N) : (c < 128)%N -> upperUnits c = [asciiUpper c].
Proof.
  intros Hc. unfold upperUnits, asciiUpper.
  destruct (inRange 97 122 c) eqn:E; [reflexivity|].
  unfold inRange.
  destruct (N.leb_spec 224 c); [lia|]. cbn [andb].
  repeat match goal with
         | |- context [N.eqb c ?b] => destruct (N.eqb_spec c b); [lia|]
         end.
  cbn [orb]. unfold upperSpecial.
  repeat (cbn [find fst snd];
          match goal with
          | |- context [N.eqb ?a c] => destruct (N.eqb_spec a c); [lia|]
          end).
  reflexivity.
Qed.

Ltac not_in_RO_B :=
  eexists; eexists; split; [reflexivity|];
  change (str "RO-B") with [82; 79; 45; 66]%N; cbn [existsb];
  repeat match goal with
         | |- context [N.eqb ?a ?b] => destruct (N.eqb_spec a b); [lia|]
         end;
  reflexivity.

Ltac upper_special c :=
  repeat match goal with
         | |- context [N.eqb c ?b] =>
             destruct (N.eqb_spec c b);
             [subst; eexists; eexists; split; [reflexivity | reflexivity]|]
         end;
  cbn [orb]; unfold upperSpecial;
  repeat (cbn [find fst snd];
          match goal with
          | |- context [N.eqb ?a c] =>
              destruct (N.eqb_spec a c);
              [eexists; eexists; split; [reflexivity | reflexivity]|]
          end);
  cbn [find]; not_in_RO_B.

Lemma upperUnits_high (c : N) :
  (128 <= c)%N ->
  exists x rest,
    upperUnits c = x :: rest
    /\ existsb (N.eqb x) (str "RO-B") = false.
Proof.
  intros Hc. unfold upperUnits, inRange.
  destruct (N.leb_spec 97 c), (N.leb_spec c 122); try lia; cbn [andb].
  destruct (N.leb_spec 224 c), (N.leb_spec c 254); cbn [andb];
    try (destruct (N.eqb_spec c 247); cbn [negb]);
    try not_in_RO_B; upper_special c.
Qed.

Lemma toUpperCase_low (t : jsstring) :
  forallb (fun c => N.ltb c 128) t = true ->
  toUpperCase t = List.map asciiUpper t.
Proof.
  induction t as [|c t IH]; intros H; [reflexivity|].
  cbn [forallb] in H. apply andb_prop in H. destruct H as [Hc H].
  apply N.ltb_lt in Hc.
  unfold toUpperCase. cbn [flat_map List.map].
  rewrite (upperUnits_low Hc). cbn [app]. f_equal. apply IH. exact H.
Qed.

Lemma toUpperCase_target (t target : jsstring) :
  forallb (fun x => existsb (N.eqb x) (str "RO-B")) target = true ->
  toUpperCase t = target ->
  forallb (fun c => N.ltb c 128) t = true.
Proof.
  revert target. induction t as [|c t IH]; intros target Ht E; [reflexivity|].
  unfold toUpperCase in E. cbn [flat_map] in E.
  destruct (N.ltb_spec c 128) as [Hc|Hc].
  - rewrite (upperUnits_low Hc) in E. cbn [app] in E.
    destruct target as [|x target]; [discriminate|].
    injection E as _ E.
    cbn [forallb] in Ht. apply andb_prop in Ht. destruct Ht as [_ Ht].
    cbn [forallb]. rewrite (proj2 (N.ltb_lt c 128) Hc). cbn [andb].
    exact (IH target Ht E).
  - destruct (upperUnits_high Hc) as [x [rest [Ex Hx]]].
    rewrite Ex in E. cbn [app] in E.
    destruct target as [|y target]; [discriminate|].
    injection E as <- _.
    cbn [forallb] in Ht. apply andb_prop in Ht. destruct Ht as [Ht _].
    congruence.
Qed.

Lemma asciiLower_asciiUpper (c : N) : asciiLower (asciiUpper c) = asciiLower c.
Proof.
  unfold asciiLower, asciiUpper, inRange.
  destruct (N.leb_spec 97 c), (N.leb_spec c 122); cbn [andb]; try reflexivity.
  destruct (N.leb_spec 65 (c - 32)), (N.leb_spec (c - 32) 90); try lia.
  destruct (N.leb_spec 65 c), (N.leb_spec c 90); try lia; cbn [andb]; lia.
Qed.

Lemma asciiUpper_asciiLower (c : N) : asciiUpper (asciiLower c) = asciiUpper c.
Proof.
  unfold asciiLower, asciiUpper, inRange.
  destruct (N.leb_spec 65 c), (N.leb_spec c 90); cbn [andb]; try reflexivity.
  destruct (N.leb_spec 97 (c + 32)), (N.leb_spec (c + 32) 122); try lia.
  destruct (N.leb_spec 97 c), (N.leb_spec c 122); try lia; cbn [andb]; lia.
Qed.

Lemma asciiLower_low (t : jsstring) :
  forallb (fun c => N.ltb c 128) (List.map asciiLower t) = true ->
  forallb (fun c => N.ltb c 128) t = true.
Proof.
  induction t as [|c t IH]; [reflexivity|].
  cbn [List.map forallb]. intros H. apply andb_prop in H. destruct H as [Hc H].
  rewrite (IH H), andb_true_r.
  apply N.ltb_lt in Hc. apply N.ltb_lt.
  unfold asciiLower in Hc. destruct (inRange 65 90 c); lia.
Qed.

Lemma toUpperCase_RO_B (t : jsstring) :
  toUpperCase t = str "RO-B" <-> List.map asciiLower t = str "ro-b".
Proof.
  split; intros H.
  - assert (Hl : forallb (fun c => N.ltb c 128) t = true)
      by (apply (@toUpperCase_target t (str "RO-B")); [reflexivity | exact H]).
    rewrite (toUpperCase_low _ Hl) in H.
    rewrite <- (map_ext _ _ asciiLower_asciiUpper), <- map_map, H. reflexivity.
  - assert (Hl : forallb (fun c => N.ltb c 128) t = true)
      by (apply asciiLower_low; rewrite H; reflexivity).
    rewrite (toUpperCase_low _ Hl).
    rewrite <- (map_ext _ _ asciiUpper_asciiLower), <- map_map, H. reflexivity.
Qed.

(** X16.  [isBucharest] holds exactly of the strings that, trimmed, read
    "ro-b" once the letters A-Z are lowered: no other letter, accented or
    not, is taken for one of R, O, B. *)
Theorem isBucharest_iff (countyCode : option jsstring) :
  isBucharest countyCode = true
  <-> exists s, countyCode = Some s /\ List.map asciiLower (trim s) = str "ro-b".
Proof.
  destruct countyCode as [s|]; cbn [isBucharest].
  - rewrite eqb_eq, toUpperCase_RO_B. split.
    + intros H. exists s. split; [reflexivity | exact H].
    + intros [s' [E H]]. injection E as <-. exact H.
  - split; [discriminate|]. intros [s' [E _]]. discriminate.
Qed.

Lemma isBucharest_iff_witness : isBucharest (Some (str " Ro-b ")) = true.
Proof.
  apply (proj2 (isBucharest_iff (Some (str " Ro-b ")))).
  exists (str " Ro-b "). split; reflexivity.
Defined.

Lemma isBucharest_table :
  forallb (fun e => implb (isBucharest (Some (str (snd e))))
                      (String.eqb (snd e) "RO-B"))
          RO_ISO_3166_2_RO_MAP = true.
Proof. vm_compute. reflexivity. Qed.

(** X17.  On a result of [sanitizeCounty], [isBucharest] holds exactly
    when the county found is RO-B. *)
Theorem isBucharest_sanitizeCounty (input : option jsstring) :
  isBucharest (sanitizeCounty input) = true
  <-> sanitizeCounty input = Some (str "RO-B").
Proof.
  split.
  - destruct (sanitizeCounty input) as [code|] eqn:E; [|discriminate].
    destruct (sanitizeCounty_In _ E) as [n [k [v [_ [Hin [-> _]]]]]].
    intros H.
    pose proof (proj1 (forallb_forall _ _) isBucharest_table (k, v) Hin) as Hv.
    cbn [snd] in Hv. rewrite H in Hv. cbn [implb] in Hv.
    apply String.eqb_eq in Hv. subst v. reflexivity.
  - intros ->. reflexivity.
Qed.

Lemma isBucharest_sanitizeCounty_witness :
  isBucharest (sanitizeCounty (Some (str "Mun. Bucuresti"))) = true.
Proof.
  apply (proj2 (isBucharest_sanitizeCounty (Some (str "Mun. Bucuresti")))).
  vm_compute. reflexivity.
Defined.

(** ** The country helpers *)

Lemma find_In {A} (f : A -> bool) (l : list A) (x : A) :
  In x l -> f x = true -> exists y, find f l = Some y /\ In y l /\ f y = true.
Proof.
  induction l as [|a l IH]; intros Hin Hx; [destruct Hin|].
  cbn [find]. destruct (f a) eqn:Ea.
  - exists a. repeat split; [left; reflexivity | exact Ea].
  - destruct Hin as [->|Hin]; [congruence|].
    destruct (IH Hin Hx) as [y [E [Hy Hf]]].
    exists y. repeat split; [exact E | right; exact Hy | exact Hf].
Qed.

(** X18.  A code returned by [getCountryCodeByInput] is the alpha-2 code
    of an entry of the table, and that entry was found either by its code
    (the input, trimmed and in upper case) or by its name (same normal
    form as the input). *)
Theorem getCountryCodeByInput_sound
  (table : list Country) (input code : jsstring) :
  getCountryCodeByInput table input = Some code ->
  exists e,
    In e table /\ code = alpha2 e
    /\ (alpha2 e = toUpperCase (trim input)
        \/ normalizeInput (Some (name e)) = normalizeInput (Some input)).
Proof.
  unfold getCountryCodeByInput.
  destruct (normalizeInput (Some input)) as [[|c n]|]; try discriminate.
  assert (Hname : forall r : option Country,
            find (fun country =>
                    strictEqOpt (normalizeInput (Some (name country))) (Some (c :: n)))
                 table = r ->
            match r with Some country => Some (alpha2 country) | None => None end
            = Some code ->
            exists e, In e table /\ code = alpha2 e
                      /\ (alpha2 e = toUpperCase (trim input)
                          \/ normalizeInput (Some (name e)) = Some (c :: n))).
  { intros [e|] E; [|discriminate]. intros H. injection H as <-.
    apply find_some in E. destruct E as [Hin He].
    apply strictEqOpt_eq in He. exists e. repeat split; auto. }
  destruct (test re_alpha2 (toUpperCase (trim input))).
  - destruct (find (fun country => JS.eqb (alpha2 country) (toUpperCase (trim input)))
                table) as [e|] eqn:E.
    + intros H. injection H as <-. apply find_some in E. destruct E as [Hin He].
      apply eqb_eq in He. exists e. repeat split; auto.
    + apply Hname. reflexivity.
  - apply Hname. reflexivity.
Qed.

Lemma getCountryCodeByInput_sound_witness :
  exists e,
    In e [mkCountry (str "Romania") (str "RO"); mkCountry (str "Germany") (str "DE")]
    /\ str "DE" = alpha2 e
    /\ (alpha2 e = toUpperCase (trim (str " germany "))
        \/ normalizeInput (Some (name e)) = normalizeInput (Some (str " germany "))).
Proof.
  apply (@getCountryCodeByInput_sound
           [mkCountry (str "Romania") (str "RO"); mkCountry (str "Germany") (str "DE")]
           (str " germany ") (str "DE")).
  vm_compute. reflexivity.
Defined.

(** X19.  The alpha-2 code comes first: when the input has a normal form
    and, trimmed and in upper case, is two capital letters that are the
    code of an entry, that code is returned, whatever the names of the
    table are.  The upper case is that of JavaScript, so that the sharp s
    alone reads as the code SS. *)
Theorem getCountryCodeByInput_alpha2
  (table : list Country) (input : jsstring) (e : Country) (c : N) (n : jsstring) :
  normalizeInput (Some input) = Some (c :: n) ->
  test re_alpha2 (toUpperCase (trim input)) = true ->
  In e table -> alpha2 e = toUpperCase (trim input) ->
  getCountryCodeByInput table input = Some (toUpperCase (trim input)).
Proof.
  intros Hn Ht Hin He. unfold getCountryCodeByInput. rewrite Hn, Ht.
  destruct (@find_In _ (fun country => JS.eqb (alpha2 country) (toUpperCase (trim input)))
              table e Hin (proj2 (eqb_eq _ _) He)) as [y [E [_ Hy]]].
  rewrite E. apply eqb_eq in Hy. rewrite Hy. reflexivity.
Qed.

Lemma getCountryCodeByInput_alpha2_witness :
  getCountryCodeByInput
    [mkCountry (str "Sweden") (str "SE"); mkCountry (str "South Sudan") (str "SS")]
    [223%N]
  = Some (str "SS").
Proof.
  apply (@getCountryCodeByInput_alpha2
           [mkCountry (str "Sweden") (str "SE"); mkCountry (str "South Sudan") (str "SS")]
           [223%N] (mkCountry (str "South Sudan") (str "SS")) 223%N []).
  - vm_compute. reflexivity.
  - vm_compute. reflexivity.
  - right. left. reflexivity.
  - vm_compute. reflexivity.
Defined.

(** X20.  Round trip through the two helpers.  In a table where no name
    reads as a two-letter code, every name has a normal form and no two
    entries share one, the name that [getCountryFromTaxId] gives for a
    tax id is taken back by [getCountryCodeByInput] to the prefix of the
    tax id: its first two code units after trimming, in upper case. *)
Theorem getCountryFromTaxId_round_trip
  (table : list Country) (taxId countryName : jsstring) :
  (forall e, In e table ->
     test re_alpha2 (toUpperCase (trim (name e))) = false) ->
  (forall e, In e table ->
     exists c n, normalizeInput (Some (name e)) = Some (c :: n)) ->
  (forall e e', In e table -> In e' table ->
     normalizeInput (Some (name e)) = normalizeInput (Some (name e')) -> e = e') ->
  getCountryFromTaxId table taxId = Some countryName ->
  getCountryCodeByInput table countryName
  = Some (toUpperCase (firstn 2 (trim taxId))).
Proof.
  intros Hcode Hnorm Hinj. unfold getCountryFromTaxId.
  destruct (find _ table) as [e|] eqn:E; [|discriminate].
  intros H. injection H as <-.
  apply find_some in E. destruct E as [Hin He]. apply eqb_eq in He.
  unfold getCountryCodeByInput.
  destruct (Hnorm e Hin) as [c [n Hn]]. rewrite Hn, (Hcode e Hin).
  cbn beta iota.
  match goal with
  | |- context [find ?f table] =>
      assert (Hfe : f e = true) by (cbn beta; apply strictEqOpt_eq; exact Hn);
      destruct (@find_In _ f table e Hin Hfe) as [y [Ey [Hy Hf]]]
  end.
  rewrite Ey. cbn beta in Hf. apply strictEqOpt_eq in Hf.
  rewrite (Hinj y e Hy Hin (eq_trans Hf (eq_sym Hn))). rewrite He. reflexivity.
Qed.

Lemma getCountryFromTaxId_round_trip_witness :
  getCountryCodeByInput
    [mkCountry (str "Romania") (str "RO"); mkCountry (str "Germany") (str "DE");
     mkCountry (str "United States of America") (str "US")]
    (str "Germany")
  = Some (toUpperCase (firstn 2 (trim (str " de811907980")))).
Proof.
  apply (@getCountryFromTaxId_round_trip
           [mkCountry (str "Romania") (str "RO"); mkCountry (str "Germany") (str "DE");
            mkCountry (str "United States of America") (str "US")]
           (str " de811907980") (str "Germany")).
  - intros e [<-|[<-|[<-|[]]]]; vm_compute; reflexivity.
  - intros e [<-|[<-|[<-|[]]]]; eexists; eexists; vm_compute; reflexivity.
  - intros e e' [<-|[<-|[<-|[]]]] [<-|[<-|[<-|[]]]]; intros H;
      try reflexivity; vm_compute in H; discriminate.
  - vm_compute. reflexivity.
Defined.

(** ** The control digit of a personal code *)

Lemma isValidCNP_thirteen (s : jsstring) :
  isValidCNP s = true -> thirteenDigits s.
Proof.
  unfold isValidCNP. rewrite test_re_cnp.
  destruct (exactly isDigit 13 s) eqn:E; [|discriminate].
  intros _. apply exactly_spec. exact E.
Qed.

Lemma isValidCNP_last (body : jsstring) (c : N) :
  isValidCNP (body ++ [c]) = true ->
  (body ++ [c] = str "0000000000000"
   \/ (digitValue c = expectedCheckDigit (List.map digitValue body)
       /\ body ++ [c] <> str "0000000000000"
       /\ (1 <= nth 0 (List.map digitValue body) 0)%Z)).
Proof.
  intros H. pose proof (@isValidCNP_thirteen _ H) as T.
  rewrite (isValidCNP_13 T) in H. destruct T as [L _].
  rewrite length_app in L. cbn [List.length] in L.
  do 12 (destruct body as [|? body]; [cbn [List.length] in L; lia|]).
  destruct body as [|? body]; [|cbn [List.length] in L; lia].
  destruct (JS.eqb _ (str "0000000000000")) eqn:E in H.
  - left. apply eqb_eq. exact E.
  - right. cbv zeta in H. apply andb_prop in H. destruct H as [Hc Hf].
    apply andb_prop in Hf. destruct Hf as [Hf _].
    apply Z.eqb_eq in Hc. apply Z.leb_le in Hf.
    repeat split; [exact Hc | apply eqb_neq; exact E | exact Hf].
Qed.

(** X21.  The first twelve digits of a personal code fix the thirteenth:
    two codes that [isValidCNP] accepts and that differ at most in the last
    position are the same code. *)
Theorem isValidCNP_control_unique (body : jsstring) (c c' : N) :
  isValidCNP (body ++ [c]) = true -> isValidCNP (body ++ [c']) = true ->
  c = c'.
Proof.
  intros H1 H2.
  assert (Hz : forall x, body ++ [x] = str "0000000000000" ->
               x = 48%N /\ nth 0 (List.map digitValue body) 0%Z = 0%Z).
  { intros x E. change (str "0000000000000") with (repeat 48%N 12 ++ [48%N]) in E.
    apply app_inj_tail in E. destruct E as [-> ->]. split; reflexivity. }
  destruct (@isValidCNP_last _ _ H1) as [E1|[D1 [_ F1]]],
           (@isValidCNP_last _ _ H2) as [E2|[D2 [_ F2]]].
  - destruct (Hz _ E1) as [-> _], (Hz _ E2) as [-> _]. reflexivity.
  - destruct (Hz _ E1) as [_ Z1]. lia.
  - destruct (Hz _ E2) as [_ Z2]. lia.
  - unfold digitValue in D1, D2. lia.
Qed.

Lemma isValidCNP_control_unique_witness : 54%N = 54%N.
Proof.
  apply (@isValidCNP_control_unique (str "196010112345") 54%N 54%N);
    vm_compute; reflexivity.
Defined.
